(** * Invoicing and inventory tool: a shallow embedding of [src/index.tsx]

    The development follows the source file top-down: the JavaScript
    values the program computes with (numbers, truthiness, JSON), the
    five interfaces of the data model, the browser's [localStorage], and
    then the handlers of the three stateful components ([Inventory],
    [SettingsView], [InvoiceEditor]).

    Modelling conventions.
    - Numbers are embedded twice. Where the program only stores,
      copies, compares or lays out numbers (the catalog, the drafts, the
      JSON records, the column widths), a number is [NaN] or an exact
      rational ([Qc]). Where a property depends on what arithmetic does
      (the totals, the quantity buttons, the numeric inputs), the same
      handlers are embedded over IEEE 754 doubles, the kernel's
      primitive [float], with rounding, signed zeros, the infinities and
      [NaN] (module [IEEE]).
    - Everything the platform decides and the program only receives
      ([Math.random], the clock, [confirm], a file read, the remote
      extraction service, [parseFloat]) is an argument of the handler
      that uses it.
    - A [localStorage] record is held as the JSON value that its text
      denotes: every write in the program stores [JSON.stringify] of a
      value and every read applies [JSON.parse]. *)

From Stdlib Require Import QArith Qcanon.
From stdpp Require Import base option list strings gmap numbers pretty.
From Stdlib Require Import Floats.

#[local] Set Warnings "-register-all,-inexact-float".
#[local] Open Scope Qc_scope.

(* ===================================================================== *)
(** * JavaScript numbers *)
(* ===================================================================== *)

(** The numbers that the program stores, copies and lays out: [NaN] or
    an exact rational. Sums, differences and products over this type are
    exact, with no rounding, no overflow and no infinity; the properties
    that rest on what the arithmetic of doubles does are stated over
    [IEEE.double] instead. *)
Inductive number : Type :=
| NaN
| Num (q : Qc).

(** A decimal integer literal of the source, such as [0], [10] or [100]. *)
Definition lit (z : Z) : number := Num (Qc_of_Z z).

Definition nadd (a b : number) : number :=
  match a, b with
  | Num x, Num y => Num (x + y)
  | _, _ => NaN
  end.

Definition nsub (a b : number) : number :=
  match a, b with
  | Num x, Num y => Num (x - y)
  | _, _ => NaN
  end.

Definition nmul (a b : number) : number :=
  match a, b with
  | Num x, Num y => Num (x * y)
  | _, _ => NaN
  end.

(** [a / b]. The program divides by the literal [100] only; a zero
    divisor, which JavaScript answers with an infinity, is outside the
    number model and is answered [NaN] here. *)
Definition ndiv (a b : number) : number :=
  match a, b with
  | Num x, Num y => if decide (y = 0) then NaN else Num (x / y)
  | _, _ => NaN
  end.

Definition Qcmax (x y : Qc) : Qc := if decide (x ≤ y) then y else x.

(** [Math.max(a, b)]: [NaN] as soon as one argument is. *)
Definition Math_max (a b : number) : number :=
  match a, b with
  | Num x, Num y => Num (Qcmax x y)
  | _, _ => NaN
  end.

(* ===================================================================== *)
(** * Truthiness and the [||] operator *)
(* ===================================================================== *)

Class Truthy (A : Type) := truthy : A → bool.

#[global] Instance number_truthy : Truthy number := λ n,
  match n with
  | NaN => false
  | Num q => negb (bool_decide (q = 0))
  end.

#[global] Instance string_truthy : Truthy string := λ s,
  negb (bool_decide (s = "")).

#[global] Instance bool_truthy : Truthy bool := λ b, b.

(** A property that may be absent: [undefined] is falsy. *)
#[global] Instance option_truthy {A} `{Truthy A} : Truthy (option A) := λ o,
  match o with
  | None => false
  | Some a => truthy a
  end.

(** [a || b] when both sides have the same type. *)
Definition js_or {A} `{Truthy A} (a b : A) : A := if truthy a then a else b.

(** [a || b] when the left side may be [undefined]. *)
Definition js_or_undef {A} `{Truthy A} (a : option A) (b : A) : A :=
  match a with
  | Some x => js_or x b
  | None => b
  end.

(* ===================================================================== *)
(** * The data model (interfaces of lines 39-84) *)
(* ===================================================================== *)

Module Product.
Record t : Type := mk {
  id : string;
  code : string;
  name : string;
  description : string;
  price : number;
  image : option string
}.
End Product.

Module InvoiceItem.
Record t : Type := mk {
  id : string;
  productId : option string;
  description : string;
  itemCode : string;
  price : number;
  qty : number;
  image : option string
}.

(** One [field, value] pair as [updateItem] receives it. *)
Inductive patch : Type :=
| Id (v : string)
| ProductId (v : option string)
| Description (v : string)
| ItemCode (v : string)
| Price (v : number)
| Qty (v : number)
| Image (v : option string).

(** [{ ...item, [field]: value }] *)
Definition set (u : patch) (item : t) : t :=
  match u with
  | Id v => mk v (productId item) (description item) (itemCode item) (price item) (qty item) (image item)
  | ProductId v => mk (id item) v (description item) (itemCode item) (price item) (qty item) (image item)
  | Description v => mk (id item) (productId item) v (itemCode item) (price item) (qty item) (image item)
  | ItemCode v => mk (id item) (productId item) (description item) v (price item) (qty item) (image item)
  | Price v => mk (id item) (productId item) (description item) (itemCode item) v (qty item) (image item)
  | Qty v => mk (id item) (productId item) (description item) (itemCode item) (price item) v (image item)
  | Image v => mk (id item) (productId item) (description item) (itemCode item) (price item) (qty item) v
  end.
End InvoiceItem.

Module InvoiceData.
Record t : Type := mk {
  id : option string;
  customerName : string;
  reference : string;
  date : string;
  items : list InvoiceItem.t;
  footerNote : string;
  savedAt : option string
}.

(** [{ ...prev, items: l }] *)
Definition with_items (l : list InvoiceItem.t) (d : t) : t :=
  mk (id d) (customerName d) (reference d) (date d) l (footerNote d) (savedAt d).
End InvoiceData.

Module TableConfig.
Record t : Type := mk {
  imageWidth : number;
  itemWidth : number;
  priceWidth : number;
  qtyWidth : number;
  totalWidth : number;
  rowPadding : number;
  fontSize : number
}.
End TableConfig.

Module AppSettings.
Record t : Type := mk {
  companyLogo : string;
  taxRate : number;
  themeColor : string;
  showImageColumn : bool;
  tableConfig : TableConfig.t
}.

(** [{ ...settings, taxRate: v }] *)
Definition with_taxRate (v : number) (s : t) : t :=
  mk (companyLogo s) v (themeColor s) (showImageColumn s) (tableConfig s).
End AppSettings.

Definition DEFAULT_COLOR : string := "#3b82f6".

Definition DEFAULT_TABLE_CONFIG : TableConfig.t :=
  TableConfig.mk (lit 10) (lit 15) (lit 15) (lit 10) (lit 10) (lit 8) (lit 14).

(* ===================================================================== *)
(** * JSON values, as [JSON.parse] returns them *)
(* ===================================================================== *)

(** An object keeps its properties in insertion order, as the text that
    [JSON.stringify] writes does. *)
Inductive value : Type :=
| VNull
| VBool (b : bool)
| VNum (q : Qc)
| VStr (s : string)
| VArr (l : list value)
| VObj (o : list (string * value)).

Abbreviation object := (list (string * value)).

#[global] Instance value_truthy : Truthy value := λ v,
  match v with
  | VNull => false
  | VBool b => b
  | VNum q => negb (bool_decide (q = 0))
  | VStr s => negb (bool_decide (s = ""))
  | VArr _ => true
  | VObj _ => true
  end.

(** [o[k]] on the properties of an object; [None] is [undefined]. *)
Fixpoint obj_get (k : string) (o : object) : option value :=
  match o with
  | [] => None
  | (k', v) :: o' => if decide (k' = k) then Some v else obj_get k o'
  end.

(** [o[k] = v]: an existing property keeps its place, a new one goes
    last. JavaScript lists the keys that read as array indices first, in
    ascending order, whatever the order in which they were set: the
    order of such keys is not the one of this list, and nothing below is
    stated of the order of the keys, only of the fields and their
    values. *)
Fixpoint obj_set (k : string) (v : value) (o : object) : object :=
  match o with
  | [] => [(k, v)]
  | (k', v') :: o' =>
      if decide (k' = k) then (k, v) :: o' else (k', v') :: obj_set k v o'
  end.

(** The own enumerable properties that an object spread [...v] copies:
    those of an object, the indices of an array, the characters of a
    string, and nothing for [null], a boolean or a number. *)
Definition own_props (v : value) : object :=
  match v with
  | VObj o => o
  | VArr l => imap (λ i x, (pretty i, x)) l
  | VStr s => imap (λ i c, (pretty i, VStr (String c ""))) (String.list_ascii_of_string s)
  | VNull | VBool _ | VNum _ => []
  end.

(** [{ ...target, ...source }], property by property. *)
Definition obj_assign (target source : object) : object :=
  fold_left (λ acc kv, obj_set kv.1 kv.2 acc) source target.

(** Reading a property [v.k] of an arbitrary JSON value. On [null] this
    throws a [TypeError] (the outer [None]); the program reads only keys
    that arrays, strings, numbers and booleans do not have, so these
    answer [undefined] (the inner [None]). *)
Definition get_prop (v : value) (k : string) : option (option value) :=
  match v with
  | VNull => None
  | VObj o => Some (obj_get k o)
  | _ => Some None
  end.

(** [JSON.stringify] of a number: [NaN] is written as [null]. *)
Definition number_toJSON (n : number) : value :=
  match n with
  | NaN => VNull
  | Num q => VNum q
  end.

(** A property whose value is [undefined] is left out by [JSON.stringify]. *)
Definition optional_prop {A} (k : string) (f : A → value) (o : option A) : object :=
  match o with
  | None => []
  | Some a => [(k, f a)]
  end.

Definition Product_toJSON (p : Product.t) : value :=
  VObj ([("id", VStr (Product.id p));
         ("code", VStr (Product.code p));
         ("name", VStr (Product.name p));
         ("description", VStr (Product.description p));
         ("price", number_toJSON (Product.price p))]
        ++ optional_prop "image" VStr (Product.image p)).

Definition InvoiceItem_toJSON (i : InvoiceItem.t) : value :=
  VObj ([("id", VStr (InvoiceItem.id i))]
        ++ optional_prop "productId" VStr (InvoiceItem.productId i)
        ++ [("itemCode", VStr (InvoiceItem.itemCode i));
            ("description", VStr (InvoiceItem.description i));
            ("price", number_toJSON (InvoiceItem.price i));
            ("qty", number_toJSON (InvoiceItem.qty i))]
        ++ optional_prop "image" VStr (InvoiceItem.image i)).

Definition InvoiceData_toJSON (d : InvoiceData.t) : value :=
  VObj ([("customerName", VStr (InvoiceData.customerName d));
         ("reference", VStr (InvoiceData.reference d));
         ("date", VStr (InvoiceData.date d));
         ("items", VArr (InvoiceItem_toJSON <$> InvoiceData.items d));
         ("footerNote", VStr (InvoiceData.footerNote d))]
        ++ optional_prop "id" VStr (InvoiceData.id d)
        ++ optional_prop "savedAt" VStr (InvoiceData.savedAt d)).

Definition TableConfig_toJSON (c : TableConfig.t) : value :=
  VObj [("imageWidth", number_toJSON (TableConfig.imageWidth c));
        ("itemWidth", number_toJSON (TableConfig.itemWidth c));
        ("priceWidth", number_toJSON (TableConfig.priceWidth c));
        ("qtyWidth", number_toJSON (TableConfig.qtyWidth c));
        ("totalWidth", number_toJSON (TableConfig.totalWidth c));
        ("rowPadding", number_toJSON (TableConfig.rowPadding c));
        ("fontSize", number_toJSON (TableConfig.fontSize c))].

Definition AppSettings_toJSON (s : AppSettings.t) : value :=
  VObj [("companyLogo", VStr (AppSettings.companyLogo s));
        ("taxRate", number_toJSON (AppSettings.taxRate s));
        ("themeColor", VStr (AppSettings.themeColor s));
        ("showImageColumn", VBool (AppSettings.showImageColumn s));
        ("tableConfig", TableConfig_toJSON (AppSettings.tableConfig s))].

(* ===================================================================== *)
(** * [localStorage] *)
(* ===================================================================== *)

Abbreviation storage := (gmap string value).

Definition getItem (k : string) (ls : storage) : option value := ls !! k.

Definition setItem (k : string) (v : value) (ls : storage) : storage :=
  <[k := v]> ls.

(** What a handler can do to the browser besides changing its
    component's state: write [localStorage] and call [alert]. *)
Module Browser.
Record t : Type := mk {
  localStorage : storage;
  alerts : list string
}.

Definition write (k : string) (v : value) (b : t) : t :=
  mk (setItem k v (localStorage b)) (alerts b).

Definition alert (msg : string) (b : t) : t :=
  mk (localStorage b) (alerts b ++ [msg]).
End Browser.

(* ===================================================================== *)
(** * Array helpers *)
(* ===================================================================== *)

(** [l.findIndex(f)]: the first index at which [f] holds, [-1] if none. *)
Definition findIndex {A} (f : A → bool) (l : list A) : Z :=
  match list_find (λ x, f x = true) l with
  | Some (i, _) => Z.of_nat i
  | None => (-1)%Z
  end.

(** [s.startsWith(p)] and [s.endsWith(p)]. *)
Definition startsWith (s p : string) : bool := String.prefix p s.

Definition endsWith (s p : string) : bool :=
  String.prefix (String.rev p) (String.rev s).

(* ===================================================================== *)
(** * 4. Invoice editor (lines 784-1355) *)
(* ===================================================================== *)

Module Editor.
Record t : Type := mk {
  data : InvoiceData.t;
  savedDrafts : list InvoiceData.t;
  settings : AppSettings.t;
  showProductPicker : bool;
  searchQuery : string
}.

(** [setData(f)] *)
Definition setData (f : InvoiceData.t → InvoiceData.t) (s : t) : t :=
  mk (f (data s)) (savedDrafts s) (settings s) (showProductPicker s) (searchQuery s).

Definition setSavedDrafts (l : list InvoiceData.t) (s : t) : t :=
  mk (data s) l (settings s) (showProductPicker s) (searchQuery s).

Definition setShowProductPicker (b : bool) (s : t) : t :=
  mk (data s) (savedDrafts s) (settings s) b (searchQuery s).

Definition setSearchQuery (q : string) (s : t) : t :=
  mk (data s) (savedDrafts s) (settings s) (showProductPicker s) q.
End Editor.

(** The object literal of [addItem] (lines 856-864); [gid] is what
    [generateId()] returns for it. *)
Definition newItem (gid : string) (product : option Product.t) : InvoiceItem.t :=
  {| InvoiceItem.id := gid;
     InvoiceItem.productId := Product.id <$> product;
     InvoiceItem.itemCode := js_or_undef (Product.code <$> product) "";
     InvoiceItem.description :=
       match product with
       | Some p => Product.name p +:+ " - " +:+ Product.description p
       | None => ""
       end;
     InvoiceItem.price := js_or_undef (Product.price <$> product) (lit 0);
     InvoiceItem.qty := lit 1;
     InvoiceItem.image := product ≫= Product.image |}.

Definition addItem (gid : string) (product : option Product.t) (s : Editor.t) : Editor.t :=
  Editor.setSearchQuery ""
    (Editor.setShowProductPicker false
      (Editor.setData
        (λ prev, InvoiceData.with_items (InvoiceData.items prev ++ [newItem gid product]) prev)
        s)).

Definition updateItem (id : string) (u : InvoiceItem.patch) (s : Editor.t) : Editor.t :=
  Editor.setData
    (λ prev, InvoiceData.with_items
       ((λ item, if decide (InvoiceItem.id item = id) then InvoiceItem.set u item else item)
          <$> InvoiceData.items prev)
       prev)
    s.

Definition removeItem (id : string) (s : Editor.t) : Editor.t :=
  Editor.setData
    (λ prev, InvoiceData.with_items
       (filter (λ i, InvoiceItem.id i ≠ id) (InvoiceData.items prev)) prev)
    s.

(** The three item operations of the editor, for sequences of them. *)
Inductive item_op : Type :=
| AddItem (gid : string) (product : option Product.t)
| UpdateItem (id : string) (u : InvoiceItem.patch)
| RemoveItem (id : string).

Definition apply_op (s : Editor.t) (op : item_op) : Editor.t :=
  match op with
  | AddItem gid product => addItem gid product s
  | UpdateItem id u => updateItem id u s
  | RemoveItem id => removeItem id s
  end.

Definition apply_ops (ops : list item_op) (s : Editor.t) : Editor.t :=
  fold_left apply_op ops s.

Definition calculateSubtotal (s : Editor.t) : number :=
  fold_left (λ acc item, nadd acc (nmul (InvoiceItem.price item) (InvoiceItem.qty item)))
    (InvoiceData.items (Editor.data s)) (lit 0).

Definition calculateTotal (s : Editor.t) : number :=
  let subtotal := calculateSubtotal s in
  let taxAmount := nmul subtotal (ndiv (AppSettings.taxRate (Editor.settings s)) (lit 100)) in
  nadd subtotal taxAmount.

(** Table layout calculation (lines 980-982). *)
Definition usedWidth (settings : AppSettings.t) : number :=
  let tableConfig := AppSettings.tableConfig settings in
  nadd (nadd (nadd (nadd
    (if AppSettings.showImageColumn settings then TableConfig.imageWidth tableConfig else lit 0)
    (TableConfig.itemWidth tableConfig))
    (TableConfig.priceWidth tableConfig))
    (TableConfig.qtyWidth tableConfig))
    (TableConfig.totalWidth tableConfig).

Definition descriptionWidth (settings : AppSettings.t) : number :=
  Math_max (lit 10) (nsub (lit 100) (usedWidth settings)).

(** [handleSaveDraft] (lines 928-951). [gid] is what [generateId()]
    returns if it is called, [now] is [new Date().toLocaleString()]. *)
Definition draftId (gid : string) (data : InvoiceData.t) : string :=
  js_or_undef (InvoiceData.id data) gid.

Definition draftToSave (gid now : string) (data : InvoiceData.t) : InvoiceData.t :=
  {| InvoiceData.id := Some (draftId gid data);
     InvoiceData.customerName := InvoiceData.customerName data;
     InvoiceData.reference := InvoiceData.reference data;
     InvoiceData.date := InvoiceData.date data;
     InvoiceData.items := InvoiceData.items data;
     InvoiceData.footerNote := InvoiceData.footerNote data;
     InvoiceData.savedAt := Some now |}.

Definition updatedDrafts (gid now : string) (s : Editor.t) : list InvoiceData.t :=
  let existingIndex :=
    findIndex (λ d, bool_decide (InvoiceData.id d = Some (draftId gid (Editor.data s))))
      (Editor.savedDrafts s) in
  if (0 <=? existingIndex)%Z
  then <[Z.to_nat existingIndex := draftToSave gid now (Editor.data s)]> (Editor.savedDrafts s)
  else draftToSave gid now (Editor.data s) :: Editor.savedDrafts s.

Definition DRAFT_SAVED : string := "تم حفظ المسودة بنجاح!".

Definition handleSaveDraft (gid now : string) (sb : Editor.t * Browser.t) : Editor.t * Browser.t :=
  let '(s, b) := sb in
  let drafts := updatedDrafts gid now s in
  (Editor.setData (λ _, draftToSave gid now (Editor.data s)) (Editor.setSavedDrafts drafts s),
   Browser.alert DRAFT_SAVED
     (Browser.write "invoiceDrafts" (VArr (InvoiceData_toJSON <$> drafts)) b)).

(** The [onChange] handlers of the price and quantity inputs (lines
    1247 and 1266); [text] is [e.target.value]. *)
Definition onPriceChange (parseFloat : string → number) (id text : string) (s : Editor.t) : Editor.t :=
  updateItem id (InvoiceItem.Price (js_or (parseFloat text) (lit 0))) s.

Definition onQtyChange (parseFloat : string → number) (id text : string) (s : Editor.t) : Editor.t :=
  updateItem id (InvoiceItem.Qty (js_or (parseFloat text) (lit 0))) s.

(* ===================================================================== *)
(** * Handlers that can throw: state passing with exceptions *)
(* ===================================================================== *)

(** A computation over a state [St] that returns a result or throws;
    the state reached at the throw is kept, as the assignments made
    inside a [try] block are. *)
Definition proc (St A : Type) : Type := St → option A * St.

Definition proc_ret {St A} (a : A) : proc St A := λ s, (Some a, s).

Definition proc_bind {St A B} (m : proc St A) (k : A → proc St B) : proc St B := λ s,
  match m s with
  | (Some a, s') => k a s'
  | (None, s') => (None, s')
  end.

Definition throw {St A} : proc St A := λ s, (None, s).

Definition modify {St} (f : St → St) : proc St unit := λ s, (Some tt, f s).

Notation "'do' x <- m ; k" := (proc_bind m (λ x, k))
  (at level 10, x name, m at level 100, k at level 200,
   format "'[v' 'do'  x  <-  m ; '/' k ']'").
Notation "m ;; k" := (proc_bind m (λ _, k))
  (at level 100, k at level 200, right associativity).

(** [try { body } catch { handler } finally { cleanup }] *)
Definition try_catch_finally {St} (body : proc St unit) (handler cleanup : St → St) (s : St) : St :=
  match body s with
  | (Some _, s') => cleanup s'
  | (None, s') => cleanup (handler s')
  end.

(** How an awaited promise settles. *)
Inductive promise (A : Type) : Type :=
| Fulfilled (a : A)
| Rejected.
Arguments Fulfilled {A} a.
Arguments Rejected {A}.

Definition await {St A} (p : promise A) : proc St A :=
  match p with
  | Fulfilled a => proc_ret a
  | Rejected => throw
  end.

(** [l.map(f)] when [f] can throw: the first throw ends the loop. *)
Fixpoint map_throwing {St A B} (f : nat → A → proc St B) (i : nat) (l : list A) : proc St (list B) :=
  match l with
  | [] => proc_ret []
  | x :: l' =>
      do y <- f i x;
      do ys <- map_throwing f (S i) l';
      proc_ret (y :: ys)
  end.

(* ===================================================================== *)
(** * 2. Inventory and the extraction upload (lines 161-459) *)
(* ===================================================================== *)

Module Inventory.
Record t : Type := mk {
  products : list Product.t;
  isUploading : bool;
  uploadStatus : string;
  editingProduct : option Product.t
}.

Definition setProducts (l : list Product.t) (s : t) : t :=
  mk l (isUploading s) (uploadStatus s) (editingProduct s).

Definition setIsUploading (b : bool) (s : t) : t :=
  mk (products s) b (uploadStatus s) (editingProduct s).

Definition setUploadStatus (msg : string) (s : t) : t :=
  mk (products s) (isUploading s) msg (editingProduct s).

Definition setEditingProduct (p : option Product.t) (s : t) : t :=
  mk (products s) (isUploading s) (uploadStatus s) p.
End Inventory.

Definition saveProducts (newProducts : list Product.t) (sb : Inventory.t * Browser.t)
  : Inventory.t * Browser.t :=
  (Inventory.setProducts newProducts sb.1,
   Browser.write "products" (VArr (Product_toJSON <$> newProducts)) sb.2).

(** [handleDelete]; [confirmed] is what [confirm(...)] answers. *)
Definition handleDelete (id : string) (confirmed : bool) (sb : Inventory.t * Browser.t)
  : Inventory.t * Browser.t :=
  if confirmed
  then saveProducts (filter (λ p, Product.id p ≠ id) (Inventory.products sb.1)) sb
  else sb.

Definition handleEditSave (sb : Inventory.t * Browser.t) : Inventory.t * Browser.t :=
  match Inventory.editingProduct sb.1 with
  | Some editingProduct =>
      let updatedProducts :=
        (λ p, if decide (Product.id p = Product.id editingProduct) then editingProduct else p)
          <$> Inventory.products sb.1 in
      let sb' := saveProducts updatedProducts sb in
      (Inventory.setEditingProduct None sb'.1, sb'.2)
  | None => sb
  end.

(** The [onChange] handler of the price input of the edit modal (line
    354); the modal is rendered only while a product is being edited. *)
Definition onEditPriceChange (parseFloat : string → number) (text : string) (s : Inventory.t)
  : Inventory.t :=
  match Inventory.editingProduct s with
  | Some p =>
      Inventory.setEditingProduct
        (Some (Product.mk (Product.id p) (Product.code p) (Product.name p)
                 (Product.description p) (js_or (parseFloat text) (lit 0)) (Product.image p)))
        s
  | None => s
  end.

Module File.
Record t : Type := mk {
  name : string;
  type : string
}.
End File.

(** One entry of the [products] array of the response, typed by the
    [responseSchema] that the request carries (lines 258-274): four
    properties, none of them required. *)
Module Extracted.
Record t : Type := mk {
  code : option string;
  name : option string;
  description : option string;
  price : option number
}.
End Extracted.

(** What [JSON.parse(text)] returns for the response. *)
Inductive response_data : Type :=
| DataNull                                      (* [null]: [data.products] throws *)
| NoProducts                                    (* [data.products] falsy or not an array *)
| Products (entries : list (option Extracted.t)). (* an entry [None] is [null] *)

(** [response.text] *)
Inductive response_text : Type :=
| NoText                       (* [undefined] or the empty string *)
| Malformed                    (* [JSON.parse] throws *)
| Json (data : response_data).

(** Everything [handleFileUpload] receives from outside. *)
Module UploadEnv.
Record t : Type := mk {
  file : option File.t;              (* [e.target.files?.[0]] *)
  API_KEY : option string;           (* [process.env.API_KEY] *)
  arrayBuffer : promise unit;        (* [file.arrayBuffer()] *)
  extractRawText : promise string;   (* [mammoth.extractRawText(...)], its [value] *)
  fileToBase64 : promise string;     (* [fileToBase64(file)] *)
  generateContent : promise response_text;
  generateId : nat → string          (* the id made for the n-th entry *)
}.
End UploadEnv.

Definition DOCX_MIME : string :=
  "application/vnd.openxmlformats-officedocument.wordprocessingml.document".
Definition API_KEY_MISSING : string := "API Key is missing!".
Definition STATUS_ANALYSING : string := "جاري تحليل الملف واستخراج البيانات...".
Definition STATUS_READING_WORD : string := "جاري قراءة ملف Word...".
Definition STATUS_EXTRACTED (n : nat) : string :=
  "تم استخراج " +:+ pretty n +:+ " منتج بنجاح!".
Definition STATUS_NOT_FOUND : string := "لم يتم العثور على منتجات في الملف.".
Definition STATUS_ERROR : string := "حدث خطأ أثناء المعالجة.".
Definition NEW_PRODUCT_NAME : string := "منتج جديد".

Definition isWord (file : File.t) : bool :=
  endsWith (File.name file) ".docx" || bool_decide (File.type file = DOCX_MIME).

(** The [image] property of a new product (line 288). *)
Definition keptImage (file : File.t) (base64Data : string) : option string :=
  if negb (isWord file) && truthy base64Data && startsWith (File.type file) "image"
  then Some base64Data
  else None.

(** The object literal of lines 282-289. *)
Definition extractedProduct (gid : string) (image : option string) (p : Extracted.t) : Product.t :=
  {| Product.id := gid;
     Product.code := js_or_undef (Extracted.code p) "N/A";
     Product.name := js_or_undef (Extracted.name p) NEW_PRODUCT_NAME;
     Product.description := js_or_undef (Extracted.description p) "";
     Product.price := js_or_undef (Extracted.price p) (lit 0);
     Product.image := image |}.

Definition setUploadStatus (msg : string) : proc (Inventory.t * Browser.t) unit :=
  modify (λ sb, (Inventory.setUploadStatus msg sb.1, sb.2)).

(** The first half of the [try] block (lines 216-246): the file is read,
    and [base64Data] holds its data URL unless it is a Word document. *)
Definition upload_read (env : UploadEnv.t) (file : File.t)
  : proc (Inventory.t * Browser.t) string :=
  if isWord file then
    setUploadStatus STATUS_READING_WORD;;
    do _ <- await (UploadEnv.arrayBuffer env);
    do textContent <- await (UploadEnv.extractRawText env);
    if truthy textContent then proc_ret "" else throw
  else
    await (UploadEnv.fileToBase64 env).

(** The second half (lines 248-296): the call and what is made of its
    answer. [products] is the catalog that the handler closed over. *)
Definition upload_respond (env : UploadEnv.t) (file : File.t) (products : list Product.t)
    (base64Data : string)
  : proc (Inventory.t * Browser.t) unit :=
  do text <- await (UploadEnv.generateContent env);
  match text with
  | NoText => proc_ret tt
  | Malformed => throw
  | Json DataNull => throw
  | Json NoProducts => setUploadStatus STATUS_NOT_FOUND
  | Json (Products entries) =>
      do newItems <-
        map_throwing
          (λ i p, match p with
                  | Some p => proc_ret (extractedProduct (UploadEnv.generateId env i)
                                          (keptImage file base64Data) p)
                  | None => throw
                  end)
          0 entries;
      modify (saveProducts (products ++ newItems));;
      setUploadStatus (STATUS_EXTRACTED (length newItems))
  end.

Definition upload_try (env : UploadEnv.t) (file : File.t) (products : list Product.t)
  : proc (Inventory.t * Browser.t) unit :=
  do base64Data <- upload_read env file;
  upload_respond env file products base64Data.

(** [handleFileUpload] (lines 203-305), run with nothing else happening
    on the page between its call and its last step; see
    [handleFileUpload_during] for the handler with other handlers running
    in its two waits. The timer of the [finally] block, which clears the
    status three seconds later, is not part of the state. *)
Definition handleFileUpload (env : UploadEnv.t) (sb : Inventory.t * Browser.t)
  : Inventory.t * Browser.t :=
  match UploadEnv.file env with
  | None => sb
  | Some file =>
      if negb (truthy (UploadEnv.API_KEY env))
      then (sb.1, Browser.alert API_KEY_MISSING sb.2)
      else
        try_catch_finally
          (upload_try env file (Inventory.products sb.1))
          (λ sb', (Inventory.setUploadStatus STATUS_ERROR sb'.1, sb'.2))
          (λ sb', (Inventory.setIsUploading false sb'.1, sb'.2))
          (Inventory.setUploadStatus STATUS_ANALYSING (Inventory.setIsUploading true sb.1), sb.2)
  end.

(** The handler is [async]: between its call and its last step the page
    goes on, and other handlers run while the file is read and while the
    service is called. [during_read] and [during_call] are what they do
    to the state in these two waits. The handler itself still holds the
    [products] of the render it was called in, and [saveProducts] writes
    from that list. *)
Definition upload_read_during
    (during_read : Inventory.t * Browser.t → Inventory.t * Browser.t)
    (env : UploadEnv.t) (file : File.t)
  : proc (Inventory.t * Browser.t) string :=
  if isWord file then
    setUploadStatus STATUS_READING_WORD;;
    modify during_read;;
    do _ <- await (UploadEnv.arrayBuffer env);
    do textContent <- await (UploadEnv.extractRawText env);
    if truthy textContent then proc_ret "" else throw
  else
    modify during_read;;
    await (UploadEnv.fileToBase64 env).

Definition upload_try_during
    (during_read during_call : Inventory.t * Browser.t → Inventory.t * Browser.t)
    (env : UploadEnv.t) (file : File.t) (products : list Product.t)
  : proc (Inventory.t * Browser.t) unit :=
  do base64Data <- upload_read_during during_read env file;
  modify during_call;;
  upload_respond env file products base64Data.

Definition handleFileUpload_during
    (during_read during_call : Inventory.t * Browser.t → Inventory.t * Browser.t)
    (env : UploadEnv.t) (sb : Inventory.t * Browser.t)
  : Inventory.t * Browser.t :=
  match UploadEnv.file env with
  | None => sb
  | Some file =>
      if negb (truthy (UploadEnv.API_KEY env))
      then (sb.1, Browser.alert API_KEY_MISSING sb.2)
      else
        try_catch_finally
          (upload_try_during during_read during_call env file (Inventory.products sb.1))
          (λ sb', (Inventory.setUploadStatus STATUS_ERROR sb'.1, sb'.2))
          (λ sb', (Inventory.setIsUploading false sb'.1, sb'.2))
          (Inventory.setUploadStatus STATUS_ANALYSING (Inventory.setIsUploading true sb.1), sb.2)
  end.

(* ===================================================================== *)
(** * 3. Settings view, backup and restore (lines 462-781) *)
(* ===================================================================== *)

(** The initial state of [useState<AppSettings>] (lines 463-469 and
    801-807). *)
Definition INITIAL_SETTINGS : AppSettings.t :=
  AppSettings.mk "" (lit 0) DEFAULT_COLOR true DEFAULT_TABLE_CONFIG.

(** The [tableConfig] property of the object below (lines 491 and 827):
    [parsed.tableConfig ? { ...DEFAULT_TABLE_CONFIG, ...parsed.tableConfig }
                        : DEFAULT_TABLE_CONFIG]. *)
Definition loaded_tableConfig (stored : option value) : value :=
  match stored with
  | Some tc =>
      if truthy tc
      then VObj (obj_assign (obj_assign [] (own_props (TableConfig_toJSON DEFAULT_TABLE_CONFIG)))
                   (own_props tc))
      else TableConfig_toJSON DEFAULT_TABLE_CONFIG
  | None => TableConfig_toJSON DEFAULT_TABLE_CONFIG
  end.

(** The object that the mount effect passes to [setSettings] for the
    parsed record (lines 487-492 and 823-828). [parsed] is of type [any]:
    the result is whatever object the literal builds, and [None] is the
    [TypeError] of reading a property of [null]. *)
Definition loadSettings (parsed : value) : option object :=
  themeColor ← get_prop parsed "themeColor";
  showImageColumn ← get_prop parsed "showImageColumn";
  tableConfig ← get_prop parsed "tableConfig";
  Some
    (obj_set "tableConfig" (loaded_tableConfig tableConfig)
    (obj_set "showImageColumn"
       (match showImageColumn with
        | Some v => v
        | None => VBool true
        end)
    (obj_set "themeColor" (js_or_undef themeColor (VStr DEFAULT_COLOR))
    (obj_assign [] (own_props parsed))))).

(** The settings a component holds after its mount effect: the stored
    record merged as above, or the initial state when nothing is stored. *)
Definition mountedSettings (ls : storage) : option object :=
  match getItem "appSettings" ls with
  | Some parsed => loadSettings parsed
  | None => Some (own_props (AppSettings_toJSON INITIAL_SETTINGS))
  end.

(** [handleSave] of the settings view. *)
Definition handleSave (settings : AppSettings.t) (b : Browser.t) : Browser.t :=
  Browser.write "appSettings" (AppSettings_toJSON settings) b.

(** [handleBackup]: the value whose pretty-printed text is downloaded. *)
Definition handleBackup (b : Browser.t) : value :=
  let ls := Browser.localStorage b in
  VObj [("products", default (VArr []) (getItem "products" ls));
        ("drafts", default (VArr []) (getItem "invoiceDrafts" ls));
        ("settings", default (VObj []) (getItem "appSettings" ls))].

(** The text of the file chosen for a restore. *)
Inductive file_text : Type :=
| NotJson                    (* [JSON.parse] throws *)
| JsonText (data : value).

Definition RESTORE_DONE : string := "تم استعادة البيانات بنجاح! سيتم تحديث الصفحة.".
Definition RESTORE_FAILED : string :=
  "حدث خطأ أثناء قراءة ملف النسخة الاحتياطية. تأكد من صحة الملف.".

(** [if (data.field) localStorage.setItem(key, JSON.stringify(data.field))] *)
Definition restore_record (data : value) (field key : string) : proc Browser.t unit :=
  match get_prop data field with
  | None => throw
  | Some None => proc_ret tt
  | Some (Some v) => if truthy v then modify (Browser.write key v) else proc_ret tt
  end.

(** The [try] block of [reader.onload] (lines 534-540). *)
Definition restore_try (text : file_text) : proc Browser.t unit :=
  match text with
  | NotJson => throw
  | JsonText data =>
      restore_record data "products" "products";;
      restore_record data "drafts" "invoiceDrafts";;
      restore_record data "settings" "appSettings";;
      modify (Browser.alert RESTORE_DONE)
  end.

(** [handleRestore]; [file] is [None] when no file was chosen. The
    reload that follows a successful restore is not part of the state. *)
Definition handleRestore (file : option file_text) (b : Browser.t) : Browser.t :=
  match file with
  | None => b
  | Some text =>
      try_catch_finally (restore_try text) (Browser.alert RESTORE_FAILED) (λ b', b') b
  end.

(* ===================================================================== *)
(** * Definitions used to state the properties *)
(* ===================================================================== *)

(** "sum(price x qty) over items" *)
Fixpoint sum_price_qty (items : list InvoiceItem.t) : number :=
  match items with
  | [] => lit 0
  | item :: rest =>
      nadd (nmul (InvoiceItem.price item) (InvoiceItem.qty item)) (sum_price_qty rest)
  end.

(** "image/item/price/qty/total widths summing to W" *)
Definition sum_widths (widths : list number) : number := foldr nadd (lit 0) widths.

Definition all_columns_width (c : TableConfig.t) : number :=
  sum_widths [TableConfig.imageWidth c; TableConfig.itemWidth c; TableConfig.priceWidth c;
              TableConfig.qtyWidth c; TableConfig.totalWidth c].

(** "upserts into the drafts collection keyed by id": the drafts filed
    under an id. *)
Definition filed_under (i : string) (d : InvoiceData.t) : Prop :=
  InvoiceData.id d = Some i.

(** "the three storage keys" and the default that [handleBackup] writes
    for each when the record is absent. *)
Definition record_keys : list string := ["products"; "invoiceDrafts"; "appSettings"].

Definition record_default (key : string) : value :=
  if decide (key = "appSettings") then VObj [] else VArr [].

(** What a record of the store [ls] is after its backup file has been
    restored over the store [target]. *)
Definition restored_record (ls target : storage) (key : string) : option value :=
  match ls !! key with
  | Some v => if truthy v then Some v else target !! key
  | None => Some (record_default key)
  end.

(** "encodes the file": the data URL that the read leaves in
    [base64Data] when every step of it succeeds; it stays empty for a
    Word document, whose text is extracted instead. *)
Inductive file_read (env : UploadEnv.t) (file : File.t) : string → Prop :=
| read_word (textContent : string) :
    isWord file = true →
    UploadEnv.arrayBuffer env = Fulfilled tt →
    UploadEnv.extractRawText env = Fulfilled textContent →
    truthy textContent = true →
    file_read env file ""
| read_other (base64Data : string) :
    isWord file = false →
    UploadEnv.fileToBase64 env = Fulfilled base64Data →
    file_read env file base64Data.

(** "the upload was itself an image" *)
Definition image_upload (file : File.t) : Prop :=
  isWord file = false ∧ startsWith (File.type file) "image" = true.

(** "any step fails (file read, text extraction, API call, response
    parse)" *)
Inductive upload_failure (env : UploadEnv.t) (file : File.t) : Prop :=
| read_fails_word :
    isWord file = true → UploadEnv.arrayBuffer env = Rejected →
    upload_failure env file
| read_fails_other :
    isWord file = false → UploadEnv.fileToBase64 env = Rejected →
    upload_failure env file
| extraction_fails :
    isWord file = true → UploadEnv.extractRawText env = Rejected →
    upload_failure env file
| extraction_empty (textContent : string) :
    isWord file = true → UploadEnv.extractRawText env = Fulfilled textContent →
    truthy textContent = false →
    upload_failure env file
| call_fails :
    UploadEnv.generateContent env = Rejected →
    upload_failure env file
| parse_fails :
    UploadEnv.generateContent env = Fulfilled Malformed →
    upload_failure env file
| parse_null :
    UploadEnv.generateContent env = Fulfilled (Json DataNull) →
    upload_failure env file
| parse_null_entry (entries : list (option Extracted.t)) :
    UploadEnv.generateContent env = Fulfilled (Json (Products entries)) →
    None ∈ entries →
    upload_failure env file.

(** "the whole batch": the products made of the entries of a response,
    in their order. *)
Definition extractedProducts (env : UploadEnv.t) (file : File.t) (base64Data : string)
    (objects : list Extracted.t) : list Product.t :=
  imap (λ i, extractedProduct (UploadEnv.generateId env i) (keptImage file base64Data)) objects.

(** Nothing but the progress flags of the inventory differs. *)
Definition catalog_untouched (sb sb' : Inventory.t * Browser.t) : Prop :=
  sb'.2 = sb.2 ∧
  Inventory.products sb'.1 = Inventory.products sb.1 ∧
  Inventory.editingProduct sb'.1 = Inventory.editingProduct sb.1.


(* ===================================================================== *)
(** * The rest of the invoice editor *)
(* ===================================================================== *)

(** The quantity buttons of a row (lines 1257 and 1273); [item] is the
    row as rendered. *)
Definition onQtyMinus (item : InvoiceItem.t) (s : Editor.t) : Editor.t :=
  updateItem (InvoiceItem.id item)
    (InvoiceItem.Qty (Math_max (lit 0) (nsub (InvoiceItem.qty item) (lit 1)))) s.

Definition onQtyPlus (item : InvoiceItem.t) (s : Editor.t) : Editor.t :=
  updateItem (InvoiceItem.id item)
    (InvoiceItem.Qty (nadd (InvoiceItem.qty item) (lit 1))) s.

(** [handleDeleteDraft] (lines 960-967). The caller passes [draft.id!],
    which is [undefined] for a draft without id. *)
Definition handleDeleteDraft (id : option string) (confirmed : bool)
    (sb : Editor.t * Browser.t) : Editor.t * Browser.t :=
  if confirmed then
    let updated := filter (λ d, InvoiceData.id d ≠ id) (Editor.savedDrafts sb.1) in
    (Editor.setSavedDrafts updated sb.1,
     Browser.write "invoiceDrafts" (VArr (InvoiceData_toJSON <$> updated)) sb.2)
  else sb.

(** The total shown on the card of a draft (line 1087). *)
Definition draftPreviewTotal (draft : InvoiceData.t) : number :=
  fold_left (λ acc i, nadd acc (nmul (InvoiceItem.price i) (InvoiceItem.qty i)))
    (InvoiceData.items draft) (lit 0).

(** The state of the editor that the settled handlers do not use: the
    catalog it loaded, the search result, the drafts dialog and the row
    whose image is being chosen. *)
Module EditorUI.
Record t : Type := mk {
  core : Editor.t;
  inventory : list Product.t;
  filteredInventory : list Product.t;
  showDrafts : bool;
  activeRowId : option string
}.

Definition setCore (f : Editor.t → Editor.t) (u : t) : t :=
  mk (f (core u)) (inventory u) (filteredInventory u) (showDrafts u) (activeRowId u).

Definition setFilteredInventory (l : list Product.t) (u : t) : t :=
  mk (core u) (inventory u) l (showDrafts u) (activeRowId u).

Definition setShowDrafts (b : bool) (u : t) : t :=
  mk (core u) (inventory u) (filteredInventory u) b (activeRowId u).

Definition setActiveRowId (r : option string) (u : t) : t :=
  mk (core u) (inventory u) (filteredInventory u) (showDrafts u) r.
End EditorUI.

(** [handleLoadDraft] (lines 953-958). *)
Definition handleLoadDraft (draft : InvoiceData.t) (confirmed : bool) (u : EditorUI.t)
  : EditorUI.t :=
  if confirmed
  then EditorUI.setShowDrafts false (EditorUI.setCore (Editor.setData (λ _, draft)) u)
  else u.

(** [s.includes(q)] *)
Fixpoint includes (s q : string) : bool :=
  String.prefix q s ||
  match s with
  | EmptyString => false
  | String _ s' => includes s' q
  end.

(** The search effect (lines 839-849). [toLowerCase] is the platform's. *)
Definition searchEffect (toLowerCase : string → string) (u : EditorUI.t) : EditorUI.t :=
  let searchQuery := Editor.searchQuery (EditorUI.core u) in
  if negb (truthy searchQuery) then
    EditorUI.setFilteredInventory (EditorUI.inventory u) u
  else
    let q := toLowerCase searchQuery in
    EditorUI.setFilteredInventory
      (filter (λ p, includes (toLowerCase (Product.name p)) q
                    || includes (toLowerCase (Product.code p)) q = true)
         (EditorUI.inventory u))
      u.

(** [handleRowImageClick] and [handleRowImageChange] (lines 881-894).
    [file] is what reading the chosen file gives, [None] when no file
    was chosen; a read that fails leaves an unhandled rejection and the
    state as it was. *)
Definition handleRowImageClick (itemId : string) (u : EditorUI.t) : EditorUI.t :=
  EditorUI.setActiveRowId (Some itemId) u.

Definition handleRowImageChange (file : option (promise string)) (u : EditorUI.t) : EditorUI.t :=
  match file with
  | Some read =>
      if truthy (EditorUI.activeRowId u) then
        match read with
        | Fulfilled base64 =>
            EditorUI.setActiveRowId None
              (EditorUI.setCore
                 (updateItem (default "" (EditorUI.activeRowId u))
                    (InvoiceItem.Image (Some base64)))
                 u)
        | Rejected => u
        end
      else u
  | None => u
  end.

(** What the user can do to the lines of the invoice, one constructor
    per call site of [addItem], [updateItem] and [removeItem] in the
    rendered page; a quantity button is named by the row it stands in. *)
Inductive line_event : Type :=
| AddBlankRow (gid : string)                    (* line 1112 *)
| PickProduct (gid : string) (p : Product.t)    (* line 1027 *)
| TypeItemCode (id text : string)               (* line 1224 *)
| TypeDescription (id text : string)            (* line 1235 *)
| TypePrice (id text : string)                  (* line 1247 *)
| TypeQty (id text : string)                    (* line 1266 *)
| ClickMinus (row : nat)                        (* line 1257 *)
| ClickPlus (row : nat)                         (* line 1273 *)
| ClickRemove (row : nat)                       (* line 1197 *)
| ChooseRowImage (id base64 : string).          (* line 890 *)

Definition on_row (row : nat) (f : InvoiceItem.t → Editor.t → Editor.t) (s : Editor.t)
  : Editor.t :=
  match InvoiceData.items (Editor.data s) !! row with
  | Some item => f item s
  | None => s
  end.

Definition line_step (parseFloat : string → number) (s : Editor.t) (ev : line_event)
  : Editor.t :=
  match ev with
  | AddBlankRow gid => addItem gid None s
  | PickProduct gid p => addItem gid (Some p) s
  | TypeItemCode id text => updateItem id (InvoiceItem.ItemCode text) s
  | TypeDescription id text => updateItem id (InvoiceItem.Description text) s
  | TypePrice id text => onPriceChange parseFloat id text s
  | TypeQty id text => onQtyChange parseFloat id text s
  | ClickMinus row => on_row row onQtyMinus s
  | ClickPlus row => on_row row onQtyPlus s
  | ClickRemove row => on_row row (λ item, removeItem (InvoiceItem.id item)) s
  | ChooseRowImage id base64 => updateItem id (InvoiceItem.Image (Some base64)) s
  end.

Definition line_steps (parseFloat : string → number) (evs : list line_event) (s : Editor.t)
  : Editor.t :=
  fold_left (line_step parseFloat) evs s.

(** [hexToRgb] (lines 970-973): the regular expression
    [/^#?([a-f\d]{2})([a-f\d]{2})([a-f\d]{2})$/i] and [parseInt(_, 16)] of
    its three groups. *)
Definition hex_digit (c : Ascii.ascii) : option N :=
  let n := Ascii.N_of_ascii c in
  if (48 <=? n)%N && (n <=? 57)%N then Some (n - 48)%N
  else if (97 <=? n)%N && (n <=? 102)%N then Some (n - 87)%N
  else if (65 <=? n)%N && (n <=? 70)%N then Some (n - 55)%N
  else None.

Definition hex_pair (a b : Ascii.ascii) : option N :=
  h ← hex_digit a; l ← hex_digit b; Some (16 * h + l)%N.

Definition hex_groups (hex : string) : option (N * N * N) :=
  let body := match hex with
              | String c rest => if decide (c = Ascii.ascii_of_nat 35) then rest else hex
              | EmptyString => hex
              end in
  match String.list_ascii_of_string body with
  | [r1; r2; g1; g2; b1; b2] =>
      r ← hex_pair r1 r2; g ← hex_pair g1 g2; b ← hex_pair b1 b2; Some (r, g, b)
  | _ => None
  end.

Definition rgb_text (rgb : N * N * N) : string :=
  pretty rgb.1.1 +:+ ", " +:+ pretty rgb.1.2 +:+ ", " +:+ pretty rgb.2.

Definition hexToRgb (hex : string) : string :=
  match hex_groups hex with
  | Some rgb => rgb_text rgb
  | None => "59, 130, 246"
  end.

(** [accentLight] (line 976). *)
Definition accentLight (settings : AppSettings.t) : string :=
  "rgba(" +:+ hexToRgb (AppSettings.themeColor settings) +:+ ", 0.1)".

(* ===================================================================== *)
(** * The rest of the inventory *)
(* ===================================================================== *)

(** The text inputs and the image input of the edit modal (lines 195-201,
    345, 363 and 371), and its opening and closing (lines 418, 315 and
    377). *)
Inductive edit_event : Type :=
| OpenEdit (product : Product.t)
| TypeCode (text : string)
| TypeName (text : string)
| TypeProductDescription (text : string)
| TypeProductPrice (text : string)
| ChooseProductImage (base64 : string)
| CancelEdit.

Definition edit_step (parseFloat : string → number) (s : Inventory.t) (ev : edit_event)
  : Inventory.t :=
  match ev, Inventory.editingProduct s with
  | OpenEdit product, _ => Inventory.setEditingProduct (Some product) s
  | CancelEdit, _ => Inventory.setEditingProduct None s
  | TypeProductPrice text, _ => onEditPriceChange parseFloat text s
  | TypeCode text, Some p =>
      Inventory.setEditingProduct
        (Some (Product.mk (Product.id p) text (Product.name p) (Product.description p)
                 (Product.price p) (Product.image p))) s
  | TypeName text, Some p =>
      Inventory.setEditingProduct
        (Some (Product.mk (Product.id p) (Product.code p) text (Product.description p)
                 (Product.price p) (Product.image p))) s
  | TypeProductDescription text, Some p =>
      Inventory.setEditingProduct
        (Some (Product.mk (Product.id p) (Product.code p) (Product.name p) text
                 (Product.price p) (Product.image p))) s
  | ChooseProductImage base64, Some p =>
      Inventory.setEditingProduct
        (Some (Product.mk (Product.id p) (Product.code p) (Product.name p)
                 (Product.description p) (Product.price p) (Some base64))) s
  | _, None => s
  end.

(** What the user can do on the inventory page. *)
Inductive inventory_event : Type :=
| Edit (ev : edit_event)
| SaveEdit
| Delete (id : string) (confirmed : bool)
| Upload (env : UploadEnv.t).

Definition inventory_step (parseFloat : string → number) (sb : Inventory.t * Browser.t)
    (ev : inventory_event) : Inventory.t * Browser.t :=
  match ev with
  | Edit ev => (edit_step parseFloat sb.1 ev, sb.2)
  | SaveEdit => handleEditSave sb
  | Delete id confirmed => handleDelete id confirmed sb
  | Upload env => handleFileUpload env sb
  end.

Definition inventory_steps (parseFloat : string → number) (evs : list inventory_event)
    (sb : Inventory.t * Browser.t) : Inventory.t * Browser.t :=
  fold_left (inventory_step parseFloat) evs sb.

(** The characters that [[a-f\d]] matches when case is ignored, each
    with its value as a hexadecimal digit. *)
Definition hex_table : list (Ascii.ascii * N) :=
  zip (String.list_ascii_of_string "0123456789abcdefABCDEF")
      [0; 1; 2; 3; 4; 5; 6; 7; 8; 9; 10; 11; 12; 13; 14; 15; 10; 11; 12; 13; 14; 15]%N.

Definition is_hex (c : Ascii.ascii) (v : N) : Prop := (c, v) ∈ hex_table.

(** Six characters as a text. *)
Definition six (c1 c2 c3 c4 c5 c6 : Ascii.ascii) : string :=
  String c1 (String c2 (String c3 (String c4 (String c5 (String c6 ""))))).

(** What runs while the upload waits leaves the catalog alone. *)
Definition catalog_kept (f : Inventory.t * Browser.t → Inventory.t * Browser.t) : Prop :=
  ∀ st, Inventory.products (f st).1 = Inventory.products st.1.

(** The catalog in memory is what the [products] record holds; before
    the first write, nothing is stored and the catalog is empty. *)
Definition catalog_synced (sb : Inventory.t * Browser.t) : Prop :=
  Browser.localStorage sb.2 !! "products"
    = Some (VArr (Product_toJSON <$> Inventory.products sb.1)) ∨
  (Browser.localStorage sb.2 !! "products" = None ∧ Inventory.products sb.1 = []).


(** What one line of the restore does to the browser when the parsed
    file is not [null]: the record is written when the file has the field
    and its value is truthy. *)
Definition restore_field (data : value) (field key : string) (b : Browser.t) : Browser.t :=
  match get_prop data field with
  | Some (Some v) => if truthy v then Browser.write key v b else b
  | _ => b
  end.

(** [{ ...settings, themeColor: c }] *)
Definition with_themeColor (c : string) (s : AppSettings.t) : AppSettings.t :=
  AppSettings.mk (AppSettings.companyLogo s) (AppSettings.taxRate s) c
    (AppSettings.showImageColumn s) (AppSettings.tableConfig s).

(** The ids of the rows, and the catalog products they were picked
    from, in the order of the table. *)
Definition row_ids (s : Editor.t) : list string :=
  InvoiceItem.id <$> InvoiceData.items (Editor.data s).

Definition row_products (s : Editor.t) : list (option string) :=
  InvoiceItem.productId <$> InvoiceData.items (Editor.data s).

(** The events that neither add nor remove a row. *)
Definition row_edit (ev : line_event) : Prop :=
  match ev with
  | AddBlankRow _ | PickProduct _ _ | ClickRemove _ => False
  | _ => True
  end.

(** What the user can do on the invoice page, as far as the document
    and the drafts go. *)
Inductive editor_event : Type :=
| Line (ev : line_event)
| SaveDraft (gid now : string)
| LoadDraft (draft : InvoiceData.t) (confirmed : bool)
| DeleteDraft (id : option string) (confirmed : bool)
| ClickRowImage (itemId : string)
| ChooseRowFile (file : option (promise string)).

Definition editor_step (parseFloat : string → number) (ub : EditorUI.t * Browser.t)
    (ev : editor_event) : EditorUI.t * Browser.t :=
  match ev with
  | Line ev => (EditorUI.setCore (λ s, line_step parseFloat s ev) ub.1, ub.2)
  | SaveDraft gid now =>
      let sb := handleSaveDraft gid now (EditorUI.core ub.1, ub.2) in
      (EditorUI.setCore (λ _, sb.1) ub.1, sb.2)
  | LoadDraft draft confirmed => (handleLoadDraft draft confirmed ub.1, ub.2)
  | DeleteDraft id confirmed =>
      let sb := handleDeleteDraft id confirmed (EditorUI.core ub.1, ub.2) in
      (EditorUI.setCore (λ _, sb.1) ub.1, sb.2)
  | ClickRowImage itemId => (handleRowImageClick itemId ub.1, ub.2)
  | ChooseRowFile file => (handleRowImageChange file ub.1, ub.2)
  end.

Definition editor_steps (parseFloat : string → number) (evs : list editor_event)
    (ub : EditorUI.t * Browser.t) : EditorUI.t * Browser.t :=
  fold_left (editor_step parseFloat) evs ub.

(** The ids under which the drafts are filed. *)
Definition draft_ids (u : EditorUI.t) : list (option string) :=
  InvoiceData.id <$> Editor.savedDrafts (EditorUI.core u).

(** Every draft has an id, no two drafts share one, and the list in
    memory is what the [invoiceDrafts] record holds (nothing, before the
    first write of an empty list). *)
Definition drafts_filed (ub : EditorUI.t * Browser.t) : Prop :=
  Forall is_Some (draft_ids ub.1) ∧
  NoDup (draft_ids ub.1) ∧
  (Browser.localStorage ub.2 !! "invoiceDrafts"
     = Some (VArr (InvoiceData_toJSON <$> Editor.savedDrafts (EditorUI.core ub.1))) ∨
   (Browser.localStorage ub.2 !! "invoiceDrafts" = None ∧
    Editor.savedDrafts (EditorUI.core ub.1) = [])).

(** The events of the edit modal that type into it or choose its image. *)
Definition typing (ev : edit_event) : Prop :=
  match ev with
  | OpenEdit _ | CancelEdit => False
  | _ => True
  end.

(** The patches that do not touch a number. *)
Definition text_patch (u : InvoiceItem.patch) : Prop :=
  match u with
  | InvoiceItem.Price _ | InvoiceItem.Qty _ => False
  | _ => True
  end.

(* ===================================================================== *)
(** * The arithmetic of the invoice in IEEE 754 doubles *)
(* ===================================================================== *)

(** A JavaScript number is a binary64 floating-point value: every
    operation rounds to nearest, ties to even, a result that is too
    large is an infinity, and [NaN] comes out of [Infinity * 0] and
    [Infinity - Infinity]. The kernel's primitive [float] is that type,
    with one [NaN]. The totals of the invoice, the quantity buttons and
    the four numeric inputs are embedded a second time over it, with the
    interfaces they compute on, for the properties that depend on
    rounding, on overflow or on the infinities. *)
Module IEEE.

Definition double : Type := float.
Bind Scope float_scope with double.

(** [NaN], [0] and [-0] are falsy. *)
#[global] Instance double_truthy : Truthy double := λ x,
  negb (is_nan x || is_zero x).

(** [Math.max(a, b)]: [NaN] as soon as one argument is, and [+0] is
    larger than [-0]. *)
Definition Math_max (a b : double) : double :=
  if is_nan a || is_nan b then nan
  else if (a <? b)%float then b
  else if (b <? a)%float then a
  else match classify a with
       | NZero => b
       | _ => a
       end.

Module Product.
Record t : Type := mk {
  id : string;
  code : string;
  name : string;
  description : string;
  price : double;
  image : option string
}.

(** [{ ...p, price: v }] *)
Definition with_price (v : double) (p : t) : t :=
  mk (id p) (code p) (name p) (description p) v (image p).
End Product.

Module InvoiceItem.
Record t : Type := mk {
  id : string;
  productId : option string;
  description : string;
  itemCode : string;
  price : double;
  qty : double;
  image : option string
}.

(** One [field, value] pair as [updateItem] receives it. *)
Inductive patch : Type :=
| Id (v : string)
| ProductId (v : option string)
| Description (v : string)
| ItemCode (v : string)
| Price (v : double)
| Qty (v : double)
| Image (v : option string).

(** [{ ...item, [field]: value }] *)
Definition set (u : patch) (item : t) : t :=
  match u with
  | Id v => mk v (productId item) (description item) (itemCode item) (price item) (qty item) (image item)
  | ProductId v => mk (id item) v (description item) (itemCode item) (price item) (qty item) (image item)
  | Description v => mk (id item) (productId item) v (itemCode item) (price item) (qty item) (image item)
  | ItemCode v => mk (id item) (productId item) (description item) v (price item) (qty item) (image item)
  | Price v => mk (id item) (productId item) (description item) (itemCode item) v (qty item) (image item)
  | Qty v => mk (id item) (productId item) (description item) (itemCode item) (price item) v (image item)
  | Image v => mk (id item) (productId item) (description item) (itemCode item) (price item) (qty item) v
  end.
End InvoiceItem.

Module InvoiceData.
Record t : Type := mk {
  id : option string;
  customerName : string;
  reference : string;
  date : string;
  items : list InvoiceItem.t;
  footerNote : string;
  savedAt : option string
}.

(** [{ ...prev, items: l }] *)
Definition with_items (l : list InvoiceItem.t) (d : t) : t :=
  mk (id d) (customerName d) (reference d) (date d) l (footerNote d) (savedAt d).
End InvoiceData.

Module TableConfig.
Record t : Type := mk {
  imageWidth : double;
  itemWidth : double;
  priceWidth : double;
  qtyWidth : double;
  totalWidth : double;
  rowPadding : double;
  fontSize : double
}.
End TableConfig.

Module AppSettings.
Record t : Type := mk {
  companyLogo : string;
  taxRate : double;
  themeColor : string;
  showImageColumn : bool;
  tableConfig : TableConfig.t
}.

(** [{ ...settings, taxRate: v }] *)
Definition with_taxRate (v : double) (s : t) : t :=
  mk (companyLogo s) v (themeColor s) (showImageColumn s) (tableConfig s).
End AppSettings.

(** The state of [InvoiceEditor] that the item handlers read and write. *)
Module Editor.
Record t : Type := mk {
  data : InvoiceData.t;
  settings : AppSettings.t;
  showProductPicker : bool;
  searchQuery : string
}.

(** [setData(f)] *)
Definition setData (f : InvoiceData.t → InvoiceData.t) (s : t) : t :=
  mk (f (data s)) (settings s) (showProductPicker s) (searchQuery s).

Definition setShowProductPicker (b : bool) (s : t) : t :=
  mk (data s) (settings s) b (searchQuery s).

Definition setSearchQuery (q : string) (s : t) : t :=
  mk (data s) (settings s) (showProductPicker s) q.
End Editor.

(** The object literal of [addItem] (lines 856-864). *)
Definition newItem (gid : string) (product : option Product.t) : InvoiceItem.t :=
  {| InvoiceItem.id := gid;
     InvoiceItem.productId := Product.id <$> product;
     InvoiceItem.itemCode := js_or_undef (Product.code <$> product) "";
     InvoiceItem.description :=
       match product with
       | Some p => Product.name p +:+ " - " +:+ Product.description p
       | None => ""
       end;
     InvoiceItem.price := js_or_undef (Product.price <$> product) 0%float;
     InvoiceItem.qty := 1%float;
     InvoiceItem.image := product ≫= Product.image |}.

Definition addItem (gid : string) (product : option Product.t) (s : Editor.t) : Editor.t :=
  Editor.setSearchQuery ""
    (Editor.setShowProductPicker false
      (Editor.setData
        (λ prev, InvoiceData.with_items (InvoiceData.items prev ++ [newItem gid product]) prev)
        s)).

Definition updateItem (id : string) (u : InvoiceItem.patch) (s : Editor.t) : Editor.t :=
  Editor.setData
    (λ prev, InvoiceData.with_items
       ((λ item, if decide (InvoiceItem.id item = id) then InvoiceItem.set u item else item)
          <$> InvoiceData.items prev)
       prev)
    s.

Definition removeItem (id : string) (s : Editor.t) : Editor.t :=
  Editor.setData
    (λ prev, InvoiceData.with_items
       (filter (λ i, InvoiceItem.id i ≠ id) (InvoiceData.items prev)) prev)
    s.

Inductive item_op : Type :=
| AddItem (gid : string) (product : option Product.t)
| UpdateItem (id : string) (u : InvoiceItem.patch)
| RemoveItem (id : string).

Definition apply_op (s : Editor.t) (op : item_op) : Editor.t :=
  match op with
  | AddItem gid product => addItem gid product s
  | UpdateItem id u => updateItem id u s
  | RemoveItem id => removeItem id s
  end.

Definition apply_ops (ops : list item_op) (s : Editor.t) : Editor.t :=
  fold_left apply_op ops s.

(** [calculateSubtotal] (lines 896-898). *)
Definition calculateSubtotal (s : Editor.t) : double :=
  fold_left (λ acc item, acc + InvoiceItem.price item * InvoiceItem.qty item)%float
    (InvoiceData.items (Editor.data s)) 0%float.

(** [calculateTotal] (lines 900-904). *)
Definition calculateTotal (s : Editor.t) : double :=
  let subtotal := calculateSubtotal s in
  let taxAmount := (subtotal * (AppSettings.taxRate (Editor.settings s) / 100))%float in
  (subtotal + taxAmount)%float.

(** The tax line of the total bubble (line 1329):
    [calculateSubtotal() * settings.taxRate / 100]. *)
Definition displayedTax (s : Editor.t) : double :=
  (calculateSubtotal s * AppSettings.taxRate (Editor.settings s) / 100)%float.

(** The [onChange] handlers of the four numeric inputs (lines 1247,
    1266, 633 and 354); [text] is [e.target.value] and [parseFloat] is
    the platform's, which may answer any number, [NaN] and the
    infinities included. *)
Definition onPriceChange (parseFloat : string → double) (id text : string) (s : Editor.t)
  : Editor.t :=
  updateItem id (InvoiceItem.Price (js_or (parseFloat text) 0%float)) s.

Definition onQtyChange (parseFloat : string → double) (id text : string) (s : Editor.t)
  : Editor.t :=
  updateItem id (InvoiceItem.Qty (js_or (parseFloat text) 0%float)) s.

Definition onTaxRateChange (parseFloat : string → double) (text : string)
    (settings : AppSettings.t) : AppSettings.t :=
  AppSettings.with_taxRate (js_or (parseFloat text) 0%float) settings.

(** The price input of the edit modal, which is rendered while
    [editingProduct] is not [null]. *)
Definition onEditPriceChange (parseFloat : string → double) (text : string)
    (editingProduct : option Product.t) : option Product.t :=
  Product.with_price (js_or (parseFloat text) 0%float) <$> editingProduct.

(** The quantity buttons of a row (lines 1257 and 1273). *)
Definition onQtyMinus (item : InvoiceItem.t) (s : Editor.t) : Editor.t :=
  updateItem (InvoiceItem.id item)
    (InvoiceItem.Qty (Math_max 0%float (InvoiceItem.qty item - 1)%float)) s.

Definition onQtyPlus (item : InvoiceItem.t) (s : Editor.t) : Editor.t :=
  updateItem (InvoiceItem.id item) (InvoiceItem.Qty (InvoiceItem.qty item + 1)%float) s.

(** What the user can do to the lines of the invoice, one constructor
    per call site of [addItem], [updateItem] and [removeItem]. *)
Inductive line_event : Type :=
| AddBlankRow (gid : string)
| PickProduct (gid : string) (p : Product.t)
| TypeItemCode (id text : string)
| TypeDescription (id text : string)
| TypePrice (id text : string)
| TypeQty (id text : string)
| ClickMinus (row : nat)
| ClickPlus (row : nat)
| ClickRemove (row : nat)
| ChooseRowImage (id base64 : string).

Definition on_row (row : nat) (f : InvoiceItem.t → Editor.t → Editor.t) (s : Editor.t)
  : Editor.t :=
  match InvoiceData.items (Editor.data s) !! row with
  | Some item => f item s
  | None => s
  end.

Definition line_step (parseFloat : string → double) (s : Editor.t) (ev : line_event)
  : Editor.t :=
  match ev with
  | AddBlankRow gid => addItem gid None s
  | PickProduct gid p => addItem gid (Some p) s
  | TypeItemCode id text => updateItem id (InvoiceItem.ItemCode text) s
  | TypeDescription id text => updateItem id (InvoiceItem.Description text) s
  | TypePrice id text => onPriceChange parseFloat id text s
  | TypeQty id text => onQtyChange parseFloat id text s
  | ClickMinus row => on_row row onQtyMinus s
  | ClickPlus row => on_row row onQtyPlus s
  | ClickRemove row => on_row row (λ item, removeItem (InvoiceItem.id item)) s
  | ChooseRowImage id base64 => updateItem id (InvoiceItem.Image (Some base64)) s
  end.

Definition line_steps (parseFloat : string → double) (evs : list line_event) (s : Editor.t)
  : Editor.t :=
  fold_left (line_step parseFloat) evs s.

(** "sum over items of price*qty", taken as the program adds: the sum
    of the first [n] rows is the sum of the first [n - 1] rows plus the
    product of row [n], each operation rounded. *)
Fixpoint sum_price_qty (n : nat) (items : list InvoiceItem.t) : double :=
  match n with
  | O => 0%float
  | S k =>
      match items !! k with
      | Some item =>
          (sum_price_qty k items + InvoiceItem.price item * InvoiceItem.qty item)%float
      | None => sum_price_qty k items
      end
  end.

(** A number that is not [NaN] and not negative; [+Infinity] is one. *)
Definition nonneg (x : double) : Prop := (0 <=? x)%float = true.

(** A row whose price and quantity are not [NaN]. *)
Definition numeric_line (item : InvoiceItem.t) : Prop :=
  is_nan (InvoiceItem.price item) = false ∧ is_nan (InvoiceItem.qty item) = false.

End IEEE.

(** The shapes of a double on the specification side, for the proofs. *)

(** A zero, a finite number or an infinity of sign [s]. *)
Definition signed (s : bool) (x : spec_float) : Prop :=
  match x with
  | S754_zero s' | S754_infinity s' | S754_finite s' _ _ => s' = s
  | S754_nan => False
  end.

(** Zero or finite. *)
Definition sf_finite (x : spec_float) : Prop :=
  match x with
  | S754_zero _ | S754_finite _ _ _ => True
  | _ => False
  end.

(** Not [NaN] and not below zero. *)
Definition sf_nonneg (x : spec_float) : Prop :=
  match x with
  | S754_zero _ => True
  | S754_infinity s | S754_finite s _ _ => s = false
  | S754_nan => False
  end.

(* ===================================================================== *)
(** * Proofs *)
(* ===================================================================== *)

(** ** Arithmetic of [number] *)

(** Two closed rationals in canonical form are equal when their
    fractions are. *)
Ltac closed_number := vm_compute; f_equal; apply Qc_is_canon; reflexivity.

Lemma Qc_of_Z_0 : Qc_of_Z 0 = 0.
Proof. apply Qc_is_canon. reflexivity. Qed.

Lemma Qc_of_Z_1 : Qc_of_Z 1 = 1.
Proof. apply Qc_is_canon. reflexivity. Qed.

Lemma nadd_comm a b : nadd a b = nadd b a.
Proof. destruct a, b; simpl; try reflexivity. f_equal. ring. Qed.

Lemma nadd_assoc a b c : nadd a (nadd b c) = nadd (nadd a b) c.
Proof. destruct a, b, c; simpl; try reflexivity. f_equal. ring. Qed.

Lemma nadd_0_r a : nadd a (lit 0) = a.
Proof. destruct a; simpl; [reflexivity|]. rewrite Qc_of_Z_0. f_equal. ring. Qed.

Lemma nadd_0_l a : nadd (lit 0) a = a.
Proof. rewrite nadd_comm. apply nadd_0_r. Qed.

(** ** The totals of the invoice editor *)

Lemma fold_left_subtotal (items : list InvoiceItem.t) (acc : number) :
  fold_left (λ acc item, nadd acc (nmul (InvoiceItem.price item) (InvoiceItem.qty item)))
    items acc
  = nadd acc (sum_price_qty items).
Proof.
  revert acc. induction items as [|item rest IH]; intros acc; simpl.
  - symmetry. apply nadd_0_r.
  - rewrite IH. symmetry. apply nadd_assoc.
Qed.

Lemma calculateSubtotal_sum (s : Editor.t) :
  calculateSubtotal s = sum_price_qty (InvoiceData.items (Editor.data s)).
Proof. unfold calculateSubtotal. rewrite fold_left_subtotal. apply nadd_0_l. Qed.

Lemma apply_op_settings (s : Editor.t) (op : item_op) :
  Editor.settings (apply_op s op) = Editor.settings s.
Proof. destruct op; reflexivity. Qed.

Lemma apply_ops_settings (ops : list item_op) (s : Editor.t) :
  Editor.settings (apply_ops ops s) = Editor.settings s.
Proof.
  revert s. induction ops as [|op ops IH]; intros s; [reflexivity|].
  unfold apply_ops in *. simpl. rewrite IH. apply apply_op_settings.
Qed.

(** How each item operation moves the sum of the lines. *)
Lemma sum_price_qty_app (l1 l2 : list InvoiceItem.t) :
  sum_price_qty (l1 ++ l2) = nadd (sum_price_qty l1) (sum_price_qty l2).
Proof.
  induction l1 as [|i l1 IH]; simpl.
  - symmetry. apply nadd_0_l.
  - rewrite IH. apply nadd_assoc.
Qed.

Lemma calculateSubtotal_addItem gid product (s : Editor.t) :
  calculateSubtotal (addItem gid product s)
  = nadd (calculateSubtotal s)
      (nmul (js_or_undef (Product.price <$> product) (lit 0)) (lit 1)).
Proof.
  rewrite !calculateSubtotal_sum. simpl. rewrite sum_price_qty_app. simpl.
  by rewrite nadd_0_r.
Qed.

(** ** Column widths *)

Lemma descriptionWidth_unfold (settings : AppSettings.t) :
  descriptionWidth settings
  = Math_max (lit 10) (nsub (lit 100)
      (nadd (if AppSettings.showImageColumn settings
             then TableConfig.imageWidth (AppSettings.tableConfig settings) else lit 0)
         (sum_widths [TableConfig.itemWidth (AppSettings.tableConfig settings);
                      TableConfig.priceWidth (AppSettings.tableConfig settings);
                      TableConfig.qtyWidth (AppSettings.tableConfig settings);
                      TableConfig.totalWidth (AppSettings.tableConfig settings)]))).
Proof.
  unfold descriptionWidth, usedWidth. cbv zeta. simpl sum_widths.
  rewrite nadd_0_r. by rewrite !nadd_assoc.
Qed.

(** C5, as stated, fails: with the image column hidden, the default
    widths (image 10, item 15, price 15, qty 10, total 10) give a
    description width of 50, and not [max(10, 100 - 60) = 40]. *)
Lemma descriptionWidth_hidden_image_counterexample :
  let settings := AppSettings.mk "" (lit 0) DEFAULT_COLOR false DEFAULT_TABLE_CONFIG in
  descriptionWidth settings = lit 50 ∧
  Math_max (lit 10) (nsub (lit 100) (all_columns_width (AppSettings.tableConfig settings)))
    = lit 40 ∧
  descriptionWidth settings
    ≠ Math_max (lit 10) (nsub (lit 100) (all_columns_width (AppSettings.tableConfig settings))).
Proof.
  cbv zeta.
  assert (H50 : descriptionWidth
                  (AppSettings.mk "" (lit 0) DEFAULT_COLOR false DEFAULT_TABLE_CONFIG) = lit 50)
    by closed_number.
  assert (H40 : Math_max (lit 10) (nsub (lit 100) (all_columns_width DEFAULT_TABLE_CONFIG)) = lit 40)
    by closed_number.
  split; [exact H50|]. split; [exact H40|].
  simpl AppSettings.tableConfig. rewrite H50, H40. intros H.
  injection H as H. discriminate H.
Qed.

(** C5, amended. The width of the description column is
    [max(10, 100 - W)], where [W] is the sum of the item, price, qty and
    total widths, plus the image width only when the image column is
    shown. *)
Theorem descriptionWidth_shown_columns (settings : AppSettings.t) :
  let c := AppSettings.tableConfig settings in
  let shown := if AppSettings.showImageColumn settings then [TableConfig.imageWidth c] else [] in
  descriptionWidth settings
  = Math_max (lit 10) (nsub (lit 100)
      (sum_widths (shown ++ [TableConfig.itemWidth c; TableConfig.priceWidth c;
                             TableConfig.qtyWidth c; TableConfig.totalWidth c]))).
Proof.
  cbv zeta. rewrite descriptionWidth_unfold.
  destruct (AppSettings.showImageColumn settings); simpl app.
  - reflexivity.
  - by rewrite nadd_0_l.
Qed.

(** With the image column shown, this is the sum of all five widths. *)
Lemma descriptionWidth_image_shown (settings : AppSettings.t) :
  AppSettings.showImageColumn settings = true →
  descriptionWidth settings
  = Math_max (lit 10) (nsub (lit 100) (all_columns_width (AppSettings.tableConfig settings))).
Proof.
  intros H. rewrite descriptionWidth_unfold, H. reflexivity.
Qed.

(** The floor: whenever the width is a number, it is at least 10. *)
Lemma descriptionWidth_floor (settings : AppSettings.t) (q : Qc) :
  descriptionWidth settings = Num q → Qc_of_Z 10 ≤ q.
Proof.
  unfold descriptionWidth, Math_max, lit.
  destruct (nsub _ _) as [|y]; [discriminate|].
  intros [= <-]. unfold Qcmax. case_decide; [done|]. apply Qcle_refl.
Qed.

(** ** [findIndex] *)

Example findIndex_first_match :
  findIndex (λ n, bool_decide (n = 3%nat)) [1; 2; 3; 3]%nat = 2%Z.
Proof. reflexivity. Qed.

Example findIndex_no_match :
  findIndex (λ n, bool_decide (n = 7%nat)) [1; 2; 3]%nat = (-1)%Z.
Proof. reflexivity. Qed.

Lemma findIndex_none {A} (f : A → bool) (l : list A) :
  Forall (λ x, f x = false) l → findIndex f l = (-1)%Z.
Proof.
  intros H. unfold findIndex.
  destruct (list_find _ l) as [[i x]|] eqn:E; [|reflexivity].
  apply list_find_Some in E as (Hl & Hx & _).
  apply list_elem_of_lookup_2 in Hl. rewrite Forall_forall in H.
  specialize (H x Hl). congruence.
Qed.

Lemma findIndex_first {A} (f : A → bool) (before : list A) (x : A) (after : list A) :
  Forall (λ y, f y = false) before → f x = true →
  findIndex f (before ++ x :: after) = Z.of_nat (length before).
Proof.
  intros Hb Hx. unfold findIndex.
  assert (E : list_find (λ y, f y = true) (before ++ x :: after) = Some (length before, x)).
  { apply list_find_Some. split; [apply list_lookup_middle; reflexivity|].
    split; [exact Hx|]. intros j y Hj Hlt.
    rewrite lookup_app_l in Hj by exact Hlt.
    apply list_elem_of_lookup_2 in Hj. rewrite Forall_forall in Hb.
    specialize (Hb y Hj). congruence. }
  by rewrite E.
Qed.

Lemma findIndex_split {A} (f : A → bool) (l : list A) :
  (0 ≤ findIndex f l)%Z →
  ∃ before x after,
    l = before ++ x :: after ∧ Forall (λ y, f y = false) before ∧ f x = true.
Proof.
  unfold findIndex. destruct (list_find _ l) as [[i x]|] eqn:E; [|lia]. intros _.
  apply list_find_Some in E as (Hl & Hx & Hlt).
  exists (take i l), x, (drop (S i) l). split; [|split; [|exact Hx]].
  - symmetry. by apply take_drop_middle.
  - apply Forall_forall. intros y Hy.
    apply list_elem_of_lookup_1 in Hy as [j Hj].
    pose proof (lookup_lt_Some _ _ _ Hj) as Hlen. rewrite length_take in Hlen.
    rewrite lookup_take_lt in Hj by lia.
    destruct (f y) eqn:Ey; [|reflexivity].
    destruct (Hlt j y Hj ltac:(lia) Ey).
Qed.

Lemma not_findIndex_none {A} (f : A → bool) (l : list A) :
  ¬ (0 ≤ findIndex f l)%Z → Forall (λ x, f x = false) l.
Proof.
  unfold findIndex. destruct (list_find _ l) as [[i x]|] eqn:E; [lia|]. intros _.
  apply list_find_None in E. eapply Forall_impl; [exact E|].
  intros y Hy. simpl in Hy. by destruct (f y).
Qed.

(** ** Saving a draft *)

Lemma bool_decide_false_Forall (i : string) (l : list InvoiceData.t) :
  Forall (λ d, ¬ filed_under i d) l ↔
  Forall (λ d, bool_decide (InvoiceData.id d = Some i) = false) l.
Proof.
  apply Forall_proper; [|reflexivity]. intros d. unfold filed_under.
  by rewrite bool_decide_eq_false.
Qed.

Lemma updatedDrafts_new gid now (s : Editor.t) :
  Forall (λ d, ¬ filed_under (draftId gid (Editor.data s)) d) (Editor.savedDrafts s) →
  updatedDrafts gid now s = draftToSave gid now (Editor.data s) :: Editor.savedDrafts s.
Proof.
  intros H. apply bool_decide_false_Forall in H. unfold updatedDrafts. cbv zeta.
  by rewrite (findIndex_none _ _ H).
Qed.

Lemma updatedDrafts_existing gid now (s : Editor.t) before old after :
  Editor.savedDrafts s = before ++ old :: after →
  Forall (λ d, ¬ filed_under (draftId gid (Editor.data s)) d) before →
  filed_under (draftId gid (Editor.data s)) old →
  updatedDrafts gid now s = before ++ draftToSave gid now (Editor.data s) :: after.
Proof.
  intros Hl Hb Ho. apply bool_decide_false_Forall in Hb. unfold updatedDrafts. cbv zeta.
  rewrite Hl.
  rewrite (findIndex_first _ before old after Hb) by (by apply bool_decide_eq_true).
  replace (0 <=? Z.of_nat (length before))%Z with true by (symmetry; apply Z.leb_le; lia).
  rewrite Nat2Z.id. rewrite insert_app_r_alt by lia.
  by rewrite Nat.sub_diag.
Qed.

(** Either no saved draft is filed under the id, or a first one is. *)
Lemma savedDrafts_cases (i : string) (l : list InvoiceData.t) :
  Forall (λ d, ¬ filed_under i d) l ∨
  ∃ before old after,
    l = before ++ old :: after ∧ Forall (λ d, ¬ filed_under i d) before ∧ filed_under i old.
Proof.
  destruct (decide (0 ≤ findIndex (λ d, bool_decide (InvoiceData.id d = Some i)) l)%Z) as [H|H].
  - right. apply findIndex_split in H as (before & old & after & Hl & Hb & Ho).
    exists before, old, after. split; [exact Hl|]. split.
    + by apply bool_decide_false_Forall.
    + by apply bool_decide_eq_true in Ho.
  - left. apply bool_decide_false_Forall. by apply not_findIndex_none.
Qed.

Lemma draftId_truthy gid (data : InvoiceData.t) (i : string) :
  InvoiceData.id data = Some i → i ≠ "" → draftId gid data = i.
Proof.
  intros Hid Hi. unfold draftId, js_or_undef, js_or. rewrite Hid.
  unfold truthy, string_truthy. by rewrite bool_decide_eq_false_2.
Qed.

Lemma draftId_falsy gid (data : InvoiceData.t) :
  truthy (InvoiceData.id data) = false → draftId gid data = gid.
Proof.
  unfold draftId, js_or_undef, js_or. destruct (InvoiceData.id data) as [i|]; [|done].
  unfold truthy at 1, option_truthy. by intros ->.
Qed.

(** C9, as stated, fails, on the two inputs that [data.id ||
    generateId()] treats apart from the claim. (1) A document that is not
    in the collection (it has no id) is not prepended when the generated
    id is the id of a saved draft: it replaces that draft where it
    stands, so another draft of the collection is lost. (2) A draft of
    the collection whose id is the empty string is not kept at its
    position when it is saved again: the document is filed under the
    generated id at the front, and the old entry stays behind it. *)
Lemma handleSaveDraft_position_counterexample :
  let d1 := InvoiceData.mk (Some "a") "Ann" "R1" "01/01/2025" [] "" (Some "t0") in
  let d2 := InvoiceData.mk (Some "b") "Bob" "R2" "01/01/2025" [] "" (Some "t0") in
  let e := InvoiceData.mk (Some "") "Eve" "R5" "01/01/2025" [] "" (Some "t0") in
  let fresh := InvoiceData.mk None "Dee" "R4" "02/01/2025" [] "" None in
  let b := Browser.mk ∅ [] in
  let s1 := Editor.mk fresh [d1; d2] INITIAL_SETTINGS false "" in
  let s2 := Editor.mk e [d1; e] INITIAL_SETTINGS false "" in
  let saved1 := Editor.savedDrafts (handleSaveDraft "b" "t1" (s1, b)).1 in
  let saved2 := Editor.savedDrafts (handleSaveDraft "n" "t1" (s2, b)).1 in
  (fresh ∉ [d1; d2]) ∧
  saved1 = [d1; draftToSave "b" "t1" fresh] ∧
  saved1 ≠ draftToSave "b" "t1" fresh :: [d1; d2] ∧
  (d2 ∉ saved1) ∧
  [d1; e] !! 1%nat = Some e ∧
  saved2 = [draftToSave "n" "t1" e; d1; e] ∧
  saved2 !! 1%nat ≠ Some (draftToSave "n" "t1" e).
Proof.
  cbv zeta. split; [|split; [|split; [|split; [|split; [|split]]]]].
  - rewrite !elem_of_cons. intros [H|[H|H]]; [discriminate H..|by apply not_elem_of_nil in H].
  - reflexivity.
  - discriminate.
  - change (Editor.savedDrafts (handleSaveDraft "b" "t1" _).1)
      with [InvoiceData.mk (Some "a") "Ann" "R1" "01/01/2025" [] "" (Some "t0");
            draftToSave "b" "t1" (InvoiceData.mk None "Dee" "R4" "02/01/2025" [] "" None)].
    rewrite !elem_of_cons. intros [H|[H|H]]; [discriminate H..|by apply not_elem_of_nil in H].
  - reflexivity.
  - reflexivity.
  - discriminate.
Qed.

(** C9, amended. Let [i] be the id under which the save is filed: the
    id of the document when it has one that is not the empty string, and
    the generated id otherwise; and let [d] be the document being saved.
    If no saved draft is filed under [i], the new list is [d] followed by
    the old list. Otherwise the first draft filed under [i] is replaced
    by [d] where it stands, and the drafts before and after it are the
    same, in the same order. One of the two cases always applies, and the
    list written to [localStorage] is the new list. *)
Theorem handleSaveDraft_position (gid now : string) (s : Editor.t) (b : Browser.t) :
  let i := draftId gid (Editor.data s) in
  let d := draftToSave gid now (Editor.data s) in
  let old_drafts := Editor.savedDrafts s in
  let new_drafts := Editor.savedDrafts (handleSaveDraft gid now (s, b)).1 in
  (Forall (λ x, ¬ filed_under i x) old_drafts → new_drafts = d :: old_drafts) ∧
  (∀ before old after,
     old_drafts = before ++ old :: after →
     Forall (λ x, ¬ filed_under i x) before →
     filed_under i old →
     new_drafts = before ++ d :: after) ∧
  (Forall (λ x, ¬ filed_under i x) old_drafts ∨
   ∃ before old after,
     old_drafts = before ++ old :: after ∧
     Forall (λ x, ¬ filed_under i x) before ∧ filed_under i old) ∧
  Browser.localStorage (handleSaveDraft gid now (s, b)).2 !! "invoiceDrafts"
    = Some (VArr (InvoiceData_toJSON <$> new_drafts)) ∧
  (∀ j, InvoiceData.id (Editor.data s) = Some j → j ≠ "" → i = j) ∧
  (InvoiceData.id (Editor.data s) = None ∨ InvoiceData.id (Editor.data s) = Some "" →
   i = gid) ∧
  InvoiceData.id d = Some i.
Proof.
  cbv zeta. split; [|split; [|split; [|split; [|split; [|split]]]]].
  - apply updatedDrafts_new.
  - intros before old after. apply updatedDrafts_existing.
  - apply savedDrafts_cases.
  - simpl. unfold setItem. apply lookup_insert_eq.
  - intros j Hj Hne. by apply draftId_truthy.
  - intros [H|H]; apply draftId_falsy; by rewrite H.
  - reflexivity.
Qed.

Lemma handleSaveDraft_position_witness :
  let d1 := InvoiceData.mk (Some "a") "Ann" "R1" "01/01/2025" [] "" (Some "t0") in
  let d2 := InvoiceData.mk (Some "b") "Bob" "R2" "01/01/2025" [] "" (Some "t0") in
  let d3 := InvoiceData.mk (Some "c") "Cy" "R3" "01/01/2025" [] "" (Some "t0") in
  let b := Browser.mk ∅ [] in
  let fresh := InvoiceData.mk None "Dee" "R4" "02/01/2025" [] "" None in
  let again := InvoiceData.mk (Some "b") "Bob" "R2-bis" "02/01/2025" [] "" (Some "t0") in
  let s1 := Editor.mk fresh [d1; d2; d3] INITIAL_SETTINGS false "" in
  let s2 := Editor.mk again [d1; d2; d3] INITIAL_SETTINGS false "" in
  Editor.savedDrafts (handleSaveDraft "n" "t1" (s1, b)).1
    = [draftToSave "n" "t1" fresh; d1; d2; d3] ∧
  Editor.savedDrafts (handleSaveDraft "n" "t1" (s2, b)).1
    = [d1; draftToSave "n" "t1" again; d3].
Proof.
  cbv zeta. split.
  - apply (handleSaveDraft_position "n" "t1"
             (Editor.mk (InvoiceData.mk None "Dee" "R4" "02/01/2025" [] "" None) _ _ _ _)
             (Browser.mk ∅ [])).
    simpl. repeat constructor; intros H; vm_compute in H; discriminate H.
  - refine (proj1 (proj2 (handleSaveDraft_position "n" "t1"
             (Editor.mk (InvoiceData.mk (Some "b") "Bob" "R2-bis" "02/01/2025" [] "" (Some "t0"))
                _ _ _ _)
             (Browser.mk ∅ []))) [_] _ [_] eq_refl _ _).
    + simpl. repeat constructor; intros H; vm_compute in H; discriminate H.
    + reflexivity.
Defined.

Lemma not_filed_under_ids (i : string) (l : list InvoiceData.t) :
  Some i ∉ InvoiceData.id <$> l ↔ Forall (λ d, ¬ filed_under i d) l.
Proof.
  rewrite Forall_forall. unfold filed_under. split.
  - intros H d Hd E. apply H. rewrite <- E. by apply list_elem_of_fmap_2.
  - intros H Hin. apply list_elem_of_fmap in Hin as (d & E & Hd). by apply (H d Hd).
Qed.




(** ** Backup and restore *)

(** One record of a restore, when the file has the field. *)
Lemma restore_record_present (data : value) (field key : string) (v : value) (b : Browser.t) :
  get_prop data field = Some (Some v) →
  restore_record data field key b
  = (Some tt, if truthy v then Browser.write key v b else b).
Proof. intros H. unfold restore_record. rewrite H. by destruct (truthy v). Qed.

(** What restoring a parsed backup object does to the store. *)
Lemma handleRestore_object (p d s : value) (target : Browser.t) :
  let restore_one key v (b : Browser.t) := if truthy v then Browser.write key v b else b in
  handleRestore (Some (JsonText (VObj [("products", p); ("drafts", d); ("settings", s)]))) target
  = Browser.alert RESTORE_DONE
      (restore_one "appSettings" s
         (restore_one "invoiceDrafts" d
            (restore_one "products" p target))).
Proof.
  cbv zeta. unfold handleRestore, try_catch_finally, restore_try, proc_bind.
  rewrite (restore_record_present _ "products" "products" p) by reflexivity.
  rewrite (restore_record_present _ "drafts" "invoiceDrafts" d) by reflexivity.
  rewrite (restore_record_present _ "settings" "appSettings" s) by reflexivity.
  reflexivity.
Qed.

Lemma backup_restore_record (b target : Browser.t) (key : string) :
  key ∈ record_keys →
  Browser.localStorage (handleRestore (Some (JsonText (handleBackup b))) target) !! key
  = restored_record (Browser.localStorage b) (Browser.localStorage target) key.
Proof.
  intros Hkey. unfold handleBackup. cbv zeta. rewrite handleRestore_object. cbv zeta.
  unfold restored_record, record_default, getItem.
  destruct (Browser.localStorage b !! "products") as [p|] eqn:Ep,
           (Browser.localStorage b !! "invoiceDrafts") as [d|] eqn:Ed,
           (Browser.localStorage b !! "appSettings") as [s|] eqn:Es;
    simpl default;
    repeat (apply elem_of_cons in Hkey as [->|Hkey]);
    try (by apply not_elem_of_nil in Hkey);
    rewrite ?Ep, ?Ed, ?Es;
    repeat (match goal with |- context [truthy ?v] => is_var v; destruct (truthy v) end);
    unfold truthy, value_truthy, Browser.write, setItem; simpl; by simplify_map_eq.
Qed.

(** C3, as stated, fails: a record that is absent when the backup is
    taken comes back as an empty array or object. On a store with no
    record at all, backup and restore leave three records behind. *)
Lemma backup_restore_absent_counterexample :
  let b := Browser.mk ∅ [] in
  let b' := handleRestore (Some (JsonText (handleBackup b))) b in
  Browser.localStorage b !! "products" = None ∧
  Browser.localStorage b !! "invoiceDrafts" = None ∧
  Browser.localStorage b !! "appSettings" = None ∧
  Browser.localStorage b' !! "products" = Some (VArr []) ∧
  Browser.localStorage b' !! "invoiceDrafts" = Some (VArr []) ∧
  Browser.localStorage b' !! "appSettings" = Some (VObj []) ∧
  ¬ (∀ key, key ∈ record_keys →
       Browser.localStorage b' !! key = Browser.localStorage b !! key).
Proof.
  cbv zeta.
  assert (H : ∀ key, key ∈ record_keys →
    Browser.localStorage
      (handleRestore (Some (JsonText (handleBackup (Browser.mk ∅ [])))) (Browser.mk ∅ [])) !! key
    = Some (record_default key)).
  { intros key Hkey. rewrite backup_restore_record by exact Hkey.
    unfold restored_record. simpl. by rewrite lookup_empty. }
  split; [apply lookup_empty|]. split; [apply lookup_empty|]. split; [apply lookup_empty|].
  split; [apply (H "products"); set_solver|].
  split; [apply (H "invoiceDrafts"); set_solver|].
  split; [apply (H "appSettings"); set_solver|].
  intros Hall. specialize (Hall "products" ltac:(set_solver)).
  rewrite (H "products") in Hall by set_solver. simpl in Hall.
  rewrite lookup_empty in Hall. discriminate Hall.
Qed.

(** C3, amended. Each of the three records that is present when the
    backup is taken and holds a truthy JSON value (every array and every
    object is one) is the same value after the file is restored, whatever
    the store holds at that time. A record that is absent at backup time
    is written back as its empty default, and a record holding a falsy
    value is skipped by the restore. *)
Theorem backup_restore_roundtrip (b target : Browser.t) (key : string) :
  key ∈ record_keys →
  let restored :=
    Browser.localStorage (handleRestore (Some (JsonText (handleBackup b))) target) in
  (∀ v, Browser.localStorage b !! key = Some v → truthy v = true →
        restored !! key = Some v) ∧
  (Browser.localStorage b !! key = None → restored !! key = Some (record_default key)) ∧
  (∀ v, Browser.localStorage b !! key = Some v → truthy v = false →
        restored !! key = Browser.localStorage target !! key).
Proof.
  intros Hkey. cbv zeta. rewrite backup_restore_record by exact Hkey.
  unfold restored_record. repeat split.
  - by intros v -> ->.
  - by intros ->.
  - by intros v -> ->.
Qed.

Lemma backup_restore_roundtrip_witness :
  let products := VArr [Product_toJSON (Product.mk "p1" "C-1" "Pump" "" (lit 100) None)] in
  let drafts := VArr [] in
  let settings := AppSettings_toJSON INITIAL_SETTINGS in
  let b := Browser.mk (<["products" := products]> (<["invoiceDrafts" := drafts]>
                        (<["appSettings" := settings]> ∅))) [] in
  let b' := handleRestore (Some (JsonText (handleBackup b))) (Browser.mk ∅ []) in
  Browser.localStorage b' !! "products" = Some products ∧
  Browser.localStorage b' !! "invoiceDrafts" = Some drafts ∧
  Browser.localStorage b' !! "appSettings" = Some settings.
Proof.
  cbv zeta. split; [|split].
  - refine (proj1 (backup_restore_roundtrip _ (Browser.mk ∅ []) "products" _) _ _ _);
      [apply list_elem_of_here|reflexivity|reflexivity].
  - refine (proj1 (backup_restore_roundtrip _ (Browser.mk ∅ []) "invoiceDrafts" _) _ _ _);
      [apply list_elem_of_further, list_elem_of_here|reflexivity|reflexivity].
  - refine (proj1 (backup_restore_roundtrip _ (Browser.mk ∅ []) "appSettings" _) _ _ _);
      [do 2 apply list_elem_of_further; apply list_elem_of_here|reflexivity|reflexivity].
Defined.

(** ** Deleting a product *)

Lemma handleDelete_storage_frame (id : string) (confirmed : bool)
    (inv : Inventory.t) (b : Browser.t) (key : string) :
  key ≠ "products" →
  Browser.localStorage (handleDelete id confirmed (inv, b)).2 !! key
  = Browser.localStorage b !! key.
Proof.
  intros Hkey. unfold handleDelete. destruct confirmed; [|reflexivity].
  simpl. unfold setItem. by rewrite lookup_insert_ne.
Qed.

Lemma handleDelete_removes (id : string) (inv : Inventory.t) (b : Browser.t) (p : Product.t) :
  p ∈ Inventory.products (handleDelete id true (inv, b)).1 ↔
  p ∈ Inventory.products inv ∧ Product.id p ≠ id.
Proof. simpl. rewrite list_elem_of_filter. tauto. Qed.

Lemma addItem_items gid product (s : Editor.t) :
  InvoiceData.items (Editor.data (addItem gid product s))
  = InvoiceData.items (Editor.data s) ++ [newItem gid product].
Proof. reflexivity. Qed.

Lemma handleSaveDraft_data gid now (s : Editor.t) (b : Browser.t) :
  Editor.data (handleSaveDraft gid now (s, b)).1 = draftToSave gid now (Editor.data s).
Proof. reflexivity. Qed.

Lemma draftToSave_in_updatedDrafts gid now (s : Editor.t) :
  draftToSave gid now (Editor.data s) ∈ updatedDrafts gid now s.
Proof.
  destruct (savedDrafts_cases (draftId gid (Editor.data s)) (Editor.savedDrafts s))
    as [Hnone|(before & old & after & Hl & Hb & Ho)].
  - rewrite (updatedDrafts_new gid now s Hnone). apply list_elem_of_here.
  - rewrite (updatedDrafts_existing gid now s before old after Hl Hb Ho).
    apply elem_of_app. right. apply list_elem_of_here.
Qed.

(** C4. Take a product [p] of the catalog, add an invoice item from it
    and save the invoice as a draft. The item holds the values of [p]
    (its id as back-reference, its code, "name - description", its
    price and its image), not a reference to it. Deleting [p] then
    changes the catalog and the [products] record only: [p] is gone from
    the catalog, and the [invoiceDrafts] record, which holds the item,
    is the same value as before, as is every record other than
    [products]. The editor's document is no argument of [handleDelete]. *)
Theorem handleDelete_keeps_invoice_items
    (p : Product.t) (inv : Inventory.t) (ed : Editor.t) (b : Browser.t)
    (gid gid' now : string) (confirmed : bool) :
  p ∈ Inventory.products inv →
  let item := newItem gid (Some p) in
  let saved := handleSaveDraft gid' now (addItem gid (Some p) ed, b) in
  let deleted := handleDelete (Product.id p) confirmed (inv, saved.2) in
  (InvoiceItem.productId item = Some (Product.id p) ∧
   InvoiceItem.itemCode item = js_or (Product.code p) "" ∧
   InvoiceItem.description item = Product.name p +:+ " - " +:+ Product.description p ∧
   InvoiceItem.price item = js_or (Product.price p) (lit 0) ∧
   InvoiceItem.image item = Product.image p) ∧
  (item ∈ InvoiceData.items (Editor.data saved.1) ∧
   Editor.data saved.1 ∈ Editor.savedDrafts saved.1) ∧
  (confirmed = true → p ∉ Inventory.products deleted.1) ∧
  Browser.localStorage deleted.2 !! "invoiceDrafts"
    = Some (VArr (InvoiceData_toJSON <$> Editor.savedDrafts saved.1)) ∧
  (∀ key, key ≠ "products" →
     Browser.localStorage deleted.2 !! key = Browser.localStorage saved.2 !! key).
Proof.
  intros Hp. cbv zeta. split; [|split; [|split; [|split]]].
  - repeat split.
  - split.
    + rewrite handleSaveDraft_data. simpl. apply elem_of_app. right. apply list_elem_of_here.
    + rewrite handleSaveDraft_data. apply draftToSave_in_updatedDrafts.
  - intros ->. rewrite handleDelete_removes. tauto.
  - rewrite handleDelete_storage_frame by discriminate.
    simpl. unfold setItem. apply lookup_insert_eq.
  - intros key Hkey. by apply handleDelete_storage_frame.
Qed.

Lemma handleDelete_keeps_invoice_items_witness :
  let p := Product.mk "p1" "C-1" "Pump" "3 bar" (lit 100) (Some "data:image/png;base64,AAAA") in
  let q := Product.mk "p2" "C-2" "Valve" "" (lit 40) None in
  let inv := Inventory.mk [p; q] false "" None in
  let ed := Editor.mk (InvoiceData.mk None "Ann" "R1" "01/01/2025" [] "" None) []
              INITIAL_SETTINGS true "pu" in
  let b := Browser.mk (<["products" := VArr [Product_toJSON p; Product_toJSON q]]> ∅) [] in
  let saved := handleSaveDraft "d1" "t1" (addItem "i1" (Some p) ed, b) in
  let deleted := handleDelete "p1" true (inv, saved.2) in
  Inventory.products deleted.1 = [q] ∧
  Browser.localStorage deleted.2 !! "invoiceDrafts"
    = Some (VArr (InvoiceData_toJSON <$> Editor.savedDrafts saved.1)).
Proof.
  cbv zeta. split; [reflexivity|].
  refine (proj1 (proj2 (proj2 (proj2 (handleDelete_keeps_invoice_items
    (Product.mk "p1" "C-1" "Pump" "3 bar" (lit 100) (Some "data:image/png;base64,AAAA"))
    (Inventory.mk [_; Product.mk "p2" "C-2" "Valve" "" (lit 40) None] false "" None)
    (Editor.mk (InvoiceData.mk None "Ann" "R1" "01/01/2025" [] "" None) []
       INITIAL_SETTINGS true "pu")
    (Browser.mk (<["products" := _]> ∅) []) "i1" "d1" "t1" true _))))).
  apply list_elem_of_here.
Defined.

(** ** The extraction upload *)

Example isWord_by_name : isWord (File.mk "offer.docx" "") = true.
Proof. reflexivity. Qed.

Example isWord_by_type : isWord (File.mk "offer" DOCX_MIME) = true.
Proof. reflexivity. Qed.

Example isWord_image : isWord (File.mk "offer.docx.png" "image/png") = false.
Proof. reflexivity. Qed.

Create HintDb upload discriminated.
#[local] Hint Constructors upload_failure file_read : upload.

Section Upload.
Context {St : Type}.

Lemma map_throwing_objects {A B} (g : nat → A → B) (l : list A) (i : nat) (st : St) :
  map_throwing
    (λ j p, match p with Some p => proc_ret (g j p) | None => throw end) i (Some <$> l) st
  = (Some (imap (λ j, g (i + j)%nat) l), st).
Proof.
  revert i. induction l as [|x l IH]; intros i; [reflexivity|].
  simpl. unfold proc_bind at 1. simpl. unfold proc_bind at 1. rewrite IH. simpl.
  unfold proc_ret. rewrite Nat.add_0_r. do 3 f_equal.
  apply imap_ext. intros j y _. simpl. f_equal. lia.
Qed.

Lemma map_throwing_null {A B} (g : nat → A → B) (l : list (option A)) (i : nat) (st : St) :
  None ∈ l →
  map_throwing
    (λ j p, match p with Some p => proc_ret (g j p) | None => throw end) i l st
  = (None, st).
Proof.
  revert i. induction l as [|x l IH]; intros i Hin; [by apply not_elem_of_nil in Hin|].
  simpl. unfold proc_bind at 1. destruct x as [a|]; [|reflexivity].
  simpl. apply elem_of_cons in Hin as [Hin|Hin]; [discriminate Hin|].
  unfold proc_bind at 1. by rewrite IH.
Qed.

(** The loop changes no state, whether it throws or not. *)
Lemma map_throwing_state {A B} (g : nat → A → B) (l : list (option A)) (i : nat) (st : St) :
  (map_throwing
     (λ j p, match p with Some p => proc_ret (g j p) | None => throw end) i l st).2 = st.
Proof.
  revert i. induction l as [|x l IH]; intros i; [reflexivity|].
  simpl. unfold proc_bind at 1. destruct x as [a|]; [|reflexivity].
  simpl. unfold proc_bind at 1. specialize (IH (S i)).
  destruct (map_throwing _ (S i) l st) as [[ys|] st']; simpl in *; by subst.
Qed.
End Upload.

(** *** The two halves of the [try] block *)

Lemma upload_read_untouched (env : UploadEnv.t) (file : File.t) (sb : Inventory.t * Browser.t) :
  catalog_untouched sb (upload_read env file sb).2.
Proof.
  unfold upload_read, catalog_untouched.
  destruct (isWord file).
  - unfold proc_bind, setUploadStatus, modify. simpl.
    destruct (UploadEnv.arrayBuffer env) as [[]|]; simpl; [|done].
    destruct (UploadEnv.extractRawText env) as [textContent|]; simpl; [|done].
    by destruct (truthy textContent).
  - by destruct (UploadEnv.fileToBase64 env).
Qed.

Lemma upload_read_ok (env : UploadEnv.t) (file : File.t) (base64Data : string)
    (sb : Inventory.t * Browser.t) :
  file_read env file base64Data → (upload_read env file sb).1 = Some base64Data.
Proof.
  unfold upload_read.
  intros [textContent Hw Hbuf Htext Htruthy | d Hw Hread]; rewrite Hw.
  - unfold proc_bind, setUploadStatus, modify. simpl.
    rewrite Hbuf. simpl. rewrite Htext. simpl. by rewrite Htruthy.
  - by rewrite Hread.
Qed.

Lemma upload_respond_untouched_on_throw (env : UploadEnv.t) (file : File.t)
    (products : list Product.t) (base64Data : string) (sb : Inventory.t * Browser.t) :
  (upload_respond env file products base64Data sb).1 = None →
  (upload_respond env file products base64Data sb).2 = sb.
Proof.
  unfold upload_respond, proc_bind.
  destruct (UploadEnv.generateContent env) as [[| |[| |entries]]|]; simpl; try done.
  pose proof (map_throwing_state
    (λ i, extractedProduct (UploadEnv.generateId env i) (keptImage file base64Data))
    entries 0 sb) as Hst.
  destruct (map_throwing _ 0 entries sb) as [[newItems|] st']; simpl in *; [done|].
  by subst.
Qed.

Lemma entries_cases (entries : list (option Extracted.t)) :
  None ∈ entries ∨ ∃ objects, entries = Some <$> objects.
Proof.
  induction entries as [|[e|] entries IH].
  - right. by exists [].
  - destruct IH as [IH|[objects ->]].
    + left. by apply list_elem_of_further.
    + right. by exists (e :: objects).
  - left. apply list_elem_of_here.
Qed.

Lemma upload_respond_products (env : UploadEnv.t) (file : File.t)
    (products : list Product.t) (base64Data : string) (sb : Inventory.t * Browser.t)
    (objects : list Extracted.t) :
  UploadEnv.generateContent env = Fulfilled (Json (Products (Some <$> objects))) →
  upload_respond env file products base64Data sb
  = (Some tt,
     (Inventory.setUploadStatus (STATUS_EXTRACTED (length objects))
        (Inventory.setProducts (products ++ extractedProducts env file base64Data objects) sb.1),
      Browser.write "products"
        (VArr (Product_toJSON <$> products ++ extractedProducts env file base64Data objects))
        sb.2)).
Proof.
  intros Hgen. unfold upload_respond, proc_bind. rewrite Hgen. simpl.
  rewrite (map_throwing_objects
    (λ i, extractedProduct (UploadEnv.generateId env i) (keptImage file base64Data))).
  unfold extractedProducts. simpl. by rewrite length_imap.
Qed.

Lemma upload_respond_throws (env : UploadEnv.t) (file : File.t)
    (products : list Product.t) (base64Data : string) (sb : Inventory.t * Browser.t) :
  upload_failure env file →
  (upload_read env file sb).1 = Some base64Data →
  (upload_respond env file products base64Data (upload_read env file sb).2).1 = None.
Proof.
  intros Hfail Hread.
  assert (Hresp : ∀ st,
    UploadEnv.generateContent env = Rejected ∨
    UploadEnv.generateContent env = Fulfilled Malformed ∨
    UploadEnv.generateContent env = Fulfilled (Json DataNull) ∨
    (∃ entries, UploadEnv.generateContent env = Fulfilled (Json (Products entries)) ∧
                None ∈ entries) →
    (upload_respond env file products base64Data st).1 = None).
  { intros st [H|[H|[H|(entries & H & Hnull)]]];
      unfold upload_respond, proc_bind; rewrite H; simpl; try reflexivity.
    by rewrite map_throwing_null. }
  unfold upload_read in Hread.
  destruct Hfail as [Hw Hbuf|Hw Hr|Hw Ht|textContent Hw Ht Hf|H|H|H|entries H Hnull];
    try (apply Hresp; eauto 6; fail).
  - rewrite Hw in Hread. unfold proc_bind, setUploadStatus, modify in Hread.
    simpl in Hread. rewrite Hbuf in Hread. discriminate Hread.
  - rewrite Hw, Hr in Hread. discriminate Hread.
  - rewrite Hw in Hread. unfold proc_bind, setUploadStatus, modify in Hread.
    simpl in Hread. destruct (UploadEnv.arrayBuffer env) as [[]|]; [|discriminate Hread].
    simpl in Hread. rewrite Ht in Hread. discriminate Hread.
  - rewrite Hw in Hread. unfold proc_bind, setUploadStatus, modify in Hread.
    simpl in Hread. destruct (UploadEnv.arrayBuffer env) as [[]|]; [|discriminate Hread].
    simpl in Hread. rewrite Ht in Hread. simpl in Hread. rewrite Hf in Hread.
    discriminate Hread.
Qed.

(** Every run in which no step fails reads the file and gets an answer
    that is empty, has no product list, or is a list of entries. *)
Lemma upload_outcomes (env : UploadEnv.t) (file : File.t) :
  upload_failure env file ∨
  ∃ base64Data,
    file_read env file base64Data ∧
    (UploadEnv.generateContent env = Fulfilled NoText ∨
     UploadEnv.generateContent env = Fulfilled (Json NoProducts) ∨
     ∃ objects, UploadEnv.generateContent env = Fulfilled (Json (Products (Some <$> objects)))).
Proof.
  destruct (UploadEnv.generateContent env) as [[| |[| |entries]]|] eqn:Hgen;
    eauto with upload.
  all: try (destruct (entries_cases entries) as [Hnull|[objects ->]]; [eauto with upload|]).
  all: destruct (isWord file) eqn:Hword.
  all: try (destruct (UploadEnv.fileToBase64 env) as [base64Data|] eqn:Hread;
            [|eauto with upload]).
  all: try (destruct (UploadEnv.arrayBuffer env) as [[]|] eqn:Hbuf; [|eauto with upload];
            destruct (UploadEnv.extractRawText env) as [textContent|] eqn:Htext;
              [|eauto with upload];
            destruct (truthy textContent) eqn:Htruthy; [|eauto with upload]).
  all: right; eexists; split; eauto 7 with upload.
Qed.

(** *** The handler *)

Lemma handleFileUpload_started (env : UploadEnv.t) (file : File.t)
    (inv : Inventory.t) (b : Browser.t) :
  UploadEnv.file env = Some file →
  truthy (UploadEnv.API_KEY env) = true →
  handleFileUpload env (inv, b)
  = try_catch_finally
      (upload_try env file (Inventory.products inv))
      (λ sb', (Inventory.setUploadStatus STATUS_ERROR sb'.1, sb'.2))
      (λ sb', (Inventory.setIsUploading false sb'.1, sb'.2))
      (Inventory.setUploadStatus STATUS_ANALYSING (Inventory.setIsUploading true inv), b).
Proof. intros Hfile Hkey. unfold handleFileUpload. by rewrite Hfile, Hkey. Qed.

(** Enter the [try] block: name the state it starts from and record
    that reading the file leaves the catalog and the browser alone. *)
Ltac enter_try env file inv b :=
  rewrite (handleFileUpload_started env file) by assumption;
  unfold try_catch_finally, upload_try, proc_bind;
  set (start := (Inventory.setUploadStatus STATUS_ANALYSING
                   (Inventory.setIsUploading true inv), b));
  pose proof (upload_read_untouched env file start) as (Hb & Hp & He).

Lemma handleFileUpload_failure (env : UploadEnv.t) (file : File.t)
    (inv : Inventory.t) (b : Browser.t) :
  UploadEnv.file env = Some file →
  truthy (UploadEnv.API_KEY env) = true →
  upload_failure env file →
  handleFileUpload env (inv, b)
  = (Inventory.mk (Inventory.products inv) false STATUS_ERROR (Inventory.editingProduct inv), b).
Proof.
  intros Hfile Hkey Hfail. enter_try env file inv b.
  pose proof (upload_respond_throws env file (Inventory.products inv)) as Hthrow.
  specialize (λ d, Hthrow d start Hfail).
  destruct (upload_read env file start) as [[base64Data|] [inv' b']] eqn:Eread;
    simpl in Hb, Hp, He; subst b'.
  - specialize (Hthrow base64Data eq_refl). simpl in Hthrow.
    pose proof (upload_respond_untouched_on_throw env file (Inventory.products inv)
                  base64Data (inv', b) Hthrow) as Hsame.
    destruct (upload_respond env file (Inventory.products inv) base64Data (inv', b))
      as [[[]|] sb'']; simpl in Hthrow, Hsame; [discriminate Hthrow|]. subst sb''.
    simpl. unfold Inventory.setIsUploading, Inventory.setUploadStatus. simpl.
    by rewrite Hp, He.
  - simpl. unfold Inventory.setIsUploading, Inventory.setUploadStatus. simpl.
    by rewrite Hp, He.
Qed.

Lemma handleFileUpload_products (env : UploadEnv.t) (file : File.t)
    (inv : Inventory.t) (b : Browser.t) (base64Data : string) (objects : list Extracted.t) :
  UploadEnv.file env = Some file →
  truthy (UploadEnv.API_KEY env) = true →
  file_read env file base64Data →
  UploadEnv.generateContent env = Fulfilled (Json (Products (Some <$> objects))) →
  let catalog := Inventory.products inv ++ extractedProducts env file base64Data objects in
  handleFileUpload env (inv, b)
  = (Inventory.mk catalog false (STATUS_EXTRACTED (length objects)) (Inventory.editingProduct inv),
     Browser.write "products" (VArr (Product_toJSON <$> catalog)) b).
Proof.
  intros Hfile Hkey Hread Hgen. cbv zeta. enter_try env file inv b.
  pose proof (upload_read_ok env file base64Data start Hread) as Hok.
  destruct (upload_read env file start) as [[d|] [inv' b']];
    simpl in Hb, Hp, He, Hok; [|discriminate Hok].
  injection Hok as ->. subst b'.
  rewrite (upload_respond_products env file _ base64Data _ objects Hgen). simpl.
  unfold Inventory.setIsUploading, Inventory.setUploadStatus, Inventory.setProducts. simpl.
  by rewrite He.
Qed.

Lemma upload_respond_cases (env : UploadEnv.t) (file : File.t)
    (products : list Product.t) (base64Data : string) (sb : Inventory.t * Browser.t) :
  catalog_untouched sb (upload_respond env file products base64Data sb).2 ∨
  ∃ objects, UploadEnv.generateContent env = Fulfilled (Json (Products (Some <$> objects))).
Proof.
  destruct (UploadEnv.generateContent env) as [[| |[| |entries]]|] eqn:Hgen;
    try (left; unfold upload_respond, proc_bind; rewrite Hgen; by simpl).
  destruct (entries_cases entries) as [Hnull|[objects ->]]; [|right; by exists objects].
  left. unfold upload_respond, proc_bind. rewrite Hgen. simpl.
  by rewrite map_throwing_null.
Qed.

Lemma handleFileUpload_all_or_nothing (env : UploadEnv.t) (inv : Inventory.t) (b : Browser.t) :
  (Browser.localStorage (handleFileUpload env (inv, b)).2 = Browser.localStorage b ∧
   Inventory.products (handleFileUpload env (inv, b)).1 = Inventory.products inv) ∨
  (∃ file base64Data objects,
     UploadEnv.file env = Some file ∧
     UploadEnv.generateContent env = Fulfilled (Json (Products (Some <$> objects))) ∧
     Inventory.products (handleFileUpload env (inv, b)).1
       = Inventory.products inv ++ extractedProducts env file base64Data objects ∧
     Inventory.uploadStatus (handleFileUpload env (inv, b)).1
       = STATUS_EXTRACTED (length objects) ∧
     (handleFileUpload env (inv, b)).2
       = Browser.write "products"
           (VArr (Product_toJSON <$>
                    Inventory.products inv ++ extractedProducts env file base64Data objects))
           b).
Proof.
  destruct (UploadEnv.file env) as [file|] eqn:Hfile;
    [|left; unfold handleFileUpload; by rewrite Hfile].
  destruct (truthy (UploadEnv.API_KEY env)) eqn:Hkey;
    [|left; unfold handleFileUpload; by rewrite Hfile, Hkey].
  enter_try env file inv b.
  destruct (upload_read env file start) as [[base64Data|] [inv' b']];
    simpl in Hb, Hp, He; subst b'; [|left; simpl; by rewrite Hp].
  destruct (upload_respond_cases env file (Inventory.products inv) base64Data (inv', b))
    as [(Hb' & Hp' & _)|[objects Hgen]].
  - left. destruct (upload_respond _ _ _ _ _) as [[[]|] [inv'' b'']];
      simpl in *; subst b''; by rewrite Hp', Hp.
  - right. exists file, base64Data, objects.
    rewrite (upload_respond_products env file _ base64Data _ objects Hgen). by simpl.
Qed.

(** C7. Whatever the catalog was: when a step of the upload fails (the
    file read, the text extraction, the call, or the parse of its
    answer), the status shown is the error message and neither the
    [products] record nor anything else in the browser, nor the catalog
    in memory, has changed. And in every run, either nothing is written
    to [localStorage] and the catalog is what it was, or the catalog
    with the whole batch appended is written in one write. *)
Theorem handleFileUpload_atomic (env : UploadEnv.t) (inv : Inventory.t) (b : Browser.t) :
  let result := handleFileUpload env (inv, b) in
  (∀ file,
     UploadEnv.file env = Some file →
     truthy (UploadEnv.API_KEY env) = true →
     upload_failure env file →
     Inventory.uploadStatus result.1 = STATUS_ERROR ∧
     Inventory.isUploading result.1 = false ∧
     Inventory.products result.1 = Inventory.products inv ∧
     Browser.localStorage result.2 !! "products" = Browser.localStorage b !! "products" ∧
     result.2 = b) ∧
  ((Browser.localStorage result.2 = Browser.localStorage b ∧
    Inventory.products result.1 = Inventory.products inv) ∨
   (∃ file base64Data objects,
      UploadEnv.file env = Some file ∧
      UploadEnv.generateContent env = Fulfilled (Json (Products (Some <$> objects))) ∧
      Inventory.products result.1
        = Inventory.products inv ++ extractedProducts env file base64Data objects ∧
      Inventory.uploadStatus result.1 = STATUS_EXTRACTED (length objects) ∧
      result.2
        = Browser.write "products"
            (VArr (Product_toJSON <$>
                     Inventory.products inv ++ extractedProducts env file base64Data objects))
            b)).
Proof.
  cbv zeta. split; [|apply handleFileUpload_all_or_nothing].
  intros file Hfile Hkey Hfail.
  by rewrite (handleFileUpload_failure env file inv b Hfile Hkey Hfail).
Qed.

Lemma handleFileUpload_atomic_witness :
  let file := File.mk "catalogue.pdf" "application/pdf" in
  let env := UploadEnv.mk (Some file) (Some "key") Rejected Rejected
               (Fulfilled "data:application/pdf;base64,AAAA") (Fulfilled Malformed)
               (λ i, "id" +:+ pretty i) in
  let p := Product.mk "p1" "C-1" "Pump" "" (lit 100) None in
  let inv := Inventory.mk [p] false "" None in
  let b := Browser.mk (<["products" := VArr [Product_toJSON p]]> ∅) [] in
  Inventory.uploadStatus (handleFileUpload env (inv, b)).1 = STATUS_ERROR ∧
  (handleFileUpload env (inv, b)).2 = b.
Proof.
  intros file env p inv b.
  pose proof (proj1 (handleFileUpload_atomic env inv b) file eq_refl eq_refl
                (parse_fails env file eq_refl)) as (Hstatus & _ & _ & _ & Hb).
  split; [exact Hstatus|exact Hb].
Defined.

Lemma keptImage_spec (file : File.t) (base64Data : string) :
  (image_upload file → base64Data ≠ "" → keptImage file base64Data = Some base64Data) ∧
  (∀ image, keptImage file base64Data = Some image →
            image_upload file ∧ image = base64Data ∧ base64Data ≠ "").
Proof.
  unfold keptImage, image_upload, truthy, string_truthy. split.
  - intros [-> ->] Hne. by rewrite bool_decide_eq_false_2.
  - intros image. destruct (isWord file); [discriminate|].
    destruct (decide (base64Data = "")) as [->|Hne]; [discriminate|].
    rewrite bool_decide_eq_false_2 by exact Hne.
    destruct (startsWith (File.type file) "image"); [|discriminate].
    by intros [= <-].
Qed.

(** With nothing else running, the upload is [handleFileUpload]. *)
Lemma handleFileUpload_during_idle (env : UploadEnv.t) (sb : Inventory.t * Browser.t) :
  handleFileUpload_during (λ st, st) (λ st, st) env sb = handleFileUpload env sb.
Proof.
  unfold handleFileUpload_during, handleFileUpload.
  destruct (UploadEnv.file env) as [file|]; [|reflexivity].
  destruct (negb (truthy (UploadEnv.API_KEY env))); [reflexivity|].
  unfold try_catch_finally, upload_try_during, upload_try, upload_read_during, upload_read,
    proc_bind, setUploadStatus, modify.
  destruct (isWord file); simpl.
  - destruct (UploadEnv.arrayBuffer env) as [[]|]; simpl; [|reflexivity].
    destruct (UploadEnv.extractRawText env) as [textContent|]; simpl; [|reflexivity].
    by destruct (truthy textContent).
  - by destruct (UploadEnv.fileToBase64 env).
Qed.

Lemma upload_read_during_ok
    (during_read : Inventory.t * Browser.t → Inventory.t * Browser.t)
    (env : UploadEnv.t) (file : File.t) (base64Data : string) (sb : Inventory.t * Browser.t) :
  file_read env file base64Data →
  (upload_read_during during_read env file sb).1 = Some base64Data.
Proof.
  unfold upload_read_during.
  intros [textContent Hw Hbuf Htext Htruthy | d Hw Hread]; rewrite Hw.
  - unfold proc_bind, setUploadStatus, modify. simpl.
    rewrite Hbuf. simpl. rewrite Htext. simpl. by rewrite Htruthy.
  - unfold proc_bind, modify. simpl. by rewrite Hread.
Qed.

(** The catalog that a successful upload leaves, whatever else ran. *)
Lemma handleFileUpload_during_products
    (during_read during_call : Inventory.t * Browser.t → Inventory.t * Browser.t)
    (env : UploadEnv.t) (file : File.t) (inv : Inventory.t) (b : Browser.t)
    (base64Data : string) (objects : list Extracted.t) :
  UploadEnv.file env = Some file →
  truthy (UploadEnv.API_KEY env) = true →
  file_read env file base64Data →
  UploadEnv.generateContent env = Fulfilled (Json (Products (Some <$> objects))) →
  let catalog := Inventory.products inv ++ extractedProducts env file base64Data objects in
  let result := handleFileUpload_during during_read during_call env (inv, b) in
  Inventory.products result.1 = catalog ∧
  Browser.localStorage result.2 !! "products" = Some (VArr (Product_toJSON <$> catalog)).
Proof.
  intros Hfile Hkey Hread Hgen. cbv zeta.
  assert (Hrun : ∃ st : Inventory.t * Browser.t,
    handleFileUpload_during during_read during_call env (inv, b)
    = (Inventory.setIsUploading false
         (Inventory.setUploadStatus (STATUS_EXTRACTED (length objects))
            (Inventory.setProducts
               (Inventory.products inv ++ extractedProducts env file base64Data objects) st.1)),
       Browser.write "products"
         (VArr (Product_toJSON <$>
                  Inventory.products inv ++ extractedProducts env file base64Data objects))
         st.2)).
  { unfold handleFileUpload_during. rewrite Hfile, Hkey.
    cbn [negb fst snd]. unfold try_catch_finally, upload_try_during.
    unfold proc_bind at 1.
    set (start := (Inventory.setUploadStatus STATUS_ANALYSING
                     (Inventory.setIsUploading true inv), b)).
    pose proof (upload_read_during_ok during_read env file base64Data start Hread) as Hok.
    destruct (upload_read_during during_read env file start) as [[d|] st];
      simpl in Hok; [|discriminate Hok].
    injection Hok as ->. unfold proc_bind at 1. unfold modify at 1.
    rewrite (upload_respond_products env file _ base64Data _ objects Hgen).
    by exists (during_call st). }
  destruct Hrun as [st ->].
  split; [reflexivity|]. simpl. unfold setItem. apply lookup_insert_eq.
Qed.

Lemma extractedProducts_id_lookup (env : UploadEnv.t) (file : File.t) (base64Data : string)
    (objects : list Extracted.t) (i : nat) :
  (Product.id <$> extractedProducts env file base64Data objects) !! i
  = (λ _, UploadEnv.generateId env i) <$> objects !! i.
Proof.
  unfold extractedProducts. rewrite list_lookup_fmap, list_lookup_imap.
  by destruct (objects !! i).
Qed.

(** C6, as stated, fails: the id given to a new product is not fresh.
    It is what [generateId()] returns, and nothing compares it with the
    ids of the catalog or of the other new products. When it returns an
    id of the catalog, the catalog holds that id three times after an
    upload of two entries. *)
Lemma handleFileUpload_id_counterexample :
  let file := File.mk "offer.png" "image/png" in
  let url := "data:image/png;base64,AAAA" in
  let entries := [Extracted.mk None (Some "Pump") None (Some (lit 100));
                  Extracted.mk (Some "V-2") None (Some "brass") None] in
  let env := UploadEnv.mk (Some file) (Some "key") Rejected Rejected (Fulfilled url)
               (Fulfilled (Json (Products (Some <$> entries)))) (λ _, "p1") in
  let old := Product.mk "p1" "C-1" "Filter" "" (lit 7) None in
  let inv := Inventory.mk [old] false "" None in
  let result := handleFileUpload_during (λ st, st) (λ st, st) env (inv, Browser.mk ∅ []) in
  Product.id <$> Inventory.products inv = ["p1"] ∧
  Product.id <$> Inventory.products result.1 = ["p1"; "p1"; "p1"] ∧
  ¬ NoDup (Product.id <$> Inventory.products result.1).
Proof.
  cbv zeta. split; [reflexivity|]. split; [reflexivity|].
  change (Product.id <$> Inventory.products (handleFileUpload_during _ _ _ _).1)
    with ["p1"; "p1"; "p1"].
  intros H. apply NoDup_cons in H as [H _]. apply H, list_elem_of_here.
Qed.

(** The handler writes from the catalog of the render it was called in:
    a product deleted while the service is called is back after the
    upload. *)
Example upload_after_concurrent_delete :
  let file := File.mk "offer.png" "image/png" in
  let url := "data:image/png;base64,AAAA" in
  let env := UploadEnv.mk (Some file) (Some "key") Rejected Rejected (Fulfilled url)
               (Fulfilled (Json (Products [Some (Extracted.mk None (Some "Pump") None None)])))
               (λ i, "id" +:+ pretty i) in
  let old := Product.mk "p1" "C-1" "Filter" "" (lit 7) None in
  let inv := Inventory.mk [old] false "" None in
  let result :=
    handleFileUpload_during (λ st, st) (handleDelete "p1" true) env (inv, Browser.mk ∅ []) in
  Product.id <$> Inventory.products result.1 = ["p1"; "id0"].
Proof. reflexivity. Qed.

(** C6, amended. When the answer of the service parses to a list of
    product entries, and nothing else changes the catalog while the
    upload is pending, the upload turns each entry, in order, into one
    product and appends them to the catalog, in memory and in the
    [products] record. The product of an entry has the id that
    [generateId()] returned for it, which nothing checks against the
    other ids: the ids of the catalog stay distinct when [generateId()]
    returns ids that differ from one another and from those of the
    catalog. Its code and its name are those of the entry when they are
    present and not empty, and ["N/A"] and the placeholder name
    otherwise; its description is that of the entry, or the empty string
    when it is missing; its price is that of the entry when it is a
    number other than [0], and [0] otherwise. Every new product carries
    the uploaded file's data URL as its image when the upload is an image
    (not a Word document, of an image type, with a non-empty data URL),
    and no image otherwise. *)
Theorem handleFileUpload_extracted_products
    (during_read during_call : Inventory.t * Browser.t → Inventory.t * Browser.t)
    (env : UploadEnv.t) (file : File.t) (inv : Inventory.t) (b : Browser.t)
    (base64Data : string) (objects : list Extracted.t) :
  UploadEnv.file env = Some file →
  truthy (UploadEnv.API_KEY env) = true →
  file_read env file base64Data →
  UploadEnv.generateContent env = Fulfilled (Json (Products (Some <$> objects))) →
  catalog_kept during_read →
  catalog_kept during_call →
  let result := handleFileUpload_during during_read during_call env (inv, b) in
  ∃ batch,
    Inventory.products result.1 = Inventory.products inv ++ batch ∧
    Browser.localStorage result.2 !! "products"
      = Some (VArr (Product_toJSON <$> Inventory.products inv ++ batch)) ∧
    length batch = length objects ∧
    (NoDup (Product.id <$> Inventory.products inv) →
     (∀ i, (i < length objects)%nat →
        UploadEnv.generateId env i ∉ Product.id <$> Inventory.products inv) →
     (∀ i j, (i < length objects)%nat → (j < length objects)%nat →
        UploadEnv.generateId env i = UploadEnv.generateId env j → i = j) →
     NoDup (Product.id <$> Inventory.products result.1)) ∧
    ∀ i entry, objects !! i = Some entry →
      ∃ p, batch !! i = Some p ∧
        Product.id p = UploadEnv.generateId env i ∧
        (∀ c, Extracted.code entry = Some c → c ≠ "" → Product.code p = c) ∧
        (Extracted.code entry = None ∨ Extracted.code entry = Some "" →
           Product.code p = "N/A") ∧
        (∀ n, Extracted.name entry = Some n → n ≠ "" → Product.name p = n) ∧
        (Extracted.name entry = None ∨ Extracted.name entry = Some "" →
           Product.name p = NEW_PRODUCT_NAME) ∧
        (∀ d, Extracted.description entry = Some d → Product.description p = d) ∧
        (Extracted.description entry = None → Product.description p = "") ∧
        (∀ q, Extracted.price entry = Some (Num q) → q ≠ 0 → Product.price p = Num q) ∧
        (Extracted.price entry = None ∨ Extracted.price entry = Some NaN ∨
         Extracted.price entry = Some (Num 0) → Product.price p = lit 0) ∧
        (image_upload file → base64Data ≠ "" → Product.image p = Some base64Data) ∧
        (∀ image, Product.image p = Some image → image_upload file ∧ image = base64Data).
Proof.
  intros Hfile Hkey Hread Hgen _ _. cbv zeta.
  destruct (handleFileUpload_during_products during_read during_call env file inv b
              base64Data objects Hfile Hkey Hread Hgen) as [Hproducts Hrecord].
  exists (extractedProducts env file base64Data objects).
  split; [exact Hproducts|]. split; [exact Hrecord|]. split; [apply length_imap|].
  split.
  { intros Hold Hnew Hinj. rewrite Hproducts, fmap_app. apply NoDup_app.
    split; [exact Hold|]. split.
    - intros x Hx Hin. apply list_elem_of_lookup_1 in Hin as [i Hi].
      rewrite extractedProducts_id_lookup in Hi.
      destruct (objects !! i) eqn:Ho; [|done]. injection Hi as <-.
      apply (Hnew i); [by eapply lookup_lt_Some|done].
    - apply NoDup_alt. intros i j x Hi Hj.
      rewrite extractedProducts_id_lookup in Hi, Hj.
      destruct (objects !! i) eqn:Hoi; [|done]. destruct (objects !! j) eqn:Hoj; [|done].
      injection Hi as <-. injection Hj as Hj.
      apply Hinj; [by eapply lookup_lt_Some..|done]. }
  intros i entry Hentry.
  exists (extractedProduct (UploadEnv.generateId env i) (keptImage file base64Data) entry).
  split; [unfold extractedProducts; by rewrite list_lookup_imap, Hentry|].
  destruct (keptImage_spec file base64Data) as [Hattach Honly].
  destruct entry as [code name description price].
  cbn [extractedProduct Product.id Product.code Product.name Product.description Product.price
       Product.image Extracted.code Extracted.name Extracted.description Extracted.price].
  unfold js_or_undef, js_or.
  split; [reflexivity|].
  split; [intros c -> Hc; unfold truthy, string_truthy; by rewrite bool_decide_eq_false_2|].
  split; [by intros [-> | ->]|].
  split; [intros n -> Hn; unfold truthy, string_truthy; by rewrite bool_decide_eq_false_2|].
  split; [by intros [-> | ->]|].
  split; [intros d ->; unfold truthy, string_truthy; by destruct (bool_decide (d = ""))
            eqn:Hd; [apply bool_decide_eq_true in Hd|]|].
  split; [by intros ->|].
  split; [intros q -> Hq; unfold truthy, number_truthy; by rewrite bool_decide_eq_false_2|].
  split.
  { intros [-> | [-> | ->]]; [reflexivity..|].
    unfold truthy, number_truthy. by rewrite bool_decide_eq_true_2 by reflexivity. }
  split; [exact Hattach|].
  intros image Himage. destruct (Honly image Himage) as (Hup & Heq & _). by split.
Qed.

Lemma handleFileUpload_extracted_products_witness :
  let file := File.mk "offer.png" "image/png" in
  let url := "data:image/png;base64,AAAA" in
  let entries := [Extracted.mk None (Some "Pump") None (Some (lit 100));
                  Extracted.mk (Some "V-2") None (Some "brass") None] in
  let env := UploadEnv.mk (Some file) (Some "key") Rejected Rejected (Fulfilled url)
               (Fulfilled (Json (Products (Some <$> entries)))) (λ i, "id" +:+ pretty i) in
  let old := Product.mk "p1" "C-1" "Filter" "" (lit 7) None in
  let inv := Inventory.mk [old] false "" None in
  let b := Browser.mk ∅ [] in
  let typing (st : Inventory.t * Browser.t) :=
    (Inventory.setEditingProduct (Some old) st.1, st.2) in
  ∃ batch,
    Inventory.products (handleFileUpload_during typing typing env (inv, b)).1 = [old] ++ batch ∧
    length batch = 2%nat.
Proof.
  intros file url entries env old inv b typing.
  destruct (handleFileUpload_extracted_products typing typing env file inv b url entries
              eq_refl eq_refl (read_other env file url eq_refl eq_refl) eq_refl)
    as (batch & Hproducts & _ & Hlength & _).
  - intros st. reflexivity.
  - intros st. reflexivity.
  - exists batch. split; [exact Hproducts|exact Hlength].
Defined.

(** The scenario of the specification: an image upload whose answer
    omits the code of an entry. *)
Example upload_scenario :
  let file := File.mk "offer.png" "image/png" in
  let url := "data:image/png;base64,AAAA" in
  let env := UploadEnv.mk (Some file) (Some "key") Rejected Rejected (Fulfilled url)
               (Fulfilled (Json (Products [Some (Extracted.mk None (Some "Pump") None None)])))
               (λ i, "id" +:+ pretty i) in
  handleFileUpload env (Inventory.mk [] false "" None, Browser.mk ∅ [])
  = (Inventory.mk [Product.mk "id0" "N/A" "Pump" "" (lit 0) (Some url)] false
       (STATUS_EXTRACTED 1) None,
     Browser.mk
       (<["products" := VArr [VObj [("id", VStr "id0"); ("code", VStr "N/A");
                                     ("name", VStr "Pump"); ("description", VStr "");
                                     ("price", VNum (Qc_of_Z 0)); ("image", VStr url)]]]> ∅)
       []).
Proof. reflexivity. Qed.

(** ** Objects *)





(** ** Loading the settings *)

Example own_props_array : own_props (VArr [VNull; VBool true]) = [("0", VNull); ("1", VBool true)].
Proof. reflexivity. Qed.

(** A stored record from before the table could be configured. *)
Example loadSettings_old_record :
  loadSettings (VObj [("companyLogo", VStr ""); ("taxRate", VNum (Qc_of_Z 5))])
  = Some [("companyLogo", VStr ""); ("taxRate", VNum (Qc_of_Z 5));
          ("themeColor", VStr DEFAULT_COLOR); ("showImageColumn", VBool true);
          ("tableConfig", TableConfig_toJSON DEFAULT_TABLE_CONFIG)].
Proof. reflexivity. Qed.

(** A stored font size is kept, and the other fields of the table
    configuration get their default. *)
Example loadSettings_partial_tableConfig :
  loadSettings (VObj [("tableConfig", VObj [("fontSize", VNum (Qc_of_Z 20))])])
  = Some [("tableConfig",
           VObj [("imageWidth", VNum (Qc_of_Z 10)); ("itemWidth", VNum (Qc_of_Z 15));
                 ("priceWidth", VNum (Qc_of_Z 15)); ("qtyWidth", VNum (Qc_of_Z 10));
                 ("totalWidth", VNum (Qc_of_Z 10)); ("rowPadding", VNum (Qc_of_Z 8));
                 ("fontSize", VNum (Qc_of_Z 20))]);
          ("themeColor", VStr DEFAULT_COLOR); ("showImageColumn", VBool true)].
Proof. reflexivity. Qed.


Lemma loadSettings_null : loadSettings VNull = None.
Proof. reflexivity. Qed.





(** After a backup and a restore on a store that holds no settings, the
    editor mounts with settings that have no tax rate. *)
Example restored_settings_lack_taxRate :
  let b := Browser.mk ∅ [] in
  let b' := handleRestore (Some (JsonText (handleBackup b))) b in
  ∃ settings,
    mountedSettings (Browser.localStorage b') = Some settings ∧
    obj_get "taxRate" settings = None ∧
    (∃ v, obj_get "taxRate" (default [] (mountedSettings (Browser.localStorage b))) = Some v).
Proof. eexists. repeat split. by eexists. Qed.

(* ===================================================================== *)
(** * Further properties of the invoice editor *)
(* ===================================================================== *)

(** ** Rows and their ids *)

Lemma removeItem_items (id : string) (s : Editor.t) :
  InvoiceData.items (Editor.data (removeItem id s))
  = filter (λ i, InvoiceItem.id i ≠ id) (InvoiceData.items (Editor.data s)).
Proof. reflexivity. Qed.

Lemma filter_all {A} (P : A → Prop) `{∀ x, Decision (P x)} (l : list A) :
  Forall P l → filter P l = l.
Proof.
  induction 1 as [|x l Hx _ IH]; [reflexivity|].
  rewrite filter_cons_True by exact Hx. by rewrite IH.
Qed.

Lemma InvoiceData_with_items_same (d : InvoiceData.t) :
  InvoiceData.with_items (InvoiceData.items d) d = d.
Proof. by destruct d. Qed.

(** X1. Removing the row just added gives back the rows with a different
    id, in their order; when no row had the new id, the document is
    exactly what it was. Removing an id twice is removing it once. *)
Theorem removeItem_undoes_addItem (gid : string) (product : option Product.t) (s : Editor.t) :
  InvoiceData.items (Editor.data (removeItem gid (addItem gid product s)))
    = filter (λ i, InvoiceItem.id i ≠ gid) (InvoiceData.items (Editor.data s)) ∧
  (Forall (λ i, InvoiceItem.id i ≠ gid) (InvoiceData.items (Editor.data s)) →
   Editor.data (removeItem gid (addItem gid product s)) = Editor.data s) ∧
  (∀ id, removeItem id (removeItem id s) = removeItem id s).
Proof.
  assert (Hitems :
    InvoiceData.items (Editor.data (removeItem gid (addItem gid product s)))
    = filter (λ i, InvoiceItem.id i ≠ gid) (InvoiceData.items (Editor.data s))).
  { rewrite removeItem_items, addItem_items, filter_app.
    rewrite (filter_cons_False _ (newItem gid product)) by (simpl; tauto).
    rewrite filter_nil. apply app_nil_r. }
  split; [exact Hitems|]. split.
  - intros Hfresh. rewrite (filter_all _ _ Hfresh) in Hitems.
    destruct s as [d drafts settings picker query]. simpl in *.
    unfold InvoiceData.with_items in *. simpl in *. destruct d; simpl in *. by f_equal.
  - intros id. destruct s as [d drafts settings picker query].
    unfold removeItem, Editor.setData, InvoiceData.with_items. simpl.
    do 2 f_equal. apply filter_all. apply Forall_forall.
    intros i Hi. by apply list_elem_of_filter in Hi as [Hne _].
Qed.

Lemma removeItem_undoes_addItem_witness :
  let row := InvoiceItem.mk "r1" None "hose" "H-1" (lit 12) (lit 3) None in
  let s := Editor.mk (InvoiceData.mk None "Ann" "R1" "01/01/2025" [row] "" None) []
             INITIAL_SETTINGS false "" in
  Editor.data (removeItem "r2" (addItem "r2" None s)) = Editor.data s.
Proof.
  intros row s.
  apply (proj1 (proj2 (removeItem_undoes_addItem "r2" None s))).
  repeat constructor. discriminate.
Defined.

(** ** Subtotal and total under the edits of a row *)

Lemma nmul_1_r (a : number) : nmul a (lit 1) = a.
Proof. destruct a; simpl; [reflexivity|]. rewrite Qc_of_Z_1. f_equal. ring. Qed.

Lemma sum_price_qty_fmap (f : InvoiceItem.t → InvoiceItem.t) (l : list InvoiceItem.t) :
  (∀ i, InvoiceItem.price (f i) = InvoiceItem.price i ∧
        InvoiceItem.qty (f i) = InvoiceItem.qty i) →
  sum_price_qty (f <$> l) = sum_price_qty l.
Proof.
  intros Hf. induction l as [|i l IH]; [reflexivity|].
  simpl. destruct (Hf i) as [-> ->]. by rewrite <- IH.
Qed.

Lemma calculateSubtotal_text_patch (id : string) (u : InvoiceItem.patch) (s : Editor.t) :
  text_patch u → calculateSubtotal (updateItem id u s) = calculateSubtotal s.
Proof.
  intros Hu. rewrite !calculateSubtotal_sum. simpl.
  apply sum_price_qty_fmap. intros i.
  destruct (decide (InvoiceItem.id i = id)); [|done].
  by destruct u.
Qed.

Lemma calculateTotal_from_subtotal (s s' : Editor.t) :
  calculateSubtotal s' = calculateSubtotal s →
  Editor.settings s' = Editor.settings s →
  calculateTotal s' = calculateTotal s.
Proof. intros Hsub Hset. unfold calculateTotal. by rewrite Hsub, Hset. Qed.

(** X2. A blank row adds nothing to the subtotal and the total; a row
    picked from the catalog adds the product's price, or nothing when
    that price is [0] or [NaN]; typing in the code or the description of
    a row, or giving it an image, changes neither subtotal nor total. *)
Theorem totals_under_row_edits (s : Editor.t) :
  (∀ gid, calculateSubtotal (addItem gid None s) = calculateSubtotal s ∧
          calculateTotal (addItem gid None s) = calculateTotal s) ∧
  (∀ gid p, calculateSubtotal (addItem gid (Some p) s)
            = nadd (calculateSubtotal s) (js_or (Product.price p) (lit 0))) ∧
  (∀ id text, calculateSubtotal (updateItem id (InvoiceItem.ItemCode text) s) = calculateSubtotal s ∧
              calculateTotal (updateItem id (InvoiceItem.ItemCode text) s) = calculateTotal s) ∧
  (∀ id text, calculateSubtotal (updateItem id (InvoiceItem.Description text) s) = calculateSubtotal s ∧
              calculateTotal (updateItem id (InvoiceItem.Description text) s) = calculateTotal s) ∧
  (∀ id image, calculateSubtotal (updateItem id (InvoiceItem.Image image) s) = calculateSubtotal s ∧
               calculateTotal (updateItem id (InvoiceItem.Image image) s) = calculateTotal s).
Proof.
  assert (Hblank : ∀ gid, calculateSubtotal (addItem gid None s) = calculateSubtotal s).
  { intros gid. rewrite calculateSubtotal_addItem, nmul_1_r. apply nadd_0_r. }
  split; [|split; [|split; [|split]]].
  - intros gid. split; [apply Hblank|]. by apply calculateTotal_from_subtotal.
  - intros gid p. by rewrite calculateSubtotal_addItem, nmul_1_r.
  - intros id text. split; [by apply calculateSubtotal_text_patch|].
    apply calculateTotal_from_subtotal; [by apply calculateSubtotal_text_patch|done].
  - intros id text. split; [by apply calculateSubtotal_text_patch|].
    apply calculateTotal_from_subtotal; [by apply calculateSubtotal_text_patch|done].
  - intros id image. split; [by apply calculateSubtotal_text_patch|].
    apply calculateTotal_from_subtotal; [by apply calculateSubtotal_text_patch|done].
Qed.

(** ** The width of the whole table *)

Lemma Qc_of_Z_add (a b : Z) : Qc_of_Z a + Qc_of_Z b = Qc_of_Z (a + b).
Proof.
  apply Qc_is_canon. simpl. rewrite Qred_correct.
  unfold Qeq, Qplus, inject_Z. simpl. lia.
Qed.

Lemma description_fits (u : Qc) : u ≤ Qc_of_Z 90 ↔ Qc_of_Z 10 ≤ Qc_of_Z 100 - u.
Proof.
  rewrite (Qcplus_le_mono_r (Qc_of_Z 10) _ u).
  replace (Qc_of_Z 100 - u + u) with (Qc_of_Z 100) by ring.
  rewrite (Qcplus_le_mono_l u _ (Qc_of_Z 10)).
  by rewrite Qc_of_Z_add.
Qed.

(** X5. When the widths in use sum to a number [u], the columns shown
    in the table fill exactly 100% as long as [u] is at most 90: the
    description column takes [100 - u]. Beyond 90 the description column
    stays at 10 and the table is [u + 10] wide, more than 100%. *)
Theorem table_width (settings : AppSettings.t) (u : Qc) :
  usedWidth settings = Num u →
  (u ≤ Qc_of_Z 90 →
   descriptionWidth settings = Num (Qc_of_Z 100 - u) ∧
   nadd (usedWidth settings) (descriptionWidth settings) = lit 100) ∧
  (Qc_of_Z 90 < u →
   descriptionWidth settings = lit 10 ∧
   nadd (usedWidth settings) (descriptionWidth settings) = Num (u + Qc_of_Z 10) ∧
   Qc_of_Z 100 < u + Qc_of_Z 10).
Proof.
  intros Hu. unfold descriptionWidth. rewrite Hu. simpl. unfold Qcmax. split.
  - intros Hfit. rewrite decide_True by (by apply description_fits).
    split; [reflexivity|]. unfold lit. f_equal. ring.
  - intros Hwide. rewrite decide_False.
    + split; [reflexivity|]. split; [reflexivity|].
      replace (Qc_of_Z 100) with (Qc_of_Z 90 + Qc_of_Z 10) by apply Qc_of_Z_add.
      by apply Qcplus_lt_mono_r.
    + rewrite <- description_fits. by apply Qclt_not_le.
Qed.

Lemma table_width_witness :
  descriptionWidth INITIAL_SETTINGS = Num (Qc_of_Z 100 - Qc_of_Z 60) ∧
  nadd (usedWidth INITIAL_SETTINGS) (descriptionWidth INITIAL_SETTINGS) = lit 100.
Proof.
  apply (table_width INITIAL_SETTINGS (Qc_of_Z 60)).
  - closed_number.
  - intros H. vm_compute in H. discriminate H.
Defined.

(** ** Deleting and loading drafts *)

Lemma filter_without_middle {A} (P : A → Prop) `{∀ x, Decision (P x)}
    (before after : list A) (x : A) :
  ¬ P x → filter P (before ++ x :: after) = filter P before ++ filter P after.
Proof. intros Hx. by rewrite filter_app, filter_cons_False. Qed.

(** X6. Saving the document and then deleting the draft it was filed
    under leaves the drafts that were filed under another id, in their
    order; when the id was new, the collection is what it was before the
    save. The list left is the one written to [localStorage], and the
    open document keeps its id. Deleting with an undefined id (a draft
    that has none) removes the drafts without id and only those, and a
    delete that is not confirmed changes nothing. *)
Theorem handleDeleteDraft_after_save (gid now : string) (s : Editor.t) (b : Browser.t) :
  let i := draftId gid (Editor.data s) in
  let saved := handleSaveDraft gid now (s, b) in
  let deleted := handleDeleteDraft (Some i) true saved in
  Editor.savedDrafts deleted.1
    = filter (λ d, InvoiceData.id d ≠ Some i) (Editor.savedDrafts s) ∧
  (Forall (λ d, ¬ filed_under i d) (Editor.savedDrafts s) →
   Editor.savedDrafts deleted.1 = Editor.savedDrafts s) ∧
  Browser.localStorage deleted.2 !! "invoiceDrafts"
    = Some (VArr (InvoiceData_toJSON <$> Editor.savedDrafts deleted.1)) ∧
  InvoiceData.id (Editor.data deleted.1) = Some i ∧
  (∀ d, d ∈ Editor.savedDrafts (handleDeleteDraft None true (s, b)).1 ↔
        d ∈ Editor.savedDrafts s ∧ is_Some (InvoiceData.id d)) ∧
  (∀ id, handleDeleteDraft id false (s, b) = (s, b)).
Proof.
  cbv zeta.
  assert (Hfilter :
    Editor.savedDrafts
      (handleDeleteDraft (Some (draftId gid (Editor.data s))) true
         (handleSaveDraft gid now (s, b))).1
    = filter (λ d, InvoiceData.id d ≠ Some (draftId gid (Editor.data s)))
        (Editor.savedDrafts s)).
  { simpl.
    destruct (savedDrafts_cases (draftId gid (Editor.data s)) (Editor.savedDrafts s))
      as [Hnone|(before & old & after & Hl & Hb & Ho)].
    - rewrite (updatedDrafts_new gid now s Hnone).
      by rewrite filter_cons_False by (simpl; tauto).
    - rewrite (updatedDrafts_existing gid now s before old after Hl Hb Ho), Hl.
      rewrite !filter_without_middle; [done| |simpl; tauto].
      unfold filed_under in Ho. tauto. }
  split; [exact Hfilter|]. split; [|split; [|split; [|split]]].
  - intros Hnone. rewrite Hfilter. by apply filter_all.
  - simpl. unfold setItem. apply lookup_insert_eq.
  - reflexivity.
  - intros d. simpl. rewrite list_elem_of_filter, <- not_eq_None_Some. tauto.
  - reflexivity.
Qed.

Lemma handleDeleteDraft_after_save_witness :
  let d1 := InvoiceData.mk (Some "a") "Ann" "R1" "01/01/2025" [] "" (Some "t0") in
  let fresh := InvoiceData.mk None "Dee" "R4" "02/01/2025" [] "" None in
  let s := Editor.mk fresh [d1] INITIAL_SETTINGS false "" in
  let b := Browser.mk ∅ [] in
  Editor.savedDrafts (handleDeleteDraft (Some "n") true (handleSaveDraft "n" "t1" (s, b))).1
  = [d1].
Proof.
  intros d1 fresh s b.
  apply (proj1 (proj2 (handleDeleteDraft_after_save "n" "t1" s b))).
  repeat constructor. intros H. vm_compute in H. discriminate H.
Defined.

Lemma apply_op_savedDrafts (s : Editor.t) (op : item_op) :
  Editor.savedDrafts (apply_op s op) = Editor.savedDrafts s.
Proof. destruct op; reflexivity. Qed.

Lemma apply_ops_savedDrafts (ops : list item_op) (s : Editor.t) :
  Editor.savedDrafts (apply_ops ops s) = Editor.savedDrafts s.
Proof.
  revert s. induction ops as [|op ops IH]; intros s; [reflexivity|].
  unfold apply_ops in *. simpl. rewrite IH. apply apply_op_savedDrafts.
Qed.

(** Saving a document that carries the id of a draft of the list keeps
    the list's length. *)
Lemma resave_length (gid now gid' now' : string) (s s' : Editor.t) :
  Editor.data s' = draftToSave gid now (Editor.data s) →
  Editor.savedDrafts s' = updatedDrafts gid now s →
  draftId gid (Editor.data s) ≠ "" →
  length (updatedDrafts gid' now' s') = length (updatedDrafts gid now s).
Proof.
  intros Hdata Hdrafts Hid.
  assert (Hin : draftToSave gid now (Editor.data s) ∈ Editor.savedDrafts s')
    by (rewrite Hdrafts; apply draftToSave_in_updatedDrafts).
  assert (Hd : draftId gid' (Editor.data s') = draftId gid (Editor.data s))
    by (rewrite Hdata; by apply draftId_truthy).
  destruct (savedDrafts_cases (draftId gid (Editor.data s)) (Editor.savedDrafts s'))
    as [Hnone|(before & old & after & Hl & Hb & Ho)].
  - rewrite Forall_forall in Hnone. by destruct (Hnone _ Hin).
  - rewrite <- Hd in Hb, Ho.
    rewrite (updatedDrafts_existing gid' now' s' before old after Hl Hb Ho).
    rewrite <- Hdrafts, Hl, !length_app. reflexivity.
Qed.

(** X7. The document just saved is in the drafts list. After any
    further item operations, loading it from the list brings the editor
    back to the saved document: the same rows, the subtotal of the time
    of the save, which is also the total shown on the draft's card; the
    dialog is closed and the list of drafts is untouched. Saving again
    right away keeps the collection's length when the document's id is
    not empty. A load that is not confirmed changes nothing. *)
Theorem handleLoadDraft_restores_saved
    (gid now gid' now' : string) (u : EditorUI.t) (b : Browser.t) (ops : list item_op) :
  let saved := handleSaveDraft gid now (EditorUI.core u, b) in
  let doc := Editor.data saved.1 in
  let edited := EditorUI.setCore (λ _, apply_ops ops saved.1) u in
  let loaded := handleLoadDraft doc true edited in
  doc ∈ Editor.savedDrafts saved.1 ∧
  Editor.data (EditorUI.core loaded) = doc ∧
  calculateSubtotal (EditorUI.core loaded) = calculateSubtotal saved.1 ∧
  calculateSubtotal (EditorUI.core loaded) = draftPreviewTotal doc ∧
  EditorUI.showDrafts loaded = false ∧
  Editor.savedDrafts (EditorUI.core loaded) = Editor.savedDrafts saved.1 ∧
  (draftId gid (Editor.data (EditorUI.core u)) ≠ "" →
   length (Editor.savedDrafts (handleSaveDraft gid' now' (EditorUI.core loaded, saved.2)).1)
   = length (Editor.savedDrafts saved.1)) ∧
  handleLoadDraft doc false edited = edited.
Proof.
  cbv zeta.
  assert (Hin : draftToSave gid now (Editor.data (EditorUI.core u))
                ∈ updatedDrafts gid now (EditorUI.core u))
    by apply draftToSave_in_updatedDrafts.
  split; [exact Hin|]. split; [reflexivity|]. split; [reflexivity|].
  split; [reflexivity|]. split; [reflexivity|].
  split; [cbn -[apply_ops handleSaveDraft]; apply apply_ops_savedDrafts|]. split; [|reflexivity].
  intros Hid. apply resave_length; [reflexivity| |exact Hid].
  cbn -[apply_ops updatedDrafts]. by rewrite apply_ops_savedDrafts.
Qed.

Lemma handleLoadDraft_restores_saved_witness :
  let row := InvoiceItem.mk "r1" None "hose" "H-1" (lit 12) (lit 3) None in
  let s := Editor.mk (InvoiceData.mk None "Ann" "R1" "01/01/2025" [row] "" None) []
             INITIAL_SETTINGS false "" in
  let u := EditorUI.mk s [] [] true None in
  let saved := handleSaveDraft "n" "t1" (s, Browser.mk ∅ []) in
  let loaded := handleLoadDraft (Editor.data saved.1) true
                  (EditorUI.setCore (λ _, apply_ops [RemoveItem "r1"] saved.1) u) in
  length (Editor.savedDrafts (handleSaveDraft "m" "t2" (EditorUI.core loaded, saved.2)).1)
  = 1%nat.
Proof.
  intros row s u saved loaded.
  apply (proj1 (proj2 (proj2 (proj2 (proj2 (proj2 (proj2
    (handleLoadDraft_restores_saved "n" "t1" "m" "t2" u (Browser.mk ∅ []) [RemoveItem "r1"])))))))).
  discriminate.
Defined.

(** ** Further properties of the inventory *)

Lemma edit_step_products (parseFloat : string → number) (s : Inventory.t) (ev : edit_event) :
  Inventory.products (edit_step parseFloat s ev) = Inventory.products s.
Proof.
  unfold edit_step, onEditPriceChange.
  destruct ev, (Inventory.editingProduct s); reflexivity.
Qed.

Lemma edit_steps_products (parseFloat : string → number) (evs : list edit_event)
    (s : Inventory.t) :
  Inventory.products (fold_left (edit_step parseFloat) evs s) = Inventory.products s.
Proof.
  revert s. induction evs as [|ev evs IH]; intros s; [reflexivity|].
  simpl. rewrite IH. apply edit_step_products.
Qed.

Lemma handleEditSave_editing (e : Product.t) (inv : Inventory.t) (b : Browser.t) :
  Inventory.editingProduct inv = Some e →
  handleEditSave (inv, b)
  = let updatedProducts :=
      (λ p, if decide (Product.id p = Product.id e) then e else p) <$> Inventory.products inv in
    (Inventory.mk updatedProducts (Inventory.isUploading inv) (Inventory.uploadStatus inv) None,
     Browser.write "products" (VArr (Product_toJSON <$> updatedProducts)) b).
Proof. intros He. unfold handleEditSave. simpl. by rewrite He. Qed.

Lemma handleEditSave_closed (inv : Inventory.t) (b : Browser.t) :
  Inventory.editingProduct inv = None → handleEditSave (inv, b) = (inv, b).
Proof. intros He. unfold handleEditSave. simpl. by rewrite He. Qed.

Lemma replaced_ids (e : Product.t) (l : list Product.t) :
  Product.id <$> ((λ p, if decide (Product.id p = Product.id e) then e else p) <$> l)
  = Product.id <$> l.
Proof.
  induction l as [|p l IH]; [reflexivity|].
  rewrite !fmap_cons, IH. f_equal. by destruct (decide _).
Qed.

(** X8. Whatever was typed in the edit modal, and for whichever product
    it was opened, saving keeps the number of products, their order and
    the id at every position; the modal is closed. With a product [e] in
    the modal, every product that has the id of [e] becomes [e] (every
    one of them when the id is shared), the others are untouched, and the
    catalog written to the [products] record is the one in memory.
    With no product in the modal, nothing changes. *)
Theorem handleEditSave_keeps_ids
    (parseFloat : string → number) (evs : list edit_event) (inv : Inventory.t) (b : Browser.t) :
  let edited := fold_left (edit_step parseFloat) evs inv in
  let saved := handleEditSave (edited, b) in
  Product.id <$> Inventory.products saved.1 = Product.id <$> Inventory.products inv ∧
  Inventory.editingProduct saved.1 = None ∧
  (∀ e, Inventory.editingProduct edited = Some e →
     (∀ i p, Inventory.products inv !! i = Some p →
        Inventory.products saved.1 !! i
        = Some (if decide (Product.id p = Product.id e) then e else p)) ∧
     Browser.localStorage saved.2 !! "products"
       = Some (VArr (Product_toJSON <$> Inventory.products saved.1))) ∧
  (Inventory.editingProduct edited = None →
     saved = (edited, b) ∧ Inventory.products saved.1 = Inventory.products inv).
Proof.
  cbv zeta.
  pose proof (edit_steps_products parseFloat evs inv) as Hprod.
  destruct (Inventory.editingProduct (fold_left (edit_step parseFloat) evs inv))
    as [e|] eqn:He.
  - rewrite (handleEditSave_editing e _ b He). cbv zeta. cbn [fst snd Inventory.products
      Inventory.editingProduct]. rewrite Hprod.
    split; [apply replaced_ids|]. split; [reflexivity|]. split; [|discriminate].
    intros e' [= <-]. split.
    + intros i p Hi. by rewrite list_lookup_fmap, Hi.
    + cbn. unfold setItem. apply lookup_insert_eq.
  - rewrite (handleEditSave_closed _ b He). cbn [fst snd]. rewrite Hprod.
    split; [reflexivity|]. split; [exact He|]. split; [discriminate|].
    intros _. by split.
Qed.

Lemma handleEditSave_keeps_ids_witness :
  let p := Product.mk "p1" "C-1" "Pump" "" (lit 100) None in
  let q := Product.mk "p2" "C-2" "Valve" "" (lit 40) None in
  let inv := Inventory.mk [p; q] false "" None in
  let evs := [OpenEdit p; TypeName "Pump XL"; TypeProductPrice "120"] in
  let parseFloat := λ _ : string, lit 120 in
  Inventory.products
    (handleEditSave (fold_left (edit_step parseFloat) evs inv, Browser.mk ∅ [])).1 !! 1%nat
  = Some q.
Proof.
  intros p q inv evs parseFloat.
  exact (proj1 (proj1 (proj2 (proj2
    (handleEditSave_keeps_ids parseFloat evs inv (Browser.mk ∅ [])))) _ eq_refl)
    1%nat q eq_refl).
Defined.

(** The four handlers of the page, one by one. *)
Lemma inventory_step_cases (parseFloat : string → number) (sb : Inventory.t * Browser.t)
    (ev : inventory_event) :
  let sb' := inventory_step parseFloat sb ev in
  (Browser.localStorage sb'.2 = Browser.localStorage sb.2 ∧
   Inventory.products sb'.1 = Inventory.products sb.1) ∨
  (∃ catalog,
     Inventory.products sb'.1 = catalog ∧
     Browser.localStorage sb'.2
       = <["products" := VArr (Product_toJSON <$> catalog)]> (Browser.localStorage sb.2)).
Proof.
  destruct sb as [inv b]. destruct ev as [ev| |id confirmed|env]; cbv zeta.
  - left. split; [reflexivity|]. apply edit_step_products.
  - cbn [inventory_step]. destruct (Inventory.editingProduct inv) as [e|] eqn:He.
    + right. rewrite (handleEditSave_editing e inv b He). by eexists.
    + left. by rewrite (handleEditSave_closed inv b He).
  - destruct confirmed; [right; by eexists|by left].
  - cbn [inventory_step].
    destruct (handleFileUpload_all_or_nothing env inv b)
      as [H|(file & base64Data & objects & _ & _ & Hp & _ & Hb)]; [by left|].
    right. eexists. split; [exact Hp|]. by rewrite Hb.
Qed.

(** X9. On the inventory page the catalog in memory and the [products]
    record never part: when they agree, they agree after any sequence
    of edits in the modal, saves, deletions (confirmed or not) and
    uploads (whatever the file, the key and the service's answers). *)
Theorem inventory_keeps_catalog_synced
    (parseFloat : string → number) (evs : list inventory_event)
    (sb : Inventory.t * Browser.t) :
  catalog_synced sb → catalog_synced (inventory_steps parseFloat evs sb).
Proof.
  unfold inventory_steps. revert sb.
  induction evs as [|ev evs IH]; intros sb Hsync; [exact Hsync|].
  simpl. apply IH.
  destruct (inventory_step_cases parseFloat sb ev) as [[Hb Hp]|(catalog & Hp & Hb)];
    unfold catalog_synced in *.
  - by rewrite Hb, Hp.
  - left. rewrite Hb, Hp. apply lookup_insert_eq.
Qed.

Lemma inventory_keeps_catalog_synced_witness :
  let p := Product.mk "p1" "C-1" "Pump" "" (lit 100) None in
  let sb := (Inventory.mk [] false "" None, Browser.mk ∅ []) in
  let env := UploadEnv.mk (Some (File.mk "offer.png" "image/png")) (Some "key") Rejected Rejected
               (Fulfilled "data:image/png;base64,AAAA")
               (Fulfilled (Json (Products [Some (Extracted.mk None (Some "Pump") None None)])))
               (λ i, "id" +:+ pretty i) in
  catalog_synced
    (inventory_steps (λ _, NaN)
       [Upload env; Edit (OpenEdit p); Edit (TypeProductPrice "x"); SaveEdit; Delete "id0" true]
       sb).
Proof.
  intros p sb env.
  apply (inventory_keeps_catalog_synced (λ _, NaN)).
  right. split; reflexivity.
Defined.

(** X10. Nothing done on the inventory page reaches another record of
    [localStorage]: after any sequence of edits, saves, deletions and
    uploads, every key other than [products] holds what it held, the
    drafts and the settings among them. *)
Theorem inventory_storage_frame
    (parseFloat : string → number) (evs : list inventory_event)
    (sb : Inventory.t * Browser.t) (key : string) :
  key ≠ "products" →
  Browser.localStorage (inventory_steps parseFloat evs sb).2 !! key
  = Browser.localStorage sb.2 !! key.
Proof.
  intros Hkey. unfold inventory_steps. revert sb.
  induction evs as [|ev evs IH]; intros sb; [reflexivity|].
  simpl. rewrite IH.
  destruct (inventory_step_cases parseFloat sb ev) as [[Hb _]|(catalog & _ & Hb)];
    rewrite Hb; [reflexivity|].
  by apply lookup_insert_ne.
Qed.

Lemma inventory_storage_frame_witness :
  let p := Product.mk "p1" "C-1" "Pump" "" (lit 100) None in
  let b := Browser.mk (<["invoiceDrafts" := VArr []]> ∅) [] in
  Browser.localStorage
    (inventory_steps (λ _, NaN) [Edit (OpenEdit p); SaveEdit; Delete "p1" true]
       (Inventory.mk [p] false "" None, b)).2 !! "invoiceDrafts"
  = Some (VArr []).
Proof.
  intros p b.
  apply (inventory_storage_frame (λ _, NaN) [Edit (OpenEdit p); SaveEdit; Delete "p1" true]
           (Inventory.mk [p] false "" None, b) "invoiceDrafts").
  discriminate.
Defined.






(** ** Further properties of the settings view *)

Lemma restore_record_run (data : value) (field key : string) (b : Browser.t) :
  data ≠ VNull →
  restore_record data field key b = (Some tt, restore_field data field key b).
Proof.
  intros Hnull. unfold restore_record, restore_field.
  destruct (get_prop data field) as [[v|]|] eqn:Hget; [by destruct (truthy v)|done|].
  by destruct data.
Qed.

Lemma handleRestore_data (data : value) (b : Browser.t) :
  data ≠ VNull →
  handleRestore (Some (JsonText data)) b
  = Browser.alert RESTORE_DONE
      (restore_field data "settings" "appSettings"
         (restore_field data "drafts" "invoiceDrafts"
            (restore_field data "products" "products" b))).
Proof.
  intros Hnull. unfold handleRestore, try_catch_finally, restore_try, proc_bind.
  by rewrite !restore_record_run by exact Hnull.
Qed.

Lemma handleRestore_fails (file : file_text) (b : Browser.t) :
  file = NotJson ∨ file = JsonText VNull →
  handleRestore (Some file) b = Browser.alert RESTORE_FAILED b.
Proof. by intros [->| ->]. Qed.

Lemma restore_field_storage (data : value) (field key : string) :
  ∃ f : storage → storage,
    (f = id ∨ ∃ v, f = insert key v) ∧
    ∀ b, Browser.localStorage (restore_field data field key b) = f (Browser.localStorage b).
Proof.
  unfold restore_field.
  destruct (get_prop data field) as [[v|]|]; [|exists id; split; [by left|done]..].
  destruct (truthy v); [|exists id; split; [by left|done]].
  exists (insert key v). split; [right; by exists v|done].
Qed.

Lemma restore_field_alerts (data : value) (field key : string) (b : Browser.t) :
  Browser.alerts (restore_field data field key b) = Browser.alerts b.
Proof.
  unfold restore_field.
  destruct (get_prop data field) as [[v|]|]; [|done..]. by destruct (truthy v).
Qed.

(** The store after a restore, whatever the file. *)
Lemma handleRestore_storage (file : option file_text) :
  ∃ f1 f2 f3 : storage → storage,
    (f1 = id ∨ ∃ v, f1 = insert "products" v) ∧
    (f2 = id ∨ ∃ v, f2 = insert "invoiceDrafts" v) ∧
    (f3 = id ∨ ∃ v, f3 = insert "appSettings" v) ∧
    ∀ b, Browser.localStorage (handleRestore file b) = f3 (f2 (f1 (Browser.localStorage b))).
Proof.
  assert (Hsame : (∀ b, Browser.localStorage (handleRestore file b) = Browser.localStorage b) →
    ∃ f1 f2 f3 : storage → storage,
      (f1 = id ∨ ∃ v, f1 = insert "products" v) ∧
      (f2 = id ∨ ∃ v, f2 = insert "invoiceDrafts" v) ∧
      (f3 = id ∨ ∃ v, f3 = insert "appSettings" v) ∧
      ∀ b, Browser.localStorage (handleRestore file b) = f3 (f2 (f1 (Browser.localStorage b))))
    by (intros H; exists id, id, id; repeat (split; [by left|]); exact H).
  destruct file as [[|data]|]; [by apply Hsame| |by apply Hsame].
  assert (data = VNull ∨ data ≠ VNull) as [->|Hnull]
    by (destruct data; [by left|by right..]).
  { by apply Hsame. }
  destruct (restore_field_storage data "products" "products") as (f1 & Hf1 & H1),
           (restore_field_storage data "drafts" "invoiceDrafts") as (f2 & Hf2 & H2),
           (restore_field_storage data "settings" "appSettings") as (f3 & Hf3 & H3).
  exists f1, f2, f3. split; [exact Hf1|]. split; [exact Hf2|]. split; [exact Hf3|].
  intros b. rewrite (handleRestore_data data b Hnull).
  cbn [Browser.alert Browser.localStorage]. by rewrite H3, H2, H1.
Qed.

(** X12. A restore, whatever the chosen file holds: it writes no key
    but the three records, and it removes no record; restoring the same
    file a second time changes nothing more in the store. When the text
    is not JSON, or is [null], nothing at all is written and the failure
    message is shown; any other JSON value, even one that holds none of
    the three fields, is reported as a success. With no file chosen,
    nothing happens. *)
Theorem handleRestore_outcomes (file : option file_text) (b : Browser.t) :
  let b' := handleRestore file b in
  (∀ key, key ∉ record_keys →
     Browser.localStorage b' !! key = Browser.localStorage b !! key) ∧
  (∀ key, is_Some (Browser.localStorage b !! key) →
     is_Some (Browser.localStorage b' !! key)) ∧
  Browser.localStorage (handleRestore file b') = Browser.localStorage b' ∧
  (∀ text, file = Some text → text = NotJson ∨ text = JsonText VNull →
     b' = Browser.alert RESTORE_FAILED b) ∧
  (∀ data, file = Some (JsonText data) → data ≠ VNull →
     Browser.alerts b' = Browser.alerts b ++ [RESTORE_DONE]) ∧
  (file = None → b' = b).
Proof.
  cbv zeta.
  destruct (handleRestore_storage file) as (f1 & f2 & f3 & Hf1 & Hf2 & Hf3 & Hrun).
  split; [|split; [|split; [|split; [|split]]]].
  - intros key Hkey. rewrite Hrun.
    assert (key ≠ "products" ∧ key ≠ "invoiceDrafts" ∧ key ≠ "appSettings")
      as (Hp & Hd & Hs)
      by (unfold record_keys in Hkey; rewrite !not_elem_of_cons in Hkey; tauto).
    destruct Hf1 as [->|[v1 ->]], Hf2 as [->|[v2 ->]], Hf3 as [->|[v3 ->]];
      unfold id; by rewrite ?lookup_insert_ne by done.
  - intros key Hsome. rewrite Hrun.
    destruct Hf1 as [->|[v1 ->]], Hf2 as [->|[v2 ->]], Hf3 as [->|[v3 ->]];
      unfold id; rewrite ?lookup_insert_is_Some'; tauto.
  - rewrite !Hrun.
    destruct Hf1 as [->|[v1 ->]], Hf2 as [->|[v2 ->]], Hf3 as [->|[v3 ->]];
      unfold id; apply map_eq; intros key;
      destruct (decide (key = "products")) as [?|?],
               (decide (key = "invoiceDrafts")) as [?|?],
               (decide (key = "appSettings")) as [?|?];
      by simplify_map_eq.
  - intros text -> Hfail. by apply handleRestore_fails.
  - intros data -> Hnull. rewrite handleRestore_data by exact Hnull.
    cbn [Browser.alert Browser.alerts]. by rewrite !restore_field_alerts.
  - by intros ->.
Qed.

Lemma handleRestore_outcomes_witness :
  let b := Browser.mk (<["products" := VArr []]> (<["theme" := VStr "dark"]> ∅)) [] in
  let file := Some (JsonText (VObj [("drafts", VArr [])])) in
  Browser.localStorage (handleRestore file b) !! "theme" = Some (VStr "dark") ∧
  is_Some (Browser.localStorage (handleRestore file b) !! "products") ∧
  Browser.alerts (handleRestore file b) = [RESTORE_DONE].
Proof.
  intros b file.
  pose proof (handleRestore_outcomes file b) as (Hframe & Hkeep & _ & _ & Hdone & _).
  split; [|split].
  - rewrite (Hframe "theme"); [reflexivity|].
    unfold record_keys. rewrite !not_elem_of_cons. by repeat split; [..|apply not_elem_of_nil].
  - apply Hkeep. by eexists.
  - apply (Hdone (VObj [("drafts", VArr [])])); [reflexivity|discriminate].
Defined.

(** X13. A backup is stable: after its file has been restored over the
    store it was taken from, a new backup is the same value. Over any
    other store the same holds when no record of the first store holds a
    falsy value (an array or an object never is one). *)
Theorem handleBackup_stable (b target : Browser.t) :
  handleBackup (handleRestore (Some (JsonText (handleBackup b))) b) = handleBackup b ∧
  ((∀ key v, key ∈ record_keys → Browser.localStorage b !! key = Some v → truthy v = true) →
   handleBackup (handleRestore (Some (JsonText (handleBackup b))) target) = handleBackup b).
Proof.
  assert (Hrec : ∀ target key, key ∈ record_keys →
    (∀ v, Browser.localStorage b !! key = Some v → truthy v = false →
          Browser.localStorage target !! key = Some v) →
    default (record_default key)
      (Browser.localStorage (handleRestore (Some (JsonText (handleBackup b))) target) !! key)
    = default (record_default key) (Browser.localStorage b !! key)).
  { intros t key Hkey Hfalsy. rewrite backup_restore_record by exact Hkey.
    unfold restored_record.
    destruct (Browser.localStorage b !! key) as [v|] eqn:Hv; [|reflexivity].
    destruct (truthy v) eqn:Ht; [reflexivity|]. by rewrite (Hfalsy v). }
  assert (Hall : ∀ target,
    (∀ key v, key ∈ record_keys → Browser.localStorage b !! key = Some v → truthy v = false →
              Browser.localStorage target !! key = Some v) →
    handleBackup (handleRestore (Some (JsonText (handleBackup b))) target) = handleBackup b).
  { intros t Hfalsy.
    assert (Hkp : "products" ∈ record_keys) by (unfold record_keys; by repeat constructor).
    assert (Hkd : "invoiceDrafts" ∈ record_keys) by (unfold record_keys; by repeat constructor).
    assert (Hks : "appSettings" ∈ record_keys) by (unfold record_keys; by repeat constructor).
    pose proof (Hrec t "products" Hkp (λ v, Hfalsy "products" v Hkp)) as Hp.
    pose proof (Hrec t "invoiceDrafts" Hkd (λ v, Hfalsy "invoiceDrafts" v Hkd)) as Hd.
    pose proof (Hrec t "appSettings" Hks (λ v, Hfalsy "appSettings" v Hks)) as Hs.
    unfold handleBackup at 1 3. cbv zeta. unfold getItem.
    change (record_default "products") with (VArr []) in Hp.
    change (record_default "invoiceDrafts") with (VArr []) in Hd.
    change (record_default "appSettings") with (VObj []) in Hs.
    by rewrite Hp, Hd, Hs. }
  split.
  - apply Hall. by intros key v _ Hv _.
  - intros Htruthy. apply Hall. intros key v Hkey Hv Hf.
    rewrite (Htruthy key v Hkey Hv) in Hf. discriminate Hf.
Qed.

Lemma handleBackup_stable_witness :
  let b := Browser.mk (<["products" := VArr [VNum (Qc_of_Z 1)]]> ∅) [] in
  let target := Browser.mk (<["appSettings" := VStr "old"]> ∅) [] in
  handleBackup (handleRestore (Some (JsonText (handleBackup b))) target) = handleBackup b.
Proof.
  intros b target.
  apply (proj2 (handleBackup_stable b target)).
  intros key v Hkey Hv.
  destruct (decide (key = "products")) as [->|Hne].
  - vm_compute in Hv. injection Hv as <-. reflexivity.
  - unfold b in Hv. simpl in Hv. rewrite lookup_insert_ne in Hv by done.
    rewrite lookup_empty in Hv. discriminate Hv.
Defined.

(** X14. Settings that were saved are the settings a component holds
    after its next mount, field by field and in the same order, when the
    theme colour is not empty; with an empty theme colour the mount puts
    the default colour in its place and keeps the rest. Saving writes no
    other record and shows no alert. *)
Theorem handleSave_then_mount (settings : AppSettings.t) (b : Browser.t) :
  let b' := handleSave settings b in
  (AppSettings.themeColor settings ≠ "" →
   mountedSettings (Browser.localStorage b') = Some (own_props (AppSettings_toJSON settings))) ∧
  (AppSettings.themeColor settings = "" →
   mountedSettings (Browser.localStorage b')
   = Some (own_props (AppSettings_toJSON (with_themeColor DEFAULT_COLOR settings)))) ∧
  (∀ key, key ≠ "appSettings" →
     Browser.localStorage b' !! key = Browser.localStorage b !! key) ∧
  Browser.alerts b' = Browser.alerts b.
Proof.
  cbv zeta.
  assert (Hload : mountedSettings (Browser.localStorage (handleSave settings b))
                  = loadSettings (AppSettings_toJSON settings)).
  { unfold mountedSettings, handleSave, getItem. simpl. unfold setItem.
    by rewrite lookup_insert_eq. }
  rewrite Hload. clear Hload.
  destruct settings as [logo tax color show config].
  split; [|split; [|split]].
  - intros Hcolor. simpl in Hcolor. destruct color as [|c color]; [done|]. reflexivity.
  - intros Hcolor. simpl in Hcolor. subst color. reflexivity.
  - intros key Hkey. simpl. unfold setItem. by rewrite lookup_insert_ne.
  - reflexivity.
Qed.

Lemma handleSave_then_mount_witness :
  let settings := AppSettings.mk "" NaN "#ff0000" false DEFAULT_TABLE_CONFIG in
  mountedSettings (Browser.localStorage (handleSave settings (Browser.mk ∅ [])))
  = Some (own_props (AppSettings_toJSON settings)).
Proof.
  intros settings.
  apply (proj1 (handleSave_then_mount settings (Browser.mk ∅ []))).
  discriminate.
Defined.

(** ** Colours and search *)

Lemma hex_digit_bound (c : Ascii.ascii) (n : N) : hex_digit c = Some n → (n ≤ 15)%N.
Proof.
  unfold hex_digit. cbv zeta. generalize (Ascii.N_of_ascii c). intros m.
  destruct ((48 <=? m)%N && (m <=? 57)%N) eqn:E1;
    [|destruct ((97 <=? m)%N && (m <=? 102)%N) eqn:E2;
      [|destruct ((65 <=? m)%N && (m <=? 70)%N) eqn:E3; [|discriminate]]].
  all: intros [= <-].
  all: match goal with
       | H : _ && _ = true |- _ =>
           apply andb_true_iff in H as [Hlo Hhi];
           apply N.leb_le in Hlo; apply N.leb_le in Hhi; lia
       end.
Qed.

Lemma hex_digit_spec (c : Ascii.ascii) (v : N) : hex_digit c = Some v ↔ is_hex c v.
Proof.
  unfold is_hex. split.
  - destruct c as [[] [] [] [] [] [] [] []]; vm_compute; intros H;
      first [discriminate H
            |injection H as <-;
             repeat first [apply list_elem_of_here|apply list_elem_of_further]].
  - intros H. vm_compute in H.
    repeat (apply elem_of_cons in H as [H|H]; [injection H as -> ->; reflexivity|]).
    by apply not_elem_of_nil in H.
Qed.

Lemma is_hex_bound (c : Ascii.ascii) (v : N) : is_hex c v → (v ≤ 15)%N.
Proof. intros H. apply hex_digit_spec in H. by apply (hex_digit_bound c). Qed.

Lemma is_hex_not_hash (c : Ascii.ascii) (v : N) : is_hex c v → c ≠ Ascii.ascii_of_nat 35.
Proof. intros H ->. apply hex_digit_spec in H. discriminate H. Qed.

Lemma hex_pair_spec (a b : Ascii.ascii) (n : N) :
  hex_pair a b = Some n ↔ ∃ h l, is_hex a h ∧ is_hex b l ∧ n = (16 * h + l)%N.
Proof.
  unfold hex_pair. split.
  - destruct (hex_digit a) as [h|] eqn:Ha; [|discriminate].
    destruct (hex_digit b) as [l|] eqn:Hb; [|discriminate].
    simpl. intros [= <-]. exists h, l. by rewrite <- !hex_digit_spec.
  - intros (h & l & Ha & Hb & ->). apply hex_digit_spec in Ha, Hb. by rewrite Ha, Hb.
Qed.

(** The texts that the regular expression matches, and its groups. *)
Lemma hex_groups_spec (hex : string) (r g b : N) :
  hex_groups hex = Some (r, g, b) ↔
  ∃ c1 c2 c3 c4 c5 c6 v1 v2 v3 v4 v5 v6,
    (hex = six c1 c2 c3 c4 c5 c6 ∨
     hex = String (Ascii.ascii_of_nat 35) (six c1 c2 c3 c4 c5 c6)) ∧
    is_hex c1 v1 ∧ is_hex c2 v2 ∧ is_hex c3 v3 ∧ is_hex c4 v4 ∧ is_hex c5 v5 ∧ is_hex c6 v6 ∧
    r = (16 * v1 + v2)%N ∧ g = (16 * v3 + v4)%N ∧ b = (16 * v5 + v6)%N.
Proof.
  split.
  - unfold hex_groups. cbv zeta.
    set (body := match hex with
                 | String c rest => if decide (c = Ascii.ascii_of_nat 35) then rest else hex
                 | EmptyString => hex
                 end).
    assert (Hbody : hex = body ∨ hex = String (Ascii.ascii_of_nat 35) body).
    { unfold body. destruct hex as [|c rest]; [by left|].
      destruct (decide (c = Ascii.ascii_of_nat 35)) as [->|_]; [by right|by left]. }
    clearbody body.
    destruct body as [|c1 [|c2 [|c3 [|c4 [|c5 [|c6 [|c7 rest]]]]]]]; try discriminate.
    cbn [String.list_ascii_of_string].
    destruct (hex_pair c1 c2) as [r'|] eqn:Hr; [|discriminate].
    destruct (hex_pair c3 c4) as [g'|] eqn:Hg; [|discriminate].
    destruct (hex_pair c5 c6) as [b'|] eqn:Hb; [|discriminate].
    simpl. intros [= <- <- <-].
    apply hex_pair_spec in Hr as (v1 & v2 & H1 & H2 & ->).
    apply hex_pair_spec in Hg as (v3 & v4 & H3 & H4 & ->).
    apply hex_pair_spec in Hb as (v5 & v6 & H5 & H6 & ->).
    exists c1, c2, c3, c4, c5, c6, v1, v2, v3, v4, v5, v6. by repeat split.
  - intros (c1 & c2 & c3 & c4 & c5 & c6 & v1 & v2 & v3 & v4 & v5 & v6 &
            Hhex & H1 & H2 & H3 & H4 & H5 & H6 & -> & -> & ->).
    assert (Hr : hex_pair c1 c2 = Some (16 * v1 + v2)%N)
      by (apply hex_pair_spec; by exists v1, v2).
    assert (Hg : hex_pair c3 c4 = Some (16 * v3 + v4)%N)
      by (apply hex_pair_spec; by exists v3, v4).
    assert (Hb : hex_pair c5 c6 = Some (16 * v5 + v6)%N)
      by (apply hex_pair_spec; by exists v5, v6).
    unfold hex_groups, six in *. cbv zeta. destruct Hhex as [-> | ->].
    + rewrite decide_False by (by apply (is_hex_not_hash c1 v1)).
      cbn [String.list_ascii_of_string]. by rewrite Hr, Hg, Hb.
    + rewrite decide_True by reflexivity.
      cbn [String.list_ascii_of_string]. by rewrite Hr, Hg, Hb.
Qed.

(** X15. [hexToRgb] reads a text of six hexadecimal digits, in either
    case and with or without a leading [#], as three numbers: each is
    sixteen times the value of its first digit plus the value of its
    second, so at most 255, and the result lists them separated by
    [", "]. Every other text gives the fallback ["59, 130, 246"], which
    is what the default theme colour gives too. *)
Theorem hexToRgb_components :
  (∀ c1 c2 c3 c4 c5 c6 v1 v2 v3 v4 v5 v6,
     is_hex c1 v1 → is_hex c2 v2 → is_hex c3 v3 → is_hex c4 v4 → is_hex c5 v5 → is_hex c6 v6 →
     let rgb := (16 * v1 + v2, 16 * v3 + v4, 16 * v5 + v6)%N in
     hexToRgb (six c1 c2 c3 c4 c5 c6) = rgb_text rgb ∧
     hexToRgb (String (Ascii.ascii_of_nat 35) (six c1 c2 c3 c4 c5 c6)) = rgb_text rgb ∧
     (rgb.1.1 ≤ 255 ∧ rgb.1.2 ≤ 255 ∧ rgb.2 ≤ 255)%N) ∧
  (∀ hex,
     (¬ ∃ c1 c2 c3 c4 c5 c6 v1 v2 v3 v4 v5 v6,
          (hex = six c1 c2 c3 c4 c5 c6 ∨
           hex = String (Ascii.ascii_of_nat 35) (six c1 c2 c3 c4 c5 c6)) ∧
          is_hex c1 v1 ∧ is_hex c2 v2 ∧ is_hex c3 v3 ∧
          is_hex c4 v4 ∧ is_hex c5 v5 ∧ is_hex c6 v6) →
     hexToRgb hex = "59, 130, 246") ∧
  hexToRgb DEFAULT_COLOR = "59, 130, 246" ∧
  hexToRgb DEFAULT_COLOR = rgb_text (59, 130, 246)%N.
Proof.
  split; [|split; [|split; reflexivity]].
  - intros c1 c2 c3 c4 c5 c6 v1 v2 v3 v4 v5 v6 H1 H2 H3 H4 H5 H6 rgb.
    assert (Hgroups : ∀ hex,
      hex = six c1 c2 c3 c4 c5 c6 ∨
      hex = String (Ascii.ascii_of_nat 35) (six c1 c2 c3 c4 c5 c6) →
      hexToRgb hex = rgb_text rgb).
    { intros hex Hhex. unfold hexToRgb.
      rewrite (proj2 (hex_groups_spec hex (16 * v1 + v2) (16 * v3 + v4) (16 * v5 + v6))%N);
        [reflexivity|].
      exists c1, c2, c3, c4, c5, c6, v1, v2, v3, v4, v5, v6. by repeat split. }
    split; [apply Hgroups; by left|]. split; [apply Hgroups; by right|].
    apply is_hex_bound in H1, H2, H3, H4, H5, H6. simpl. lia.
  - intros hex Hnot. unfold hexToRgb.
    destruct (hex_groups hex) as [[[r g] b]|] eqn:Hg; [|reflexivity].
    exfalso. apply Hnot.
    apply hex_groups_spec in Hg
      as (c1 & c2 & c3 & c4 & c5 & c6 & v1 & v2 & v3 & v4 & v5 & v6 &
          Hhex & H1 & H2 & H3 & H4 & H5 & H6 & _).
    exists c1, c2, c3, c4, c5, c6, v1, v2, v3, v4, v5, v6. by repeat split.
Qed.

Lemma hexToRgb_components_witness :
  hexToRgb "#FF8000" = "255, 128, 0" ∧ hexToRgb "ff8000" = "255, 128, 0" ∧
  hexToRgb "#ff80" = "59, 130, 246".
Proof.
  assert (Hf : is_hex (Ascii.ascii_of_nat 70) 15%N) by (by apply hex_digit_spec).
  assert (Hf' : is_hex (Ascii.ascii_of_nat 102) 15%N) by (by apply hex_digit_spec).
  assert (H8 : is_hex (Ascii.ascii_of_nat 56) 8%N) by (by apply hex_digit_spec).
  assert (H0 : is_hex (Ascii.ascii_of_nat 48) 0%N) by (by apply hex_digit_spec).
  split; [|split].
  - exact (proj1 (proj2 (proj1 hexToRgb_components _ _ _ _ _ _ _ _ _ _ _ _ Hf Hf H8 H0 H0 H0))).
  - exact (proj1 (proj1 hexToRgb_components _ _ _ _ _ _ _ _ _ _ _ _ Hf' Hf' H8 H0 H0 H0)).
  - apply (proj1 (proj2 hexToRgb_components)).
    intros (c1 & c2 & c3 & c4 & c5 & c6 & v1 & v2 & v3 & v4 & v5 & v6 & [H|H] & _);
      discriminate H.
Defined.

Lemma string_app_empty_r (s : string) : s +:+ "" = s.
Proof.
  induction s as [|c s IH]; [reflexivity|].
  change (String c (s +:+ "") = String c s). by rewrite IH.
Qed.

Lemma prefix_spec (q s : string) :
  String.prefix q s = true ↔ ∃ post, s = q +:+ post.
Proof.
  revert s. induction q as [|c q IH]; intros s.
  - destruct s; simpl; (split; [intros _; by eexists|done]).
  - destruct s as [|c' s]; simpl; [split; [done|intros [post H]; discriminate H]|].
    destruct (Ascii.ascii_dec c c') as [->|Hc].
    + rewrite IH. split; intros [post H]; exists post; [by rewrite H|by injection H].
    + split; [done|]. intros [post H]. injection H as H1 H2. congruence.
Qed.

Lemma includes_spec (s q : string) :
  includes s q = true ↔ ∃ pre post, s = pre +:+ q +:+ post.
Proof.
  induction s as [|c s IH]; cbn [includes]; rewrite orb_true_iff, prefix_spec.
  - split.
    + intros [[post H]|H]; [by exists "", post|discriminate H].
    + intros ([|c pre] & post & H); [left; by exists post|discriminate H].
  - rewrite IH. split.
    + intros [[post H]|(pre & post & H)]; [by exists "", post|].
      exists (String c pre), post. simpl. by rewrite H.
    + intros ([|c' pre] & post & H); [left; by exists post|].
      right. exists pre, post. simpl in H. by injection H.
Qed.

(** X16. The products the picker lists are products of the inventory, in
    the order of the inventory: all of them when the query is empty,
    otherwise those whose lowercased name or lowercased code holds the
    lowercased query as a contiguous part. So a product is found by its
    whole name and by its whole code. The search changes neither the
    invoice nor the inventory. *)
Theorem searchEffect_lists (toLowerCase : string → string) (u : EditorUI.t) :
  let query := Editor.searchQuery (EditorUI.core u) in
  let listed := EditorUI.filteredInventory (searchEffect toLowerCase u) in
  listed `sublist_of` EditorUI.inventory u ∧
  (query = "" → listed = EditorUI.inventory u) ∧
  (query ≠ "" →
   ∀ p, p ∈ listed ↔
        p ∈ EditorUI.inventory u ∧
        ∃ pre post,
          toLowerCase (Product.name p) = pre +:+ toLowerCase query +:+ post ∨
          toLowerCase (Product.code p) = pre +:+ toLowerCase query +:+ post) ∧
  (query ≠ "" →
   ∀ p, p ∈ EditorUI.inventory u → Product.name p = query ∨ Product.code p = query →
        p ∈ listed) ∧
  EditorUI.core (searchEffect toLowerCase u) = EditorUI.core u ∧
  EditorUI.inventory (searchEffect toLowerCase u) = EditorUI.inventory u.
Proof.
  cbv zeta. unfold searchEffect. cbv zeta.
  unfold truthy, string_truthy. rewrite negb_involutive.
  assert (Hlisted : Editor.searchQuery (EditorUI.core u) ≠ "" →
    ∀ p, p ∈ filter (λ p, includes (toLowerCase (Product.name p))
                            (toLowerCase (Editor.searchQuery (EditorUI.core u)))
                          || includes (toLowerCase (Product.code p))
                               (toLowerCase (Editor.searchQuery (EditorUI.core u))) = true)
               (EditorUI.inventory u) ↔
         p ∈ EditorUI.inventory u ∧
         ∃ pre post,
           toLowerCase (Product.name p)
             = pre +:+ toLowerCase (Editor.searchQuery (EditorUI.core u)) +:+ post ∨
           toLowerCase (Product.code p)
             = pre +:+ toLowerCase (Editor.searchQuery (EditorUI.core u)) +:+ post).
  { intros _ p. rewrite list_elem_of_filter, orb_true_iff, !includes_spec.
    split.
    - intros [[(pre & post & H)|(pre & post & H)] Hin]; (split; [exact Hin|]);
        exists pre, post; [by left|by right].
    - intros [Hin (pre & post & [H|H])]; (split; [|exact Hin]);
        [left|right]; by exists pre, post. }
  destruct (bool_decide (Editor.searchQuery (EditorUI.core u) = "")) eqn:Hq.
  - apply bool_decide_eq_true in Hq.
    split; [reflexivity|]. split; [done|]. split; [done|]. split; [done|]. by split.
  - apply bool_decide_eq_false in Hq. cbn [EditorUI.filteredInventory EditorUI.setFilteredInventory
      EditorUI.core EditorUI.inventory].
    split; [apply sublist_filter|]. split; [done|]. split; [exact Hlisted|].
    split; [|by split].
    intros _ p Hin Hname. apply (Hlisted Hq). split; [exact Hin|].
    exists "", "". rewrite string_app_empty_r. simpl.
    destruct Hname as [-> | ->]; [by left|by right].
Qed.

Lemma searchEffect_lists_witness :
  let p := Product.mk "p1" "C-1" "pump" "" (lit 100) None in
  let q := Product.mk "p2" "C-2" "valve" "" (lit 40) None in
  let s := Editor.mk (InvoiceData.mk None "" "" "" [] "" None) [] INITIAL_SETTINGS true "pump" in
  let u := EditorUI.mk s [q; p] [] false None in
  p ∈ EditorUI.filteredInventory (searchEffect (λ t, t) u).
Proof.
  intros p q s u.
  refine (proj1 (proj2 (proj2 (proj2 (searchEffect_lists (λ t, t) u)))) _ p _ _).
  - discriminate.
  - apply list_elem_of_further, list_elem_of_here.
  - by left.
Defined.

(** ** Rows of the invoice *)

Lemma updateItem_lookup (id : string) (u : InvoiceItem.patch) (s : Editor.t)
    (i : nat) (item : InvoiceItem.t) :
  InvoiceData.items (Editor.data s) !! i = Some item →
  InvoiceData.items (Editor.data (updateItem id u s)) !! i
  = Some (if decide (InvoiceItem.id item = id) then InvoiceItem.set u item else item).
Proof. intros Hi. simpl. by rewrite list_lookup_fmap, Hi. Qed.

(** X17. Clicking the image cell of a row and choosing a file puts the
    image on the rows that have the id of that row and on no other,
    leaves the subtotal alone and clears the active row, so that a
    further change event of the file input does nothing. When no file is
    chosen, or the read fails, nothing changes and the row stays active.
    A row whose id is the empty text never gets an image. *)
Theorem handleRowImageChange_flow (id base64 : string) (u : EditorUI.t) :
  let clicked := handleRowImageClick id u in
  let chosen := handleRowImageChange (Some (Fulfilled base64)) clicked in
  (id ≠ "" →
   EditorUI.activeRowId chosen = None ∧
   (∀ i item, InvoiceData.items (Editor.data (EditorUI.core u)) !! i = Some item →
      InvoiceData.items (Editor.data (EditorUI.core chosen)) !! i
      = Some (if decide (InvoiceItem.id item = id)
              then InvoiceItem.set (InvoiceItem.Image (Some base64)) item else item)) ∧
   calculateSubtotal (EditorUI.core chosen) = calculateSubtotal (EditorUI.core u) ∧
   (∀ file, handleRowImageChange file chosen = chosen)) ∧
  (id = "" → chosen = clicked) ∧
  handleRowImageChange None clicked = clicked ∧
  handleRowImageChange (Some Rejected) clicked = clicked.
Proof.
  cbv zeta. unfold handleRowImageClick, handleRowImageChange.
  cbn [EditorUI.activeRowId EditorUI.setActiveRowId].
  change (truthy (Some id)) with (negb (bool_decide (id = ""))).
  split; [|split; [|split]].
  - intros Hid. rewrite bool_decide_eq_false_2 by exact Hid.
    cbn [negb default EditorUI.activeRowId EditorUI.setActiveRowId EditorUI.setCore
         EditorUI.core].
    split; [reflexivity|]. split; [|split].
    + intros i item Hi. by apply updateItem_lookup.
    + by apply calculateSubtotal_text_patch.
    + by intros [[]|].
  - intros ->. reflexivity.
  - reflexivity.
  - by destruct (negb _).
Qed.

Lemma handleRowImageChange_flow_witness :
  let row := InvoiceItem.mk "r1" None "hose" "H-1" (lit 12) (lit 3) None in
  let s := Editor.mk (InvoiceData.mk None "Ann" "R1" "01/01/2025" [row] "" None) []
             INITIAL_SETTINGS false "" in
  let u := EditorUI.mk s [] [] false None in
  EditorUI.activeRowId
    (handleRowImageChange (Some (Fulfilled "data:image/png;base64,AAAA"))
       (handleRowImageClick "r1" u)) = None.
Proof.
  intros row s u.
  apply (proj1 (handleRowImageChange_flow "r1" "data:image/png;base64,AAAA" u)).
  discriminate.
Defined.

Lemma updateItem_row_ids (id : string) (u : InvoiceItem.patch) (s : Editor.t) :
  (∀ v, u ≠ InvoiceItem.Id v) → row_ids (updateItem id u s) = row_ids s.
Proof.
  intros Hu. unfold row_ids. simpl.
  induction (InvoiceData.items (Editor.data s)) as [|item l IH]; [reflexivity|].
  rewrite !fmap_cons, IH. f_equal.
  destruct (decide _); [|reflexivity]. destruct u; try reflexivity. by destruct (Hu v).
Qed.

Lemma updateItem_row_products (id : string) (u : InvoiceItem.patch) (s : Editor.t) :
  (∀ v, u ≠ InvoiceItem.ProductId v) → row_products (updateItem id u s) = row_products s.
Proof.
  intros Hu. unfold row_products. simpl.
  induction (InvoiceData.items (Editor.data s)) as [|item l IH]; [reflexivity|].
  rewrite !fmap_cons, IH. f_equal.
  destruct (decide _); [|reflexivity]. destruct u; try reflexivity. by destruct (Hu v).
Qed.

Lemma row_edit_step (parseFloat : string → number) (s : Editor.t) (ev : line_event) :
  row_edit ev →
  row_ids (line_step parseFloat s ev) = row_ids s ∧
  row_products (line_step parseFloat s ev) = row_products s.
Proof.
  destruct ev; try done; intros _; cbn [line_step];
    unfold on_row, onPriceChange, onQtyChange, onQtyMinus, onQtyPlus;
    try destruct (InvoiceData.items (Editor.data s) !! row); try done.
  all: by split; [apply updateItem_row_ids|apply updateItem_row_products].
Qed.

Lemma filter_row_ids (id : string) (l : list InvoiceItem.t) :
  InvoiceItem.id <$> filter (λ i, InvoiceItem.id i ≠ id) l
  = filter (λ i, i ≠ id) (InvoiceItem.id <$> l).
Proof.
  induction l as [|item l IH]; [reflexivity|].
  rewrite fmap_cons. destruct (decide (InvoiceItem.id item = id)) as [Heq|Hne].
  - rewrite !filter_cons_False by (intros H; by apply H). exact IH.
  - rewrite !filter_cons_True by exact Hne. rewrite fmap_cons. by f_equal.
Qed.

(** X18. Typing in a row, clicking its quantity buttons or choosing its
    image, in any number and order, never adds, removes or reorders a
    row, never changes the id of a row and never changes the product a
    row was picked from. A new row comes last, under the generated id; a
    removal takes out every row that has the id of the row clicked, and
    keeps the order of the others. *)
Theorem row_edits_keep_rows (parseFloat : string → number) (evs : list line_event)
    (s : Editor.t) :
  (Forall row_edit evs →
   row_ids (line_steps parseFloat evs s) = row_ids s ∧
   row_products (line_steps parseFloat evs s) = row_products s) ∧
  (∀ gid product,
     row_ids (addItem gid product s) = row_ids s ++ [gid] ∧
     row_products (addItem gid product s) = row_products s ++ [Product.id <$> product]) ∧
  (∀ row item, InvoiceData.items (Editor.data s) !! row = Some item →
     row_ids (line_step parseFloat s (ClickRemove row))
     = filter (λ i, i ≠ InvoiceItem.id item) (row_ids s)) ∧
  (∀ row, InvoiceData.items (Editor.data s) !! row = None →
     line_step parseFloat s (ClickRemove row) = s).
Proof.
  split; [|split; [|split]].
  - unfold line_steps. revert s.
    induction evs as [|ev evs IH]; intros s Hevs; [done|].
    apply Forall_cons in Hevs as [Hev Hevs]. simpl.
    destruct (IH (line_step parseFloat s ev) Hevs) as [-> ->].
    by apply row_edit_step.
  - intros gid product. unfold row_ids, row_products.
    rewrite addItem_items, !fmap_app. by split.
  - intros row item Hrow. cbn [line_step]. unfold on_row. rewrite Hrow.
    apply filter_row_ids.
  - intros row Hrow. cbn [line_step]. unfold on_row. by rewrite Hrow.
Qed.

Lemma row_edits_keep_rows_witness :
  let row := InvoiceItem.mk "r1" (Some "p1") "hose" "H-1" (lit 12) (lit 3) None in
  let s := Editor.mk (InvoiceData.mk None "Ann" "R1" "01/01/2025" [row] "" None) []
             INITIAL_SETTINGS false "" in
  let evs := [TypePrice "r1" "x"; ClickMinus 0; ClickPlus 5; ChooseRowImage "r1" "data:"] in
  row_ids (line_steps (λ _, NaN) evs s) = ["r1"] ∧
  row_products (line_steps (λ _, NaN) evs s) = [Some "p1"].
Proof.
  intros row s evs.
  apply (proj1 (row_edits_keep_rows (λ _, NaN) evs s)).
  repeat constructor.
Defined.

(** ** The drafts over a whole session *)

Lemma line_step_savedDrafts (parseFloat : string → number) (s : Editor.t) (ev : line_event) :
  Editor.savedDrafts (line_step parseFloat s ev) = Editor.savedDrafts s.
Proof.
  destruct ev; simpl; try reflexivity;
    unfold on_row; by destruct (_ !! _).
Qed.

(** The ids after a save: the id of the document comes first when no
    draft was filed under it, and the ids are what they were when one
    was. *)
Lemma updatedDrafts_ids gid now (s : Editor.t) :
  let i := draftId gid (Editor.data s) in
  let ids := InvoiceData.id <$> Editor.savedDrafts s in
  ((Some i ∉ ids) ∧ InvoiceData.id <$> updatedDrafts gid now s = Some i :: ids) ∨
  (Some i ∈ ids ∧ InvoiceData.id <$> updatedDrafts gid now s = ids).
Proof.
  cbv zeta.
  destruct (savedDrafts_cases (draftId gid (Editor.data s)) (Editor.savedDrafts s))
    as [Hnone|(before & old & after & Hl & Hb & Ho)].
  - left. split; [by apply not_filed_under_ids|].
    by rewrite (updatedDrafts_new gid now s Hnone).
  - right. rewrite (updatedDrafts_existing gid now s before old after Hl Hb Ho), Hl.
    rewrite !fmap_app, !fmap_cons. unfold filed_under in Ho. rewrite Ho. split; [|done].
    apply elem_of_app. right. apply list_elem_of_here.
Qed.

(** What one event does to the drafts and to the store. *)
Lemma editor_step_drafts (parseFloat : string → number) (ub : EditorUI.t * Browser.t)
    (ev : editor_event) :
  let ub' := editor_step parseFloat ub ev in
  (Editor.savedDrafts (EditorUI.core ub'.1) = Editor.savedDrafts (EditorUI.core ub.1) ∧
   Browser.localStorage ub'.2 = Browser.localStorage ub.2) ∨
  (Browser.localStorage ub'.2
     = <["invoiceDrafts" := VArr (InvoiceData_toJSON <$> Editor.savedDrafts (EditorUI.core ub'.1))]>
         (Browser.localStorage ub.2) ∧
   ((∃ i, (Some i ∉ draft_ids ub.1) ∧ draft_ids ub'.1 = Some i :: draft_ids ub.1) ∨
    draft_ids ub'.1 = draft_ids ub.1 ∨
    ∃ id, draft_ids ub'.1 = filter (λ i, i ≠ id) (draft_ids ub.1))).
Proof.
  destruct ub as [u b]. destruct ev as [ev|gid now|draft confirmed|id confirmed|itemId|file];
    cbv zeta.
  - left. split; [apply line_step_savedDrafts|reflexivity].
  - right. split; [reflexivity|]. unfold draft_ids. cbn.
    destruct (updatedDrafts_ids gid now (EditorUI.core u)) as [[Hnew Hids]|[_ Hids]].
    + left. by eexists.
    + right. by left.
  - left. by destruct confirmed.
  - destruct confirmed; [|by left].
    right. split; [reflexivity|]. right. right. exists id.
    unfold draft_ids. cbn.
    induction (Editor.savedDrafts (EditorUI.core u)) as [|d l IH]; [reflexivity|].
    rewrite fmap_cons. destruct (decide (InvoiceData.id d = id)) as [Heq|Hne].
    + rewrite !filter_cons_False by (intros H; by apply H). exact IH.
    + rewrite !filter_cons_True by exact Hne. rewrite fmap_cons. by f_equal.
  - left. by split.
  - left. cbn [editor_step fst snd]. unfold handleRowImageChange.
    destruct file as [[base64|]|]; try destruct (truthy (EditorUI.activeRowId u));
      by split.
Qed.

(** X20. Over a whole session on the invoice page (editing lines,
    saving, loading and deleting drafts, confirmed or not, choosing row
    images), the drafts stay well filed: every draft has an id, no two
    drafts share an id, and the list in memory is the list that the
    [invoiceDrafts] record holds. No other record of [localStorage] is
    written. *)
Theorem editor_keeps_drafts_filed
    (parseFloat : string → number) (evs : list editor_event) (ub : EditorUI.t * Browser.t) :
  (drafts_filed ub → drafts_filed (editor_steps parseFloat evs ub)) ∧
  (∀ key, key ≠ "invoiceDrafts" →
     Browser.localStorage (editor_steps parseFloat evs ub).2 !! key
     = Browser.localStorage ub.2 !! key).
Proof.
  unfold editor_steps. revert ub.
  induction evs as [|ev evs IH]; intros ub; [by split|].
  simpl. destruct (IH (editor_step parseFloat ub ev)) as [IHfiled IHframe].
  pose proof (editor_step_drafts parseFloat ub ev) as Hstep. cbv zeta in Hstep.
  split.
  - intros (Hsome & Hnodup & Hsync). apply IHfiled. unfold drafts_filed, draft_ids in *.
    destruct Hstep as [[Hd Hb]|[Hb Hids]].
    + by rewrite Hd, Hb.
    + split; [|split; [|left; rewrite Hb; apply lookup_insert_eq]].
      * destruct Hids as [(i & _ & ->)|[->|[id ->]]]; [|done|].
        -- apply Forall_cons. split; [by eexists|done].
        -- apply Forall_forall. intros x Hx. apply list_elem_of_filter in Hx as [_ Hx].
           rewrite Forall_forall in Hsome. by apply Hsome.
      * destruct Hids as [(i & Hnew & ->)|[->|[id ->]]]; [|done|].
        -- by apply NoDup_cons.
        -- by apply NoDup_filter.
  - intros key Hkey. rewrite IHframe by exact Hkey.
    destruct Hstep as [[_ Hb]|[Hb _]]; rewrite Hb; [reflexivity|].
    by apply lookup_insert_ne.
Qed.

Lemma editor_keeps_drafts_filed_witness :
  let row := InvoiceItem.mk "r1" None "hose" "H-1" (lit 12) (lit 3) None in
  let s := Editor.mk (InvoiceData.mk None "Ann" "R1" "01/01/2025" [row] "" None) []
             INITIAL_SETTINGS false "" in
  let ub := (EditorUI.mk s [] [] false None, Browser.mk ∅ []) in
  let evs := [SaveDraft "d1" "t1"; Line (ClickPlus 0); SaveDraft "d2" "t2";
              LoadDraft (Editor.data s) true; SaveDraft "d1" "t3"; DeleteDraft (Some "d9") true] in
  drafts_filed (editor_steps (λ _, NaN) evs ub) ∧
  Browser.localStorage (editor_steps (λ _, NaN) evs ub).2 !! "products" = None.
Proof.
  intros row s ub evs.
  pose proof (editor_keeps_drafts_filed (λ _, NaN) evs ub) as [Hfiled Hframe].
  split.
  - apply Hfiled. split; [constructor|]. split; [constructor|]. right. by split.
  - rewrite Hframe by discriminate. reflexivity.
Defined.

(** ** The edit modal and deletions *)

Lemma typing_keeps_id (parseFloat : string → number) (evs : list edit_event)
    (inv : Inventory.t) (p : Product.t) :
  Forall typing evs →
  Inventory.editingProduct inv = Some p →
  ∃ e, Inventory.editingProduct (fold_left (edit_step parseFloat) evs inv) = Some e ∧
       Product.id e = Product.id p.
Proof.
  revert inv p. induction evs as [|ev evs IH]; intros inv p Hevs Hp; [by exists p|].
  apply Forall_cons in Hevs as [Hev Hevs]. simpl.
  assert (∃ e, Inventory.editingProduct (edit_step parseFloat inv ev) = Some e ∧
               Product.id e = Product.id p) as (e & He & Hid).
  { unfold edit_step, onEditPriceChange. destruct ev; try done; rewrite Hp; by eexists. }
  destruct (IH _ e Hevs He) as (e' & He' & Hid'). exists e'. split; [exact He'|congruence].
Qed.

(** X21. The edit modal works on a copy. Whatever is typed after a
    product [p] is opened, the copy keeps the id of [p], and neither the
    catalog nor the upload flags change before the save; cancelling
    leaves the inventory as it was, with the modal closed. Saving puts
    the copy at every position of the catalog that holds a product with
    the id of [p] and leaves the other positions alone. *)
Theorem edit_modal_copy (parseFloat : string → number) (evs : list edit_event)
    (p : Product.t) (inv : Inventory.t) (b : Browser.t) :
  Forall typing evs →
  let typed := fold_left (edit_step parseFloat) (OpenEdit p :: evs) inv in
  ∃ e, Inventory.editingProduct typed = Some e ∧
       Product.id e = Product.id p ∧
       typed = Inventory.setEditingProduct (Some e) inv ∧
       edit_step parseFloat typed CancelEdit = Inventory.setEditingProduct None inv ∧
       ∀ i q, Inventory.products inv !! i = Some q →
         Inventory.products (handleEditSave (typed, b)).1 !! i
         = Some (if decide (Product.id q = Product.id p) then e else q).
Proof.
  intros Hevs. cbv zeta. cbn [fold_left].
  destruct (typing_keeps_id parseFloat evs (edit_step parseFloat inv (OpenEdit p)) p Hevs)
    as (e & He & Hid); [reflexivity|].
  exists e. split; [exact He|]. split; [exact Hid|].
  assert (Hframe : ∀ evs s,
    fold_left (edit_step parseFloat) evs s
    = Inventory.setEditingProduct
        (Inventory.editingProduct (fold_left (edit_step parseFloat) evs s)) s).
  { clear. induction evs as [|ev evs IH]; intros s; [by destruct s|].
    simpl. rewrite IH at 1.
    unfold edit_step, onEditPriceChange.
    destruct ev, (Inventory.editingProduct s); reflexivity. }
  assert (Htyped : fold_left (edit_step parseFloat) evs (edit_step parseFloat inv (OpenEdit p))
                   = Inventory.setEditingProduct (Some e) inv).
  { rewrite Hframe, He. reflexivity. }
  split; [exact Htyped|]. rewrite Htyped. split; [reflexivity|].
  intros i q Hq. rewrite (handleEditSave_editing e _ b) by reflexivity.
  cbn. rewrite list_lookup_fmap, Hq. simpl. rewrite Hid. reflexivity.
Qed.

Lemma edit_modal_copy_witness :
  let p := Product.mk "p1" "C-1" "Pump" "" (lit 100) None in
  let q := Product.mk "p2" "C-2" "Valve" "" (lit 40) None in
  let inv := Inventory.mk [p; q] false "" None in
  let evs := [TypeName "Pump XL"; TypeProductPrice "abc"; ChooseProductImage "data:"] in
  ∃ e, Inventory.editingProduct
         (fold_left (edit_step (λ _, NaN)) (OpenEdit p :: evs) inv) = Some e ∧
       Product.id e = "p1".
Proof.
  intros p q inv evs.
  destruct (edit_modal_copy (λ _, NaN) evs p inv (Browser.mk ∅ []))
    as (e & He & Hid & _); [by repeat constructor|].
  exists e. split; [exact He|exact Hid].
Defined.

(** X22. A confirmed deletion takes out every product that has the id,
    and nothing else: a product is in the catalog afterwards exactly
    when it was there before under another id, and the products kept
    stand in their old order, each as often as before. The catalog left
    is the one written to the [products] record. Deleting the same id
    again, or an id that no product has, changes nothing in the catalog.
    A deletion that is not confirmed changes nothing at all. *)
Theorem handleDelete_catalog (id : string) (inv : Inventory.t) (b : Browser.t) :
  let deleted := handleDelete id true (inv, b) in
  Inventory.products deleted.1
    = filter (λ p, Product.id p ≠ id) (Inventory.products inv) ∧
  (∀ p, p ∈ Inventory.products deleted.1 ↔ p ∈ Inventory.products inv ∧ Product.id p ≠ id) ∧
  Inventory.products deleted.1 `sublist_of` Inventory.products inv ∧
  (id ∉ Product.id <$> Inventory.products deleted.1) ∧
  Browser.localStorage deleted.2 !! "products"
    = Some (VArr (Product_toJSON <$> Inventory.products deleted.1)) ∧
  handleDelete id true deleted = deleted ∧
  (id ∉ Product.id <$> Inventory.products inv →
   Inventory.products deleted.1 = Inventory.products inv) ∧
  handleDelete id false (inv, b) = (inv, b).
Proof.
  cbv zeta. split; [reflexivity|]. split; [intros p; apply handleDelete_removes|].
  split; [apply sublist_filter|]. split; [|split; [|split; [|split]]].
  - intros Hin. apply list_elem_of_fmap in Hin as (p & Hid & Hp).
    apply handleDelete_removes in Hp as [_ Hne]. by apply Hne.
  - simpl. unfold setItem. apply lookup_insert_eq.
  - unfold handleDelete, saveProducts. cbn [fst snd Inventory.products Inventory.setProducts].
    rewrite list_filter_filter.
    assert (Hsame : filter (λ p, Product.id p ≠ id ∧ Product.id p ≠ id) (Inventory.products inv)
                    = filter (λ p, Product.id p ≠ id) (Inventory.products inv)).
    { apply list_filter_iff. tauto. }
    rewrite Hsame. unfold Browser.write, setItem. cbn. by rewrite insert_insert_eq.
  - intros Hnot. simpl. apply filter_all. apply Forall_forall. intros p Hp Heq.
    apply Hnot. rewrite <- Heq. by apply list_elem_of_fmap_2.
  - reflexivity.
Qed.

Lemma handleDelete_catalog_witness :
  let p := Product.mk "p1" "C-1" "Pump" "" (lit 100) None in
  let q := Product.mk "p2" "C-2" "Valve" "" (lit 40) None in
  let r := Product.mk "p3" "C-3" "Hose" "" (lit 5) None in
  let inv := Inventory.mk [p; q; r] false "" None in
  Inventory.products (handleDelete "p2" true (inv, Browser.mk ∅ [])).1 = [p; r] ∧
  Inventory.products (handleDelete "p7" true (inv, Browser.mk ∅ [])).1 = [p; q; r].
Proof.
  intros p q r inv. split.
  - apply (proj1 (handleDelete_catalog "p2" inv (Browser.mk ∅ []))).
  - apply (proj1 (proj2 (proj2 (proj2 (proj2 (proj2 (proj2
      (handleDelete_catalog "p7" inv (Browser.mk ∅ []))))))))).
    intros H. cbn in H. rewrite !elem_of_cons in H.
    destruct H as [H|[H|[H|H]]]; [discriminate H..|by apply not_elem_of_nil in H].
Defined.

(* ===================================================================== *)
(** * Facts on IEEE 754 doubles *)
(* ===================================================================== *)

(** ** Rounding never makes a [NaN] and keeps the sign *)

Lemma signed_not_nan (s : bool) (x : spec_float) : signed s x → x ≠ S754_nan.
Proof. by destruct x. Qed.

Lemma signed_nonneg (x : spec_float) : signed false x → sf_nonneg x.
Proof. by destruct x. Qed.

Lemma iter_pos_invariant {A} (P : A → Prop) (f : A → A) (n : positive) (x : A) :
  (∀ y, P y → P (f y)) → P x → P (SpecFloat.iter_pos f n x).
Proof.
  intros Hf. revert x. induction n as [n IH|n IH|]; intros x Hx; simpl; auto.
Qed.

Lemma shr_1_nonneg (mrs : shr_record) : (0 ≤ shr_m mrs)%Z → (0 ≤ shr_m (shr_1 mrs))%Z.
Proof.
  destruct mrs as [m r s]. simpl. intros Hm.
  destruct m as [|[p|p|]|p]; simpl; lia.
Qed.

Lemma shr_fexp_nonneg (m e : Z) (l : location) :
  (0 ≤ m)%Z → (0 ≤ shr_m (shr_fexp prec emax m e l).1)%Z.
Proof.
  intros Hm. unfold shr_fexp, shr.
  assert (H0 : (0 ≤ shr_m (shr_record_of_loc m l))%Z) by (by destruct l as [|[]]).
  destruct (_ - e)%Z; simpl; [exact H0| |exact H0].
  apply (iter_pos_invariant (λ r, (0 ≤ shr_m r)%Z)); [apply shr_1_nonneg|exact H0].
Qed.

Lemma round_nearest_even_nonneg (m : Z) (l : location) :
  (0 ≤ m)%Z → (0 ≤ round_nearest_even m l)%Z.
Proof. intros Hm. destruct l as [|[]]; simpl; [lia| |lia|lia]. destruct (Z.even m); lia. Qed.

Lemma binary_round_aux_signed (s : bool) (m e : Z) (l : location) :
  (0 ≤ m)%Z → signed s (binary_round_aux prec emax s m e l).
Proof.
  intros Hm. unfold binary_round_aux.
  pose proof (shr_fexp_nonneg m e l Hm) as H1.
  destruct (shr_fexp prec emax m e l) as [mrs' e']. simpl in H1.
  pose proof (shr_fexp_nonneg (round_nearest_even (shr_m mrs') (loc_of_shr_record mrs')) e'
                loc_Exact (round_nearest_even_nonneg _ _ H1)) as H2.
  destruct (shr_fexp prec emax _ e' loc_Exact) as [mrs'' e'']. simpl in H2.
  destruct (shr_m mrs'') as [|p|p]; [done| |lia].
  by destruct (_ <=? _)%Z.
Qed.

Lemma binary_round_signed (s : bool) (m : positive) (e : Z) :
  signed s (binary_round prec emax s m e).
Proof.
  unfold binary_round. destruct (shl_align _ _ _) as [mz ez].
  by apply binary_round_aux_signed.
Qed.

Lemma binary_normalize_not_nan (m e : Z) : binary_normalize prec emax m e false ≠ S754_nan.
Proof.
  destruct m as [|p|p]; simpl; [done|..]; eapply signed_not_nan, binary_round_signed.
Qed.

Lemma binary_normalize_nonneg (m e : Z) :
  (0 ≤ m)%Z → sf_nonneg (binary_normalize prec emax m e false).
Proof.
  destruct m as [|p|p]; simpl; [done| |lia].
  intros _. apply signed_nonneg, binary_round_signed.
Qed.

(** ** The four operations on the specification side *)

(** A sum is [NaN] only when a term is, or for two infinities of
    opposite signs. *)
Lemma SF64add_nan (x y : spec_float) :
  SF64add x y = S754_nan →
  x = S754_nan ∨ y = S754_nan ∨ ∃ s, x = S754_infinity s ∧ y = S754_infinity (negb s).
Proof.
  destruct x as [sx|sx| |sx mx ex], y as [sy|sy| |sy my ey]; simpl; eauto;
    try (by destruct sx, sy; eauto).
  intros H. by apply binary_normalize_not_nan in H.
Qed.

Lemma SF64sub_nan (x y : spec_float) :
  SF64sub x y = S754_nan →
  x = S754_nan ∨ y = S754_nan ∨ ∃ s, x = S754_infinity s ∧ y = S754_infinity s.
Proof.
  destruct x as [sx|sx| |sx mx ex], y as [sy|sy| |sy my ey]; simpl; eauto;
    try (by destruct sx, sy; eauto).
  intros H. by apply binary_normalize_not_nan in H.
Qed.

(** A product is [NaN] only when a factor is, or for an infinity times a
    zero. *)
Lemma SF64mul_nan (x y : spec_float) :
  SF64mul x y = S754_nan →
  x = S754_nan ∨ y = S754_nan ∨
  (∃ s s', x = S754_infinity s ∧ y = S754_zero s') ∨
  (∃ s s', x = S754_zero s ∧ y = S754_infinity s').
Proof.
  destruct x as [sx|sx| |sx mx ex], y as [sy|sy| |sy my ey]; simpl; eauto 8; try done.
  intros H. exfalso. revert H. eapply signed_not_nan, binary_round_aux_signed. lia.
Qed.

Lemma SF64add_nonneg (x y : spec_float) :
  sf_nonneg x → sf_nonneg y → sf_nonneg (SF64add x y).
Proof.
  destruct x as [sx|sx| |sx mx ex], y as [sy|sy| |sy my ey]; simpl; try done.
  - intros _ _. by destruct sx, sy.
  - intros -> ->. done.
  - intros -> ->. cbn [cond_Zopp]. apply binary_normalize_nonneg. lia.
Qed.

Lemma SF64mul_nonneg (x y : spec_float) :
  sf_nonneg x → sf_nonneg y → sf_finite x → sf_finite y → sf_nonneg (SF64mul x y).
Proof.
  destruct x as [sx|sx| |sx mx ex], y as [sy|sy| |sy my ey]; simpl; try done.
  intros -> -> _ _. apply signed_nonneg, binary_round_aux_signed. lia.
Qed.

(** ** From the primitive operations to their specification *)

Lemma SFcompare_refl (x : spec_float) : x ≠ S754_nan → SFcompare x x = Some Eq.
Proof.
  destruct x as [s|s| |s m e]; simpl; try done; intros _.
  - by destruct s.
  - rewrite Z.compare_refl, Pos.compare_cont_refl. by destruct s.
Qed.

Lemma is_nan_spec (x : float) : is_nan x = true ↔ Prim2SF x = S754_nan.
Proof.
  unfold is_nan. rewrite eqb_spec. unfold SFeqb. split.
  - intros H. destruct (Prim2SF x) as [s|s| |s m e] eqn:E; [..|done|].
    all: rewrite SFcompare_refl in H by done; discriminate H.
  - by intros ->.
Qed.

Lemma is_nan_false_spec (x : float) : is_nan x = false ↔ Prim2SF x ≠ S754_nan.
Proof. rewrite <- is_nan_spec. by destruct (is_nan x). Qed.

Lemma is_infinity_spec (x : float) :
  is_infinity x = true ↔ ∃ s, Prim2SF x = S754_infinity s.
Proof.
  unfold is_infinity. rewrite eqb_spec, abs_spec.
  change (Prim2SF infinity) with (S754_infinity false). unfold SFeqb. split.
  - destruct (Prim2SF x) as [s|s| |s m e]; simpl; try done. by exists s.
  - by intros [s ->].
Qed.

Lemma is_finite_spec (x : float) : is_finite x = true ↔ sf_finite (Prim2SF x).
Proof.
  unfold is_finite. rewrite negb_true_iff, orb_false_iff, is_nan_false_spec.
  rewrite <- not_true_iff_false, is_infinity_spec.
  destruct (Prim2SF x) as [s|s| |s m e]; simpl; split; intros H; try done;
    try (split; [done|by intros [? ?]]); destruct H as [H1 H2]; try done.
  exfalso. apply H2. by eexists.
Qed.

Lemma nonneg_spec (x : float) : (0 <=? x)%float = true ↔ sf_nonneg (Prim2SF x).
Proof.
  rewrite leb_spec. change (Prim2SF 0) with (S754_zero false). unfold SFleb.
  destruct (Prim2SF x) as [s|s| |s m e]; simpl; try done; by destruct s.
Qed.

(** ** What the program's operations never do *)

Lemma add_not_nan (x y : float) :
  is_nan x = false → is_finite y = true → is_nan (x + y)%float = false.
Proof.
  rewrite !is_nan_false_spec, is_finite_spec, add_spec. intros Hx Hy H.
  apply SF64add_nan in H as [H|[H|(s & _ & H)]]; [done|..]; rewrite H in Hy; done.
Qed.

Lemma sub_not_nan (x y : float) :
  is_nan x = false → is_finite y = true → is_nan (x - y)%float = false.
Proof.
  rewrite !is_nan_false_spec, is_finite_spec, sub_spec. intros Hx Hy H.
  apply SF64sub_nan in H as [H|[H|(s & _ & H)]]; [done|..]; rewrite H in Hy; done.
Qed.

Lemma add_nonneg (x y : float) :
  (0 <=? x)%float = true → (0 <=? y)%float = true → (0 <=? x + y)%float = true.
Proof. rewrite !nonneg_spec, add_spec. apply SF64add_nonneg. Qed.

Lemma mul_nonneg (x y : float) :
  (0 <=? x)%float = true → (0 <=? y)%float = true →
  is_finite x = true → is_finite y = true →
  (0 <=? x * y)%float = true.
Proof. rewrite !nonneg_spec, !is_finite_spec, mul_spec. apply SF64mul_nonneg. Qed.

Lemma ltb_leb (x y : float) : (x <? y)%float = true → (x <=? y)%float = true.
Proof.
  rewrite ltb_spec, leb_spec. unfold SFltb, SFleb.
  by destruct (SFcompare _ _) as [[]|].
Qed.

Lemma nonneg_not_nan (x : float) : (0 <=? x)%float = true → is_nan x = false.
Proof. rewrite nonneg_spec, is_nan_false_spec. by destruct (Prim2SF x). Qed.

(** A finite number times zero is a zero, and a finite number plus a
    zero is that number, for [===]. *)
Lemma mul_zero_r (x : float) :
  is_finite x = true → ∃ s, Prim2SF (x * 0)%float = S754_zero s.
Proof.
  rewrite is_finite_spec, mul_spec. change (Prim2SF 0) with (S754_zero false).
  destruct (Prim2SF x) as [s|s| |s m e]; simpl; try done; eauto.
Qed.

Lemma add_zero_r (x y : float) (s : bool) :
  is_finite x = true → Prim2SF y = S754_zero s → (x + y =? x)%float = true.
Proof.
  rewrite is_finite_spec, eqb_spec, add_spec. intros Hx ->. unfold SFeqb.
  destruct (Prim2SF x) as [sx|sx| |sx m e]; simpl; try done.
  - by destruct sx, s.
  - rewrite Z.compare_refl, Pos.compare_cont_refl. by destruct sx.
Qed.

Lemma infinity_cases (x : float) :
  is_infinity x = true → x = infinity ∨ x = neg_infinity.
Proof.
  rewrite is_infinity_spec. intros [s H].
  destruct s; [right|left]; apply Prim2SF_inj; by rewrite H.
Qed.

(** Multiplying by [1] changes nothing: the product of a canonical
    mantissa and [2^52] is shifted back by the rounding. *)
Lemma digits2_pos_shift (n : nat) (m : positive) :
  Z.pos (digits2_pos (Nat.iter n xO m)) = (Z.pos (digits2_pos m) + Z.of_nat n)%Z.
Proof.
  induction n as [|n IH]; [simpl; lia|].
  change (Nat.iter (S n) xO m) with (xO (Nat.iter n xO m)).
  change (digits2_pos (xO (Nat.iter n xO m))) with (Pos.succ (digits2_pos (Nat.iter n xO m))).
  rewrite Pos2Z.inj_succ, IH. lia.
Qed.

Lemma SF64mul_one_r (s : bool) (m : positive) (e : Z) :
  bounded prec emax m e = true →
  SF64mul (S754_finite s m e) (S754_finite false 4503599627370496 (-52)) = S754_finite s m e.
Proof.
  unfold bounded, canonical_mantissa. intros H.
  apply andb_true_iff in H as [Hc He]. apply Z.eqb_eq in Hc.
  unfold SF64mul, SFmul, binary_round_aux, shr_fexp.
  rewrite xorb_false_r, Pos.mul_comm.
  change (4503599627370496 * m)%positive with (Nat.iter 52 xO m).
  cbn [Zdigits2]. rewrite digits2_pos_shift.
  replace (Z.pos (digits2_pos m) + Z.of_nat 52 + (e + -52))%Z
    with (Z.pos (digits2_pos m) + e)%Z by lia.
  rewrite Hc.
  replace (e - (e + -52))%Z with 52%Z by lia.
  cbn [Nat.iter nat_rect shr shr_record_of_loc SpecFloat.iter_pos shr_1 shr_m shr_r shr_s orb
       loc_of_shr_record round_nearest_even Zdigits2].
  replace (e + -52 + 52)%Z with e by lia.
  rewrite Hc, Z.sub_diag. cbn [shr shr_record_of_loc shr_m].
  by rewrite He.
Qed.

Lemma mul_one_r (x : float) : (x * 1)%float = x.
Proof.
  apply Prim2SF_inj. rewrite mul_spec.
  change (Prim2SF 1) with (S754_finite false 4503599627370496 (-52)).
  pose proof (Prim2SF_valid x) as Hv.
  destruct (Prim2SF x) as [s|s| |s m e]; [..|by apply SF64mul_one_r];
    simpl; by rewrite ?xorb_false_r.
Qed.

(* ===================================================================== *)
(** * The totals and the numeric inputs in IEEE 754 doubles *)
(* ===================================================================== *)

Lemma IEEE_apply_op_settings (s : IEEE.Editor.t) (op : IEEE.item_op) :
  IEEE.Editor.settings (IEEE.apply_op s op) = IEEE.Editor.settings s.
Proof. destruct op; reflexivity. Qed.

Lemma IEEE_apply_ops_settings (ops : list IEEE.item_op) (s : IEEE.Editor.t) :
  IEEE.Editor.settings (IEEE.apply_ops ops s) = IEEE.Editor.settings s.
Proof.
  revert s. induction ops as [|op ops IH]; intros s; [reflexivity|].
  unfold IEEE.apply_ops in *. simpl. rewrite IH. apply IEEE_apply_op_settings.
Qed.

(** The sum of the first [n] rows does not look at the later ones. *)
Lemma IEEE_sum_price_qty_app (n : nat) (l k : list IEEE.InvoiceItem.t) :
  (n ≤ length l)%nat → IEEE.sum_price_qty n (l ++ k) = IEEE.sum_price_qty n l.
Proof.
  induction n as [|n IH]; intros Hn; [reflexivity|].
  simpl. rewrite lookup_app_l by lia. rewrite IH by lia. reflexivity.
Qed.

Lemma IEEE_fold_left_sum (l : list IEEE.InvoiceItem.t) :
  fold_left (λ acc item,
    acc + IEEE.InvoiceItem.price item * IEEE.InvoiceItem.qty item)%float l 0%float
  = IEEE.sum_price_qty (length l) l.
Proof.
  induction l as [|x l IH] using rev_ind; [reflexivity|].
  rewrite fold_left_app, length_app, Nat.add_1_r. simpl.
  rewrite list_lookup_middle by reflexivity.
  rewrite IEEE_sum_price_qty_app by lia. by rewrite IH.
Qed.

Lemma IEEE_calculateSubtotal_sum (s : IEEE.Editor.t) :
  IEEE.calculateSubtotal s
  = IEEE.sum_price_qty (length (IEEE.InvoiceData.items (IEEE.Editor.data s)))
      (IEEE.InvoiceData.items (IEEE.Editor.data s)).
Proof. apply IEEE_fold_left_sum. Qed.

(** At a tax rate of [0]: the total of a finite subtotal is the
    subtotal, and the total of an infinite one is [NaN]. *)
Lemma total_at_tax_0 (subtotal : float) :
  (is_finite subtotal = true → (subtotal + subtotal * (0 / 100) =? subtotal)%float = true) ∧
  (is_infinity subtotal = true → is_nan (subtotal + subtotal * (0 / 100))%float = true).
Proof.
  change (0 / 100)%float with 0%float. split.
  - intros Hfin. destruct (mul_zero_r subtotal Hfin) as [s Hs].
    by apply (add_zero_r _ _ s).
  - intros Hinf. by destruct (infinity_cases subtotal Hinf) as [-> | ->].
Qed.

(** C1, as stated, fails. (1) Rounding: with one row of price [3] and
    quantity [1] and a tax rate of [10], [calculateTotal()] is
    [3 + 3 * (10 / 100)], the double [3.3], and
    [(sum of price * qty) * (1 + 10 / 100)] is the next double,
    [3.3000000000000003]. (2) Overflow: with one row of price [1e308]
    and quantity [10] and a tax rate of [0], the subtotal is [Infinity],
    [calculateTotal()] is [Infinity + Infinity * 0], which is [NaN], and
    [(sum of price * qty) * (1 + 0 / 100)] is [Infinity]. Both states
    are reached from the empty invoice by [addItem] and [updateItem]. *)
Lemma calculateTotal_rounding_counterexample :
  let settings taxRate :=
    IEEE.AppSettings.mk "" taxRate "#3b82f6" true
      (IEEE.TableConfig.mk 10 15 15 10 10 8 14) in
  let empty taxRate :=
    IEEE.Editor.mk (IEEE.InvoiceData.mk None "" "" "" [] "" None) (settings taxRate) false "" in
  let s1 := IEEE.apply_ops [IEEE.AddItem "r1" None;
                            IEEE.UpdateItem "r1" (IEEE.InvoiceItem.Price 3)] (empty 10%float) in
  let s2 := IEEE.apply_ops [IEEE.AddItem "r1" None;
                            IEEE.UpdateItem "r1" (IEEE.InvoiceItem.Price 1e308);
                            IEEE.UpdateItem "r1" (IEEE.InvoiceItem.Qty 10)] (empty 0%float) in
  let claimed s :=
    (IEEE.sum_price_qty 1 (IEEE.InvoiceData.items (IEEE.Editor.data s))
     * (1 + IEEE.AppSettings.taxRate (IEEE.Editor.settings s) / 100))%float in
  (IEEE.calculateTotal s1 =? claimed s1)%float = false ∧
  (IEEE.calculateTotal s1 <? claimed s1)%float = true ∧
  IEEE.calculateTotal s1 = 0x1.a666666666666p+1%float ∧
  claimed s1 = 0x1.a666666666667p+1%float ∧
  IEEE.calculateSubtotal s2 = infinity ∧
  is_nan (IEEE.calculateTotal s2) = true ∧
  claimed s2 = infinity.
Proof. cbv zeta. repeat split; vm_compute; reflexivity. Qed.

(** The scenario of the specification: tax rate 10, one item priced 100
    at quantity 2 gives subtotal 200, tax 20 and total 220. *)
Example totals_scenario :
  let item := IEEE.InvoiceItem.mk "a" None "" "" 100 2 None in
  let s := IEEE.Editor.mk (IEEE.InvoiceData.mk None "" "" "" [item] "" None)
             (IEEE.AppSettings.mk "" 10 "#3b82f6" true (IEEE.TableConfig.mk 10 15 15 10 10 8 14))
             false "" in
  IEEE.calculateSubtotal s = 200%float ∧ IEEE.displayedTax s = 20%float ∧
  IEEE.calculateTotal s = 220%float.
Proof. cbv zeta. repeat split. Qed.

(** C1, amended. After any sequence of [addItem], [updateItem] and
    [removeItem] from any editor state, with any tax rate, in the
    arithmetic of doubles, where every operation rounds:
    [calculateSubtotal()] is the sum of [price * qty] over the rows,
    added from the first row to the last; [calculateTotal()] is
    [subtotal + subtotal * (taxRate / 100)] and the tax line shows
    [subtotal * taxRate / 100]; the item operations leave the tax rate
    alone. At a tax rate of [0], the total of a finite subtotal equals
    the subtotal, which is also [subtotal * (1 + taxRate / 100)]. *)
Theorem calculateTotal_rounded_after_item_ops
    (ops : list IEEE.item_op) (s : IEEE.Editor.t) :
  let s' := IEEE.apply_ops ops s in
  let items := IEEE.InvoiceData.items (IEEE.Editor.data s') in
  let taxRate := IEEE.AppSettings.taxRate (IEEE.Editor.settings s) in
  let subtotal := IEEE.sum_price_qty (length items) items in
  IEEE.AppSettings.taxRate (IEEE.Editor.settings s') = taxRate ∧
  IEEE.calculateSubtotal s' = subtotal ∧
  IEEE.calculateTotal s' = (subtotal + subtotal * (taxRate / 100))%float ∧
  IEEE.displayedTax s' = (subtotal * taxRate / 100)%float ∧
  (taxRate = 0%float → is_finite subtotal = true →
     (IEEE.calculateTotal s' =? subtotal)%float = true) ∧
  (taxRate = 0%float → is_finite subtotal = true →
     (IEEE.calculateTotal s' =? subtotal * (1 + taxRate / 100))%float = true).
Proof.
  intros s' items taxRate subtotal.
  assert (Ht : IEEE.AppSettings.taxRate (IEEE.Editor.settings s') = taxRate)
    by (unfold s', taxRate; by rewrite IEEE_apply_ops_settings).
  assert (Hs : IEEE.calculateSubtotal s' = subtotal) by apply IEEE_calculateSubtotal_sum.
  assert (Htotal : IEEE.calculateTotal s' = (subtotal + subtotal * (taxRate / 100))%float)
    by (unfold IEEE.calculateTotal; cbv zeta; by rewrite Hs, Ht).
  split; [exact Ht|]. split; [exact Hs|]. split; [exact Htotal|].
  split; [unfold IEEE.displayedTax; by rewrite Hs, Ht|].
  rewrite Htotal. split; intros ->; [apply total_at_tax_0|].
  change (1 + 0 / 100)%float with 1%float. rewrite mul_one_r. apply total_at_tax_0.
Qed.

Lemma calculateTotal_rounded_after_item_ops_witness :
  let settings :=
    IEEE.AppSettings.mk "" 0 "#3b82f6" true (IEEE.TableConfig.mk 10 15 15 10 10 8 14) in
  let s := IEEE.Editor.mk (IEEE.InvoiceData.mk None "" "" "" [] "" None) settings false "" in
  let ops := [IEEE.AddItem "r1" None; IEEE.UpdateItem "r1" (IEEE.InvoiceItem.Price 0.1);
              IEEE.AddItem "r2" None; IEEE.UpdateItem "r2" (IEEE.InvoiceItem.Price 0.2)] in
  (IEEE.calculateTotal (IEEE.apply_ops ops s)
   =? IEEE.sum_price_qty 2 (IEEE.InvoiceData.items (IEEE.Editor.data (IEEE.apply_ops ops s))))%float
  = true.
Proof.
  intros settings s ops.
  apply (proj1 (proj2 (proj2 (proj2 (proj2
    (calculateTotal_rounded_after_item_ops ops s)))))); reflexivity.
Defined.

(** A subtotal that overflowed to an infinity gives a total of [NaN] at a
    tax rate of [0], whatever rows and operations led to it. *)
Lemma calculateTotal_after_overflow (s : IEEE.Editor.t) :
  IEEE.AppSettings.taxRate (IEEE.Editor.settings s) = 0%float →
  is_infinity (IEEE.calculateSubtotal s) = true →
  is_nan (IEEE.calculateTotal s) = true.
Proof.
  intros Ht Hinf. unfold IEEE.calculateTotal. cbv zeta. rewrite Ht.
  by apply total_at_tax_0.
Qed.

(** ** The numbers typed into the forms *)

Lemma IEEE_js_or_stored (n : IEEE.double) :
  is_nan (js_or n 0%float) = false ∧
  (truthy n = true → js_or n 0%float = n) ∧
  (truthy n = false → js_or n 0%float = 0%float) ∧
  (is_nan n = true → js_or n 0%float = 0%float).
Proof.
  unfold js_or, truthy, IEEE.double_truthy.
  destruct (is_nan n) eqn:Hnan; simpl; [by repeat split|].
  destruct (is_zero n); simpl; by repeat split.
Qed.

Lemma not_nan_cases (n : float) :
  is_nan n = false → is_finite n = true ∨ n = infinity ∨ n = neg_infinity.
Proof.
  intros Hnan. unfold is_finite. rewrite Hnan. simpl.
  destruct (is_infinity n) eqn:Hinf; [right; by apply infinity_cases|by left].
Qed.

Lemma IEEE_updateItem_field (id : string) (u : IEEE.InvoiceItem.patch) (s : IEEE.Editor.t)
    (item' : IEEE.InvoiceItem.t) :
  item' ∈ IEEE.InvoiceData.items (IEEE.Editor.data (IEEE.updateItem id u s)) →
  ∃ item, item ∈ IEEE.InvoiceData.items (IEEE.Editor.data s) ∧
    item' = (if decide (IEEE.InvoiceItem.id item = id)
             then IEEE.InvoiceItem.set u item else item).
Proof.
  simpl. intros Hin. apply list_elem_of_fmap in Hin as (item & -> & Hitem). by exists item.
Qed.

(** C10, as stated, fails: the stored value is not always a real
    number. When [parseFloat] answers [Infinity], as it does for the
    text ["Infinity"], the price input stores [Infinity]. *)
Lemma form_number_infinity_counterexample :
  let parseFloat := λ text : string, if decide (text = "Infinity") then infinity else nan in
  let row := IEEE.InvoiceItem.mk "r1" None "hose" "H-1" 12 3 None in
  let s := IEEE.Editor.mk (IEEE.InvoiceData.mk None "Ann" "R1" "01/01/2025" [row] "" None)
             (IEEE.AppSettings.mk "" 0 "#3b82f6" true (IEEE.TableConfig.mk 10 15 15 10 10 8 14))
             false "" in
  IEEE.InvoiceItem.price <$>
    IEEE.InvoiceData.items (IEEE.Editor.data (IEEE.onPriceChange parseFloat "r1" "Infinity" s))
  = [infinity] ∧
  is_finite infinity = false ∧
  IEEE.AppSettings.taxRate
    (IEEE.onTaxRateChange parseFloat "Infinity" (IEEE.Editor.settings s)) = infinity.
Proof. cbv zeta. repeat split. Qed.

(** C10, amended. For every text [e.target.value] and whatever
    [parseFloat] makes of it, the number that the four form handlers
    store is [parseFloat(text) || 0]: it is never [NaN]; it is
    [parseFloat(text)] when that is truthy and [0] otherwise, so that a
    text [parseFloat] answers with [NaN] is stored as [0]. It is a finite
    number unless [parseFloat] answers an infinity. The price and the quantity of the
    edited invoice line, the tax rate of the settings and the price of
    the product in the edit modal are set to it. *)
Theorem form_numbers_stored (parseFloat : string → IEEE.double) (text : string) :
  let stored := js_or (parseFloat text) 0%float in
  is_nan stored = false ∧
  (truthy (parseFloat text) = true → stored = parseFloat text) ∧
  (truthy (parseFloat text) = false → stored = 0%float) ∧
  (is_nan (parseFloat text) = true → stored = 0%float) ∧
  (is_infinity (parseFloat text) = false → is_finite stored = true) ∧
  (∀ id s item, item ∈ IEEE.InvoiceData.items (IEEE.Editor.data s) →
     IEEE.InvoiceItem.id item = id →
     IEEE.InvoiceItem.set (IEEE.InvoiceItem.Price stored) item
       ∈ IEEE.InvoiceData.items (IEEE.Editor.data (IEEE.onPriceChange parseFloat id text s))) ∧
  (∀ id s item',
     item' ∈ IEEE.InvoiceData.items (IEEE.Editor.data (IEEE.onPriceChange parseFloat id text s)) →
     IEEE.InvoiceItem.id item' = id → IEEE.InvoiceItem.price item' = stored) ∧
  (∀ id s item, item ∈ IEEE.InvoiceData.items (IEEE.Editor.data s) →
     IEEE.InvoiceItem.id item = id →
     IEEE.InvoiceItem.set (IEEE.InvoiceItem.Qty stored) item
       ∈ IEEE.InvoiceData.items (IEEE.Editor.data (IEEE.onQtyChange parseFloat id text s))) ∧
  (∀ id s item',
     item' ∈ IEEE.InvoiceData.items (IEEE.Editor.data (IEEE.onQtyChange parseFloat id text s)) →
     IEEE.InvoiceItem.id item' = id → IEEE.InvoiceItem.qty item' = stored) ∧
  (∀ settings,
     IEEE.AppSettings.taxRate (IEEE.onTaxRateChange parseFloat text settings) = stored) ∧
  (∀ p, ∃ p', IEEE.onEditPriceChange parseFloat text (Some p) = Some p' ∧
              IEEE.Product.price p' = stored ∧
              IEEE.Product.with_price (IEEE.Product.price p) p' = p).
Proof.
  cbv zeta.
  destruct (IEEE_js_or_stored (parseFloat text)) as (Hnan & Htruthy & Hfalsy & Hisnan).
  split; [exact Hnan|]. split; [exact Htruthy|]. split; [exact Hfalsy|].
  split; [exact Hisnan|].
  split; [|split; [|split; [|split; [|split; [|split]]]]].
  - intros Hinf. unfold is_finite. rewrite Hnan. simpl.
    destruct (truthy (parseFloat text)) eqn:Ht.
    + by rewrite (Htruthy eq_refl), Hinf.
    + by rewrite (Hfalsy eq_refl).
  - intros id s item Hin Hid.
    unfold IEEE.onPriceChange. simpl. apply list_elem_of_fmap.
    exists item. split; [|exact Hin]. by rewrite decide_True.
  - intros id s item' Hin Hid.
    apply IEEE_updateItem_field in Hin as (item & _ & ->).
    destruct (decide (IEEE.InvoiceItem.id item = id)); [reflexivity|done].
  - intros id s item Hin Hid.
    unfold IEEE.onQtyChange. simpl. apply list_elem_of_fmap.
    exists item. split; [|exact Hin]. by rewrite decide_True.
  - intros id s item' Hin Hid.
    apply IEEE_updateItem_field in Hin as (item & _ & ->).
    destruct (decide (IEEE.InvoiceItem.id item = id)); [reflexivity|done].
  - reflexivity.
  - intros p. eexists. split; [reflexivity|]. split; [reflexivity|]. by destruct p.
Qed.

Lemma form_numbers_stored_witness :
  let parseFloat := λ text : string,
    if decide (text = "12.5") then 12.5%float
    else if decide (text = "1e999") then infinity else nan in
  js_or (parseFloat "12.5") 0%float = 12.5%float ∧
  js_or (parseFloat "1e999") 0%float = infinity ∧
  js_or (parseFloat "abc") 0%float = 0%float.
Proof.
  intros parseFloat. split; [|split].
  - apply (proj1 (proj2 (form_numbers_stored parseFloat "12.5"))). reflexivity.
  - apply (proj1 (proj2 (form_numbers_stored parseFloat "1e999"))). reflexivity.
  - apply (proj1 (proj2 (proj2 (proj2 (form_numbers_stored parseFloat "abc"))))). reflexivity.
Defined.

(** ** Rows under editing *)

Lemma Math_max_not_nan (a b : float) :
  is_nan a = false → is_nan b = false → is_nan (IEEE.Math_max a b) = false.
Proof.
  intros Ha Hb. unfold IEEE.Math_max. rewrite Ha, Hb. simpl.
  destruct (a <? b)%float; [exact Hb|].
  destruct (b <? a)%float; [exact Ha|].
  by destruct (classify a).
Qed.

Lemma Math_max_nan (a b : float) :
  is_nan b = true → IEEE.Math_max a b = nan.
Proof. intros Hb. unfold IEEE.Math_max. rewrite Hb. by rewrite orb_true_r. Qed.

(** [Math.max(0, x)] of a number [x]. *)
Lemma Math_max_0 (x : float) :
  is_nan x = false →
  (0 <=? IEEE.Math_max 0 x)%float = true ∧
  ((0 <? x)%float = true → IEEE.Math_max 0 x = x) ∧
  ((0 <? x)%float = false → IEEE.Math_max 0 x = 0%float).
Proof.
  intros Hx. unfold IEEE.Math_max. rewrite Hx.
  change (is_nan 0 || false) with false. cbv iota.
  destruct (0 <? x)%float eqn:Hlt.
  - split; [by apply ltb_leb|]. by split.
  - change (classify 0) with PZero. cbv iota.
    destruct (x <? 0)%float; by repeat split.
Qed.

Lemma IEEE_newItem_numeric (gid : string) (product : option IEEE.Product.t) :
  IEEE.numeric_line (IEEE.newItem gid product).
Proof.
  split; [|reflexivity]. simpl.
  destruct product as [p|]; [|reflexivity]. apply IEEE_js_or_stored.
Qed.

Lemma IEEE_updateItem_numeric (id : string) (u : IEEE.InvoiceItem.patch) (s : IEEE.Editor.t) :
  (∀ v, u = IEEE.InvoiceItem.Price v → is_nan v = false) →
  (∀ v, u = IEEE.InvoiceItem.Qty v → is_nan v = false) →
  Forall IEEE.numeric_line (IEEE.InvoiceData.items (IEEE.Editor.data s)) →
  Forall IEEE.numeric_line (IEEE.InvoiceData.items (IEEE.Editor.data (IEEE.updateItem id u s))).
Proof.
  intros Hp Hq Hs. simpl. apply Forall_fmap. eapply Forall_impl; [exact Hs|].
  intros item [Hip Hiq]. simpl.
  destruct (decide (IEEE.InvoiceItem.id item = id)); [|by split].
  destruct u; try (by split); split; simpl; eauto.
Qed.

Lemma IEEE_line_step_numeric (parseFloat : string → IEEE.double) (s : IEEE.Editor.t)
    (ev : IEEE.line_event) :
  Forall IEEE.numeric_line (IEEE.InvoiceData.items (IEEE.Editor.data s)) →
  Forall IEEE.numeric_line
    (IEEE.InvoiceData.items (IEEE.Editor.data (IEEE.line_step parseFloat s ev))).
Proof.
  intros Hs. destruct ev as [gid|gid p|id text|id text|id text|id text|row|row|row|id base64];
    cbn [IEEE.line_step].
  - simpl. apply Forall_app. split; [exact Hs|]. repeat constructor.
  - simpl. apply Forall_app. split; [exact Hs|].
    apply Forall_singleton, IEEE_newItem_numeric.
  - by apply IEEE_updateItem_numeric.
  - by apply IEEE_updateItem_numeric.
  - apply IEEE_updateItem_numeric; [|done|exact Hs].
    intros v [= <-]. apply IEEE_js_or_stored.
  - apply IEEE_updateItem_numeric; [done| |exact Hs].
    intros v [= <-]. apply IEEE_js_or_stored.
  - unfold IEEE.on_row.
    destruct (IEEE.InvoiceData.items (IEEE.Editor.data s) !! row) as [item|] eqn:Hrow;
      [|exact Hs].
    apply IEEE_updateItem_numeric; [done| |exact Hs].
    intros v [= <-]. apply Math_max_not_nan; [reflexivity|].
    apply sub_not_nan; [|reflexivity].
    rewrite Forall_forall in Hs. apply (Hs item). by eapply list_elem_of_lookup_2.
  - unfold IEEE.on_row.
    destruct (IEEE.InvoiceData.items (IEEE.Editor.data s) !! row) as [item|] eqn:Hrow;
      [|exact Hs].
    apply IEEE_updateItem_numeric; [done| |exact Hs].
    intros v [= <-]. apply add_not_nan; [|reflexivity].
    rewrite Forall_forall in Hs. apply (Hs item). by eapply list_elem_of_lookup_2.
  - unfold IEEE.on_row.
    destruct (IEEE.InvoiceData.items (IEEE.Editor.data s) !! row) as [item|]; [|exact Hs].
    simpl. rewrite Forall_forall in *. intros x Hx.
    apply list_elem_of_filter in Hx as [_ Hx]. by apply Hs.
  - by apply IEEE_updateItem_numeric.
Qed.

(** X3. Start from an invoice whose prices and quantities are not
    [NaN]. Whatever the user then does to its lines (adding blank or
    catalog rows, typing a code, a description, a price or a quantity,
    clicking the quantity buttons, removing rows, choosing row images),
    and whatever [parseFloat] makes of the typed texts, the infinities
    included, no price and no quantity is [NaN]. *)
Theorem line_events_keep_rows_numeric
    (parseFloat : string → IEEE.double) (evs : list IEEE.line_event) (s : IEEE.Editor.t) :
  Forall IEEE.numeric_line (IEEE.InvoiceData.items (IEEE.Editor.data s)) →
  Forall IEEE.numeric_line
    (IEEE.InvoiceData.items (IEEE.Editor.data (IEEE.line_steps parseFloat evs s))).
Proof.
  unfold IEEE.line_steps. revert s.
  induction evs as [|ev evs IH]; intros s Hs; [exact Hs|].
  simpl. apply IH. by apply IEEE_line_step_numeric.
Qed.

Lemma line_events_keep_rows_numeric_witness :
  let s := IEEE.Editor.mk (IEEE.InvoiceData.mk None "Ann" "R1" "01/01/2025" [] "" None)
             (IEEE.AppSettings.mk "" 0 "#3b82f6" true (IEEE.TableConfig.mk 10 15 15 10 10 8 14))
             false "" in
  let parseFloat := λ text : string, if decide (text = "1e999") then infinity else nan in
  let evs := [IEEE.AddBlankRow "r1"; IEEE.TypePrice "r1" "1e999"; IEEE.TypeQty "r1" "x";
              IEEE.ClickMinus 0; IEEE.ClickPlus 0] in
  Forall IEEE.numeric_line
    (IEEE.InvoiceData.items (IEEE.Editor.data (IEEE.line_steps parseFloat evs s))).
Proof.
  intros s parseFloat evs.
  apply (line_events_keep_rows_numeric parseFloat evs s). constructor.
Defined.

(** The rows can hold numbers while the subtotal is [NaN]: a price of
    [Infinity] at a quantity of [0]. *)
Example subtotal_NaN_of_numbers :
  let row := IEEE.InvoiceItem.mk "r1" None "" "" infinity 0 None in
  let s := IEEE.Editor.mk (IEEE.InvoiceData.mk None "" "" "" [row] "" None)
             (IEEE.AppSettings.mk "" 0 "#3b82f6" true (IEEE.TableConfig.mk 10 15 15 10 10 8 14))
             false "" in
  IEEE.numeric_line row ∧ is_nan (IEEE.calculateSubtotal s) = true.
Proof. cbv zeta. repeat split. Qed.

(** X4. The minus button stores [Math.max(0, qty - 1)] on every row
    that has the id of the row clicked: for a quantity that is not [NaN]
    this is never negative and never [NaN]; it is [qty - 1], rounded,
    when that is above [0], and [0] otherwise. *)
Theorem qty_minus_never_negative (item : IEEE.InvoiceItem.t) (s : IEEE.Editor.t) :
  is_nan (IEEE.InvoiceItem.qty item) = false →
  let stored := IEEE.Math_max 0 (IEEE.InvoiceItem.qty item - 1)%float in
  (∀ row, row ∈ IEEE.InvoiceData.items (IEEE.Editor.data (IEEE.onQtyMinus item s)) →
     IEEE.InvoiceItem.id row = IEEE.InvoiceItem.id item →
     IEEE.InvoiceItem.qty row = stored) ∧
  IEEE.nonneg stored ∧
  is_nan stored = false ∧
  ((0 <? IEEE.InvoiceItem.qty item - 1)%float = true →
     stored = (IEEE.InvoiceItem.qty item - 1)%float) ∧
  ((0 <? IEEE.InvoiceItem.qty item - 1)%float = false → stored = 0%float).
Proof.
  intros Hq. cbv zeta.
  assert (Hsub : is_nan (IEEE.InvoiceItem.qty item - 1)%float = false)
    by (by apply sub_not_nan).
  destruct (Math_max_0 _ Hsub) as (Hnonneg & Hpos & Hzero).
  split; [|split; [exact Hnonneg|split; [by apply nonneg_not_nan|]]].
  - intros row Hrow Hid.
    apply IEEE_updateItem_field in Hrow as (item0 & _ & ->).
    destruct (decide (IEEE.InvoiceItem.id item0 = IEEE.InvoiceItem.id item)); [reflexivity|done].
  - split; [exact Hpos|exact Hzero].
Qed.

Lemma qty_minus_never_negative_witness :
  let item := IEEE.InvoiceItem.mk "r1" None "hose" "H-1" 12 0.5 None in
  IEEE.Math_max 0 (IEEE.InvoiceItem.qty item - 1)%float = 0%float.
Proof.
  intros item.
  refine (proj2 (proj2 (proj2 (proj2 (qty_minus_never_negative item
    (IEEE.Editor.mk (IEEE.InvoiceData.mk None "Ann" "R1" "01/01/2025" [item] "" None)
       (IEEE.AppSettings.mk "" 0 "#3b82f6" true (IEEE.TableConfig.mk 10 15 15 10 10 8 14))
       false "") _)))) _); reflexivity.
Defined.

(** The plus button does not undo the minus button, nor the other way
    round: from a quantity of [0.1], plus and then minus store
    [0.10000000000000009]. *)
Example qty_plus_then_minus :
  let row := IEEE.InvoiceItem.mk "r1" None "hose" "H-1" 12 0.1 None in
  let s := IEEE.Editor.mk (IEEE.InvoiceData.mk None "Ann" "R1" "01/01/2025" [row] "" None)
             (IEEE.AppSettings.mk "" 0 "#3b82f6" true (IEEE.TableConfig.mk 10 15 15 10 10 8 14))
             false "" in
  let s' := IEEE.line_steps (λ _, nan) [IEEE.ClickPlus 0; IEEE.ClickMinus 0] s in
  IEEE.InvoiceItem.qty <$> IEEE.InvoiceData.items (IEEE.Editor.data s')
  = [0.10000000000000009%float] ∧
  (0.1 <? 0.10000000000000009)%float = true.
Proof. cbv zeta. split; reflexivity. Qed.

(** ** Totals of amounts that are not negative *)

Lemma IEEE_sum_nonneg (n : nat) (items : list IEEE.InvoiceItem.t) :
  Forall (λ item,
    IEEE.nonneg (IEEE.InvoiceItem.price item) ∧ is_finite (IEEE.InvoiceItem.price item) = true ∧
    IEEE.nonneg (IEEE.InvoiceItem.qty item) ∧ is_finite (IEEE.InvoiceItem.qty item) = true)
    items →
  IEEE.nonneg (IEEE.sum_price_qty n items).
Proof.
  intros Hitems. induction n as [|n IH]; [reflexivity|].
  simpl. destruct (items !! n) as [item|] eqn:Hn; [|exact IH].
  rewrite Forall_forall in Hitems.
  destruct (Hitems item (list_elem_of_lookup_2 _ _ _ Hn)) as (Hp & Hpf & Hq & Hqf).
  apply add_nonneg; [exact IH|]. by apply mul_nonneg.
Qed.

(** X19. With finite prices and quantities that are not negative, the
    subtotal is never [NaN] and never negative; it is [Infinity] when
    the sum overflows. While the subtotal is finite and [taxRate / 100]
    is finite and not negative, the total is not [NaN] and not negative.
    With a tax rate of [0], the total equals the subtotal while the
    subtotal is finite, and is [NaN] once the subtotal is [Infinity]. *)
Theorem totals_of_nonneg_rows (s : IEEE.Editor.t) :
  Forall (λ item,
    IEEE.nonneg (IEEE.InvoiceItem.price item) ∧ is_finite (IEEE.InvoiceItem.price item) = true ∧
    IEEE.nonneg (IEEE.InvoiceItem.qty item) ∧ is_finite (IEEE.InvoiceItem.qty item) = true)
    (IEEE.InvoiceData.items (IEEE.Editor.data s)) →
  IEEE.nonneg (IEEE.calculateSubtotal s) ∧
  is_nan (IEEE.calculateSubtotal s) = false ∧
  (is_finite (IEEE.calculateSubtotal s) = true ∨ IEEE.calculateSubtotal s = infinity) ∧
  (is_finite (IEEE.calculateSubtotal s) = true →
   IEEE.nonneg (IEEE.AppSettings.taxRate (IEEE.Editor.settings s) / 100) →
   is_finite (IEEE.AppSettings.taxRate (IEEE.Editor.settings s) / 100) = true →
   IEEE.nonneg (IEEE.calculateTotal s) ∧ is_nan (IEEE.calculateTotal s) = false) ∧
  (IEEE.AppSettings.taxRate (IEEE.Editor.settings s) = 0%float →
     (is_finite (IEEE.calculateSubtotal s) = true →
        (IEEE.calculateTotal s =? IEEE.calculateSubtotal s)%float = true) ∧
     (IEEE.calculateSubtotal s = infinity → is_nan (IEEE.calculateTotal s) = true)).
Proof.
  intros Hitems.
  assert (Hnonneg : IEEE.nonneg (IEEE.calculateSubtotal s))
    by (rewrite IEEE_calculateSubtotal_sum; by apply IEEE_sum_nonneg).
  assert (Hnan : is_nan (IEEE.calculateSubtotal s) = false) by (by apply nonneg_not_nan).
  split; [exact Hnonneg|]. split; [exact Hnan|]. split.
  - destruct (not_nan_cases _ Hnan) as [Hfin|[Hinf|Hinf]]; [by left|by right|].
    unfold IEEE.nonneg in Hnonneg. rewrite Hinf in Hnonneg. discriminate Hnonneg.
  - split.
    { intros Hfin Hrate Hratefin.
      assert (Htotal : IEEE.nonneg (IEEE.calculateTotal s)).
      { unfold IEEE.calculateTotal. cbv zeta.
        apply add_nonneg; [exact Hnonneg|]. by apply mul_nonneg. }
      split; [exact Htotal|by apply nonneg_not_nan]. }
    intros Htax. unfold IEEE.calculateTotal. cbv zeta. rewrite Htax. split.
    + apply total_at_tax_0.
    + intros ->. reflexivity.
Qed.

Lemma totals_of_nonneg_rows_witness :
  let row := IEEE.InvoiceItem.mk "r1" None "" "" 1e308 10 None in
  let s := IEEE.Editor.mk (IEEE.InvoiceData.mk None "" "" "" [row] "" None)
             (IEEE.AppSettings.mk "" 0 "#3b82f6" true (IEEE.TableConfig.mk 10 15 15 10 10 8 14))
             false "" in
  IEEE.nonneg (IEEE.calculateSubtotal s) ∧ is_nan (IEEE.calculateTotal s) = true.
Proof.
  intros row s.
  destruct (totals_of_nonneg_rows s) as (Hnonneg & _ & _ & _ & Htax).
  - repeat constructor.
  - split; [exact Hnonneg|]. by apply (Htax eq_refl).
Defined.

(** At a tax rate of 10, three rows of 0.1 at quantity 1 give a subtotal
    of [0.30000000000000004] and a total of [0.33000000000000007]. *)
Example totals_of_tenths :
  let row id := IEEE.InvoiceItem.mk id None "" "" 0.1 1 None in
  let s := IEEE.Editor.mk
             (IEEE.InvoiceData.mk None "" "" "" [row "r1"; row "r2"; row "r3"] "" None)
             (IEEE.AppSettings.mk "" 10 "#3b82f6" true (IEEE.TableConfig.mk 10 15 15 10 10 8 14))
             false "" in
  IEEE.calculateSubtotal s = 0.30000000000000004%float ∧
  IEEE.calculateTotal s = 0.33000000000000007%float.
Proof. cbv zeta. split; reflexivity. Qed.
